(** * Devr.AI repository-statistics endpoint: embedding and properties

    Shallow embedding of
      - [backend/app/api/v1/repo_stats.py]            (parser and request handler)
      - [backend/app/services/github/repo_stats.py]   (per-category fetchers and
                                                        the comprehensive fetch)
    Python values that come from the upstream JSON payloads are modelled by an
    inductive [json] type, Python exceptions by an error monad, and the
    regular expressions of [parse_repo_url] by a small backtracking matcher
    that follows the search order of Python's [re] module. *)

From Stdlib Require Import String Ascii List ZArith Bool Lia Arith.
Import ListNotations.
Local Open Scope string_scope.
Local Open Scope Z_scope.

(* ===================================================================== *)
(** ** Exceptions and the error monad *)
(* ===================================================================== *)

(** The exception classes the two modules raise or let escape.  Every one
    carries the text that [str(e)] yields. *)
Inductive exn : Type :=
| ValueError (msg : string)
| TypeError (msg : string)
| AttributeError (msg : string)
| OtherError (msg : string)
| HTTPException (status_code : Z) (detail : string).

(** [str(e)] *)
Definition exn_str (e : exn) : string :=
  match e with
  | ValueError m | TypeError m | AttributeError m | OtherError m => m
  | HTTPException _ d => d
  end.

Inductive result (A : Type) : Type :=
| Ok (a : A)
| Err (e : exn).
Arguments Ok {A} a.
Arguments Err {A} e.

Definition bind {A B : Type} (c : result A) (f : A -> result B) : result B :=
  match c with
  | Ok a => f a
  | Err e => Err e
  end.

Declare Scope py_scope.
Delimit Scope py_scope with py.
Notation "x <- c ;; k" := (bind c (fun x => k))
  (at level 61, c at next level, right associativity) : py_scope.
Notation "' p <- c ;; k" := (bind c (fun x => let 'p := x in k))
  (at level 61, p pattern, c at next level, right associativity) : py_scope.
Local Open Scope py_scope.

Definition is_ok {A : Type} (r : result A) : bool :=
  match r with Ok _ => true | Err _ => false end.

(** A comprehension [[f(x) for x in xs]]: elements are produced left to
    right and the first exception aborts the whole comprehension. *)
Fixpoint mapM {A B : Type} (f : A -> result B) (xs : list A) : result (list B) :=
  match xs with
  | [] => Ok []
  | x :: xs' =>
      y <- f x ;;
      ys <- mapM f xs' ;;
      Ok (y :: ys)
  end.

(** A comprehension with a condition, [[x for x in xs if p(x)]]. *)
Fixpoint filterM {A : Type} (p : A -> result bool) (xs : list A) : result (list A) :=
  match xs with
  | [] => Ok []
  | x :: xs' =>
      b <- p x ;;
      ys <- filterM p xs' ;;
      Ok (if b then x :: ys else ys)
  end.

(* ===================================================================== *)
(** ** Python strings *)
(* ===================================================================== *)

(** Strings are sequences of code points below 256. *)

Definition chars (s : string) : list ascii := list_ascii_of_string s.
Definition str_of (l : list ascii) : string := string_of_list_ascii l.

Definition code (c : ascii) : N := N_of_ascii c.

(** [c.isspace()] on the code points below 256. *)
Definition isspace (c : ascii) : bool :=
  let n := code c in
  ((9 <=? n) && (n <=? 13) || (28 <=? n) && (n <=? 32)
   || (n =? 133) || (n =? 160))%N.

Definition mem_ascii (c : ascii) (set : list ascii) : bool :=
  existsb (Ascii.eqb c) set.

Fixpoint dropwhile {A : Type} (p : A -> bool) (l : list A) : list A :=
  match l with
  | [] => []
  | x :: l' => if p x then dropwhile p l' else l
  end.

Definition rdropwhile {A : Type} (p : A -> bool) (l : list A) : list A :=
  rev (dropwhile p (rev l)).

(** [s.strip()] *)
Definition strip (s : string) : string :=
  str_of (rdropwhile isspace (dropwhile isspace (chars s))).

(** [s.rstrip(cs)]: removes every trailing character that belongs to the
    set of characters of [cs]. *)
Definition rstrip (cs : string) (s : string) : string :=
  str_of (rdropwhile (fun c => mem_ascii c (chars cs)) (chars s)).

Fixpoint is_prefix (p l : list ascii) : bool :=
  match p, l with
  | [], _ => true
  | a :: p', b :: l' => Ascii.eqb a b && is_prefix p' l'
  | _ :: _, [] => false
  end.

Fixpoint is_infix (p l : list ascii) : bool :=
  is_prefix p l ||
  match l with
  | [] => false
  | _ :: l' => is_infix p l'
  end.

(** [sub in s] on strings *)
Definition str_contains (sub s : string) : bool := is_infix (chars sub) (chars s).

(* ===================================================================== *)
(** ** Regular expressions, as [re.search] runs them *)
(* ===================================================================== *)

Module Re.

(** A character class [[...]] or [[^...]], given by its ranges. *)
Record cls : Type := Class {
  negated : bool;
  ranges : list (ascii * ascii)
}.

(** The constructs the two patterns of [parse_repo_url] are written with.
    In both patterns every repeated piece is a character class. *)
Inductive regex : Type :=
| Str (s : string)                          (* literal text, escapes resolved *)
| Cls (c : cls)                             (* one character of a class *)
| Cat (r1 r2 : regex)
| Cap (n : nat) (r : regex)                 (* n-th capturing group (...) *)
| Opt (r : regex)                           (* (?:r)?  greedy *)
| Star (greedy : bool) (c : cls)            (* c* (greedy) and c*? (lazy) *)
| Bol                                       (* ^ *)
| Eol.                                      (* $ *)

(** [c+] (greedy) and [c+?] (lazy) *)
Definition Plus (greedy : bool) (c : cls) : regex := Cat (Cls c) (Star greedy c).

Record mstate : Type := MState {
  pos : nat;                      (* characters consumed so far *)
  rest : list ascii;              (* text still ahead *)
  groups : list (nat * string)    (* captured groups, latest first *)
}.

Definition in_ranges (c : ascii) (rs : list (ascii * ascii)) : bool :=
  existsb (fun r => (code (fst r) <=? code c)%N && (code c <=? code (snd r))%N) rs.

Definition in_class (c : ascii) (cl : cls) : bool :=
  xorb (negated cl) (in_ranges c (ranges cl)).

Fixpoint strip_prefix (p l : list ascii) : option (list ascii) :=
  match p, l with
  | [], _ => Some l
  | a :: p', b :: l' => if Ascii.eqb a b then strip_prefix p' l' else None
  | _ :: _, [] => None
  end.

(** Backtracking matcher in continuation-passing style: [run r k st] tries
    the alternatives of [r] at [st] in the order of Python's engine and
    hands every way to match to [k] until [k] accepts one. *)
Fixpoint run (r : regex) (k : mstate -> option (list (nat * string)))
    (st : mstate) : option (list (nat * string)) :=
  match r with
  | Str s =>
      match strip_prefix (chars s) (rest st) with
      | Some l => k (MState (pos st + List.length (chars s)) l (groups st))
      | None => None
      end
  | Cls cl =>
      match rest st with
      | c :: l =>
          if in_class c cl
          then k (MState (S (pos st)) l (groups st))
          else None
      | [] => None
      end
  | Cat r1 r2 => run r1 (run r2 k) st
  | Cap n r' =>
      run r'
        (fun st' =>
           let text := str_of (firstn (pos st' - pos st) (rest st)) in
           k (MState (pos st') (rest st') ((n, text) :: groups st')))
        st
  | Opt r' =>
      match run r' k st with
      | Some g => Some g
      | None => k st
      end
  | Star greedy cl =>
      (fix loop (l : list ascii) (p : nat) {struct l} :=
         let here := MState p l (groups st) in
         match l with
         | c :: l' =>
             if in_class c cl then
               if greedy then
                 match loop l' (S p) with
                 | Some g => Some g
                 | None => k here
                 end
               else
                 match k here with
                 | Some g => Some g
                 | None => loop l' (S p)
                 end
             else k here
         | [] => k here
         end) (rest st) (pos st)
  | Bol => if (pos st =? 0)%nat then k st else None
  | Eol =>
      match rest st with
      | [] => k st
      | [c] => if Ascii.eqb c "010"%char then k st else None
      | _ => None
      end
  end.

(** [re.search]: the leftmost start position at which the pattern matches. *)
Fixpoint search_from (r : regex) (p : nat) (l : list ascii)
    : option (list (nat * string)) :=
  match run r (fun st => Some (groups st)) (MState p l []) with
  | Some g => Some g
  | None =>
      match l with
      | [] => None
      | _ :: l' => search_from r (S p) l'
      end
  end.

Definition search (r : regex) (s : string) : option (list (nat * string)) :=
  search_from r 0 (chars s).

(** [match.group(n)]; both patterns below keep their groups outside every
    optional part, so a successful match has set them. *)
Fixpoint group (n : nat) (g : list (nat * string)) : string :=
  match g with
  | [] => ""
  | (m, s) :: g' => if (m =? n)%nat then s else group n g'
  end.

End Re.

(* ===================================================================== *)
(** ** [parse_repo_url]  (api/v1/repo_stats.py) *)
(* ===================================================================== *)

Definition rng (a b : string) : ascii * ascii :=
  (match chars a with c :: _ => c | [] => zero end,
   match chars b with c :: _ => c | [] => zero end).
Definition one (a : string) : ascii * ascii := rng a a.

Definition alnum : list (ascii * ascii) := [rng "a" "z"; rng "A" "Z"; rng "0" "9"].

(** First pattern (tag 'url'), piece by piece:
      github\.com              literal text
      [:/]
      ( [^/]+ )                group 1, greedy
      /
      ( [^/]+? )               group 2, lazy
      (?: \.git )?             optional suffix
      $                        end of the text *)
Definition pattern_url : Re.regex :=
  Re.Cat (Re.Str "github.com")
 (Re.Cat (Re.Cls (Re.Class false [one ":"; one "/"]))
 (Re.Cat (Re.Cap 1 (Re.Plus true (Re.Class true [one "/"])))
 (Re.Cat (Re.Str "/")
 (Re.Cat (Re.Cap 2 (Re.Plus false (Re.Class true [one "/"])))
 (Re.Cat (Re.Opt (Re.Str ".git"))
          Re.Eol))))).

(** Second pattern (tag 'short'), piece by piece:
      ^                        start of the text
      ( [a-zA-Z0-9] [-a-zA-Z0-9]* )    group 1
      /
      ( [a-zA-Z0-9._-]+ )      group 2
      $                        end of the text *)
Definition pattern_short : Re.regex :=
  Re.Cat Re.Bol
 (Re.Cat (Re.Cap 1 (Re.Cat (Re.Cls (Re.Class false alnum))
                           (Re.Star true (Re.Class false (one "-" :: alnum)))))
 (Re.Cat (Re.Str "/")
 (Re.Cat (Re.Cap 2 (Re.Plus true
                      (Re.Class false (alnum ++ [one "."; one "_"; one "-"]))))
          Re.Eol))).

Definition patterns : list Re.regex := [pattern_url; pattern_short].

(** [repo_input.strip().rstrip('/').rstrip('.git')] *)
Definition normalize (repo_input : string) : string :=
  rstrip ".git" (rstrip "/" (strip repo_input)).

Definition invalid_format_message (repo_input : string) : string :=
  "Invalid repository format: '" ++ repo_input ++ "'. "
  ++ "Expected: 'owner/repo' or 'https://github.com/owner/repo'".

Fixpoint first_match (ps : list Re.regex) (repo_input : string)
    : result (string * string) :=
  match ps with
  | [] => Err (ValueError (invalid_format_message repo_input))
  | pattern :: ps' =>
      match Re.search pattern repo_input with
      | Some m => Ok (Re.group 1 m, Re.group 2 m)
      | None => first_match ps' repo_input
      end
  end.

Definition parse_repo_url (repo_input : string) : result (string * string) :=
  let repo_input := normalize repo_input in
  first_match patterns repo_input.


(* ===================================================================== *)
(** ** Python values decoded from JSON *)
(* ===================================================================== *)

(** What [response.json()] can yield: [None], [bool], [int], [str], [list]
    and [dict].  A [dict] keeps its keys in insertion order; non-integral
    numbers are not modelled. *)
#[warnings="-register-all"]
Inductive json : Type :=
| JNull
| JBool (b : bool)
| JNum (z : Z)
| JStr (s : string)
| JList (l : list json)
| JObj (kvs : list (string * json)).

(** [type(v).__name__] *)
Definition type_name (v : json) : string :=
  match v with
  | JNull => "NoneType"
  | JBool _ => "bool"
  | JNum _ => "int"
  | JStr _ => "str"
  | JList _ => "list"
  | JObj _ => "dict"
  end.

(** [bool(v)] *)
Definition truthy (v : json) : bool :=
  match v with
  | JNull => false
  | JBool b => b
  | JNum z => negb (z =? 0)
  | JStr s => negb (String.eqb s "")
  | JList l => match l with [] => false | _ => true end
  | JObj kvs => match kvs with [] => false | _ => true end
  end.

(** [isinstance(v, list)] *)
Definition is_list (v : json) : bool :=
  match v with JList _ => true | _ => false end.

(** [v is None] *)
Definition is_none (v : json) : bool :=
  match v with JNull => true | _ => false end.

(** [v == s] for a string literal [s] *)
Definition eq_str (v : json) (s : string) : bool :=
  match v with JStr t => String.eqb t s | _ => false end.

Fixpoint lookup (k : string) (kvs : list (string * json)) : option json :=
  match kvs with
  | [] => None
  | (k', v) :: kvs' => if String.eqb k' k then Some v else lookup k kvs'
  end.

(** [v.get(k, default)]; only a [dict] has the method. *)
Definition py_get (v : json) (k : string) (default : json) : result json :=
  match v with
  | JObj kvs => Ok (match lookup k kvs with Some x => x | None => default end)
  | _ => Err (AttributeError ("'" ++ type_name v ++ "' object has no attribute 'get'"))
  end.

(** [k in v]: key membership for a [dict], substring test for a [str],
    element test for a [list]. *)
Definition py_in (k : string) (v : json) : result bool :=
  match v with
  | JObj kvs => Ok (match lookup k kvs with Some _ => true | None => false end)
  | JStr s => Ok (str_contains k s)
  | JList l => Ok (existsb (fun x => eq_str x k) l)
  | _ => Err (TypeError ("argument of type '" ++ type_name v ++ "' is not iterable"))
  end.

(** [for x in v]: the elements of a [list], the keys of a [dict], the
    characters of a [str]. *)
Definition py_iter (v : json) : result (list json) :=
  match v with
  | JList l => Ok l
  | JObj kvs => Ok (map (fun kv => JStr (fst kv)) kvs)
  | JStr s => Ok (map (fun c => JStr (String c EmptyString)) (chars s))
  | _ => Err (TypeError ("'" ++ type_name v ++ "' object is not iterable"))
  end.

(** [len(v)] *)
Definition py_len (v : json) : result Z :=
  match v with
  | JList l => Ok (Z.of_nat (List.length l))
  | JObj kvs => Ok (Z.of_nat (List.length kvs))
  | JStr s => Ok (Z.of_nat (String.length s))
  | _ => Err (TypeError ("object of type '" ++ type_name v ++ "' has no len()"))
  end.

(** [acc + v] for an [int] accumulator *)
Definition py_add (acc : Z) (v : json) : result Z :=
  match v with
  | JNum z => Ok (acc + z)
  | JBool b => Ok (acc + (if b then 1 else 0))
  | _ => Err (TypeError ("unsupported operand type(s) for +: 'int' and '"
                         ++ type_name v ++ "'"))
  end.

(** [sum(f(x) for x in xs)]: the generator is consumed left to right, each
    term is computed and then added. *)
Fixpoint py_sum (f : json -> result json) (xs : list json) (acc : Z) : result Z :=
  match xs with
  | [] => Ok acc
  | x :: xs' =>
      v <- f x ;;
      acc' <- py_add acc v ;;
      py_sum f xs' acc'
  end.

(** [sum(1 for x in xs if p(x))] *)
Fixpoint py_count (p : json -> result bool) (xs : list json) (acc : Z) : result Z :=
  match xs with
  | [] => Ok acc
  | x :: xs' =>
      b <- p x ;;
      py_count p xs' (if b then acc + 1 else acc)
  end.

(** Reading a field of a result document in the statements below. *)
Definition field (k : string) (v : json) : option json :=
  match v with
  | JObj kvs => lookup k kvs
  | _ => None
  end.

(* ===================================================================== *)
(** ** Local calendar dates: [datetime.fromtimestamp(t).strftime("%Y-%m-%d")] *)
(* ===================================================================== *)

(** Month and day of the [doe]-th day of a 400-year era that starts on a
    1st of March, with the year of the era that the day falls in. *)
Definition civil_of_doe (doe : Z) : Z * Z * Z :=
  let yoe := (doe - doe / 1460 + doe / 36524 - doe / 146096) / 365 in
  let doy := doe - (365 * yoe + yoe / 4 - yoe / 100) in
  let mp := (5 * doy + 2) / 153 in
  let d := doy - (153 * mp + 2) / 5 + 1 in
  let m := if mp <? 10 then mp + 3 else mp - 9 in
  (if m <=? 2 then yoe + 1 else yoe, m, d).

(** Proleptic Gregorian date of a day number counted from 1970-01-01, the
    date the C library breaks an instant down to. *)
Definition civil_from_days (days : Z) : Z * Z * Z :=
  let z := days + 719468 in
  let era := z / 146097 in
  let doe := z mod 146097 in
  let '(y, m, d) := civil_of_doe doe in
  (y + era * 400, m, d).

Definition digit (n : Z) : ascii := ascii_of_N (48 + Z.to_N (n mod 10)).

Definition fmt2 (n : Z) : list ascii := [digit (n / 10); digit n].

(** Decimal text of an integer, as [str(n)] prints it.  A number has no
    more decimal digits than binary ones, which bounds the loop. *)
Fixpoint dec_digits (fuel : nat) (n : Z) (acc : list ascii) : list ascii :=
  match fuel with
  | O => acc
  | S fuel' =>
      if n <? 10 then digit n :: acc
      else dec_digits fuel' (n / 10) (digit n :: acc)
  end.

Definition str_of_Z (n : Z) : string :=
  if n <? 0 then str_of ("-"%char :: dec_digits (S (Z.to_nat (Z.log2 (- n)))) (- n) [])
  else str_of (dec_digits (S (Z.to_nat (Z.log2 n))) n []).

(** The calendar helpers of the [datetime] module: leap years, the days
    before a year and before a month, and the ordinal of a date, which is 1
    for 0001-01-01. *)
Definition is_leap (year : Z) : bool :=
  (year mod 4 =? 0) && (negb (year mod 100 =? 0) || (year mod 400 =? 0)).

Definition days_before_year (year : Z) : Z :=
  let y := year - 1 in
  y * 365 + y / 4 - y / 100 + y / 400.

Definition days_before_month (year month : Z) : Z :=
  nth (Z.to_nat month) [0; 0; 31; 59; 90; 120; 151; 181; 212; 243; 273; 304; 334] 0
  + (if (2 <? month) && is_leap year then 1 else 0).

Definition ymd_to_ord (year month day : Z) : Z :=
  days_before_year year + days_before_month year month + day.

(** A C [int] after an addition that leaves its range. *)
Definition wrap_int (n : Z) : Z := (n + 2147483648) mod 4294967296 - 2147483648.

(** [localtime_r] followed by [year = tm.tm_year + 1900]: year, month, day
    and second of the day of instant [t] on the local wall clock.
    [utcoffset t] is the offset from UTC, in seconds, that the time zone of
    the host, read from the zone database, has in force at instant [t].
    The C library refuses an instant whose local year less 1900 does not
    fit an [int].  (For a zone given by a rule text in [TZ] it refuses the
    instant as well when the year on UTC does not fit, which differs for
    less than a day, two thousand million years from now; the conversion
    fails on either side of it.) *)
Definition localtime (utcoffset : Z -> Z) (t : Z) : result (Z * Z * Z * Z) :=
  let wall := t + utcoffset t in
  let '(y, m, d) := civil_from_days (wall / 86400) in
  let tm_year := y - 1900 in
  if (tm_year <? -2147483648) || (2147483647 <? tm_year) then
    Err (OtherError "[Errno 75] Value too large for defined data type")
  else Ok (wrap_int (tm_year + 1900), m, d, wall mod 86400).

(** [utc_to_seconds]: the seconds a wall-clock reading lies after the start
    of ordinal 0; only the years 1 to 9999 are accepted. *)
Definition utc_to_seconds (year month day second_of_day : Z) : result Z :=
  if (year <? 1) || (9999 <? year) then
    Err (ValueError ("year " ++ str_of_Z year ++ " is out of range"))
  else Ok (ymd_to_ord year month day * 86400 + second_of_day).

(** [local]: the wall-clock reading of an instant, in seconds. *)
Definition local (utcoffset : Z -> Z) (t : Z) : result Z :=
  '(y, m, d, sod) <- localtime utcoffset t ;;
  utc_to_seconds y m d sod.

Definition max_fold_seconds : Z := 24 * 3600.

(** [datetime.fromtimestamp(t)], reduced to the calendar date of its
    result.  The argument must be an integer that fits [time_t]; it is
    broken down on the local wall clock; and, to tell a repeated hour, the
    wall clock is read again one day earlier and, when the offset shrank in
    between, once more at the transition.  Each reading has to fall in the
    years 1 to 9999. *)
Definition fromtimestamp (utcoffset : Z -> Z) (t : json) : result (Z * Z * Z) :=
  match t with
  | JNum _ | JBool _ =>
      let timet := match t with JNum z => z | JBool true => 1 | _ => 0 end in
      if (timet <? -9223372036854775808) || (9223372036854775807 <? timet) then
        Err (OtherError "timestamp out of range for platform time_t")
      else
        '(y, m, d, sod) <- localtime utcoffset timet ;;
        result_seconds <- utc_to_seconds y m d sod ;;
        probe_seconds <- local utcoffset (timet - max_fold_seconds) ;;
        let transition := result_seconds - probe_seconds - max_fold_seconds in
        _ <- (if transition <? 0 then local utcoffset (timet + transition)
              else Ok probe_seconds) ;;
        Ok (y, m, d)
  | _ => Err (TypeError ("'" ++ type_name t
                         ++ "' object cannot be interpreted as an integer"))
  end.

(** [.strftime("%Y-%m-%d")] as the C library of the host prints it: the
    year in decimal, without padding, then month and day in two digits. *)
Definition strftime_ymd (date : Z * Z * Z) : string :=
  let '(y, m, d) := date in
  str_of (chars (str_of_Z y) ++ "-"%char :: fmt2 m ++ "-"%char :: fmt2 d).


(* ===================================================================== *)
(** ** The upstream API and [_make_request]  (services/github/repo_stats.py) *)
(* ===================================================================== *)

(** What one [session.get(url, params=params)] can come to. *)
Inductive http_outcome : Type :=
| Response (status : Z) (body : result json)   (* [body] is [await response.json()] *)
| TimeoutError                                 (* [asyncio.TimeoutError] *)
| ClientError (msg : string).                  (* any other exception *)

(** The open session: every GET is answered by the upstream API. *)
Definition session : Type := string -> option (list (string * json)) -> http_outcome.

Definition base_url : string := "https://api.github.com".

(** [None] is [JNull]. *)
Definition _make_request (s : session) (url : string)
    (params : option (list (string * json))) : json :=
  match s url params with
  | Response status body =>
      if status =? 200 then
        match body with
        | Ok v => v
        | Err _ => JNull          (* [except Exception] *)
        end
      else if status =? 404 then JNull
      else if status =? 403 then JNull
      else JNull
  | TimeoutError => JNull
  | ClientError _ => JNull
  end.

(* --------------------------------------------------------------------- *)
(** *** [get_repo_info] *)

Definition repo_info_url (owner repo : string) : string :=
  base_url ++ "/repos/" ++ owner ++ "/" ++ repo.

Definition get_repo_info (s : session) (owner repo : string) : result json :=
  let url := repo_info_url owner repo in
  Ok (_make_request s url None).

(* --------------------------------------------------------------------- *)
(** *** [get_contributors] *)

Definition contributors_url (owner repo : string) : string :=
  base_url ++ "/repos/" ++ owner ++ "/" ++ repo ++ "/contributors".

Definition contributor_entry (c : json) : result json :=
  login <- py_get c "login" JNull ;;
  avatar_url <- py_get c "avatar_url" JNull ;;
  profile_url <- py_get c "html_url" JNull ;;
  contributions <- py_get c "contributions" (JNum 0) ;;
  type <- py_get c "type" (JStr "User") ;;
  Ok (JObj [("login", login);
            ("avatar_url", avatar_url);
            ("profile_url", profile_url);
            ("contributions", contributions);
            ("type", type)]).

Definition get_contributors (s : session) (owner repo : string)
    (max_contributors : Z) : result json :=
  let url := contributors_url owner repo in
  let params := [("per_page", JNum max_contributors); ("anon", JStr "false")] in
  let contributors := _make_request s url (Some params) in
  if truthy contributors && is_list contributors then
    cs <- py_iter contributors ;;
    out <- mapM contributor_entry cs ;;
    Ok (JList out)
  else Ok (JList []).

(* --------------------------------------------------------------------- *)
(** *** [get_pull_requests] *)

Definition pulls_url (owner repo : string) : string :=
  base_url ++ "/repos/" ++ owner ++ "/" ++ repo ++ "/pulls".

Definition list_params (state : string) (per_page : Z) : list (string * json) :=
  [("state", JStr state); ("per_page", JNum per_page);
   ("sort", JStr "updated"); ("direction", JStr "desc")].

(** [{"login": x.get("user", {}).get("login"), ...}] *)
Definition author_of (x : json) : result json :=
  u1 <- py_get x "user" (JObj []) ;;
  login <- py_get u1 "login" JNull ;;
  u2 <- py_get x "user" (JObj []) ;;
  avatar_url <- py_get u2 "avatar_url" JNull ;;
  u3 <- py_get x "user" (JObj []) ;;
  profile_url <- py_get u3 "html_url" JNull ;;
  Ok (JObj [("login", login);
            ("avatar_url", avatar_url);
            ("profile_url", profile_url)]).

(** [[label.get("name") for label in x.get("labels", [])]] *)
Definition labels_of (x : json) : result json :=
  ls <- py_get x "labels" (JList []) ;;
  items <- py_iter ls ;;
  names <- mapM (fun label => py_get label "name" JNull) items ;;
  Ok (JList names).

(** The counters and the detail list the loop of [get_pull_requests]
    updates. *)
Record pr_acc : Type := PrAcc {
  open_count : Z;
  closed_count : Z;
  merged_count : Z;
  details : list json
}.

(** The branch of the loop body that picks the display state and bumps one
    counter. *)
Definition classify (pr_state : json) (is_merged : bool) (acc : pr_acc)
    : pr_acc * string :=
  if eq_str pr_state "open" then
    (PrAcc (open_count acc + 1) (closed_count acc) (merged_count acc) (details acc),
     "open")
  else if is_merged then
    (PrAcc (open_count acc) (closed_count acc) (merged_count acc + 1) (details acc),
     "merged")
  else
    (PrAcc (open_count acc) (closed_count acc + 1) (merged_count acc) (details acc),
     "closed").

(** The dictionary appended to [details]. *)
Definition pr_detail (pr : json) (display_state : string) : result json :=
  number <- py_get pr "number" JNull ;;
  title <- py_get pr "title" JNull ;;
  url <- py_get pr "html_url" JNull ;;
  created_at <- py_get pr "created_at" JNull ;;
  updated_at <- py_get pr "updated_at" JNull ;;
  author <- author_of pr ;;
  labels <- labels_of pr ;;
  comments <- py_get pr "comments" (JNum 0) ;;
  draft <- py_get pr "draft" (JBool false) ;;
  Ok (JObj [("number", number);
            ("title", title);
            ("state", JStr display_state);
            ("url", url);
            ("created_at", created_at);
            ("updated_at", updated_at);
            ("author", author);
            ("labels", labels);
            ("comments", comments);
            ("draft", draft)]).

(** One iteration of [for pr in prs]. *)
Definition pr_step (pr : json) (acc : pr_acc) : result pr_acc :=
  pr_state <- py_get pr "state" (JStr "open") ;;
  merged_at <- py_get pr "merged_at" JNull ;;
  let is_merged := negb (is_none merged_at) in
  let '(acc, display_state) := classify pr_state is_merged acc in
  d <- pr_detail pr display_state ;;
  Ok (PrAcc (open_count acc) (closed_count acc) (merged_count acc)
            (details acc ++ [d])).

Fixpoint pr_loop (prs : list json) (acc : pr_acc) : result pr_acc :=
  match prs with
  | [] => Ok acc
  | pr :: prs' =>
      acc' <- pr_step pr acc ;;
      pr_loop prs' acc'
  end.

Definition pr_stats (open closed merged total : Z) (details : list json) : json :=
  JObj [("open", JNum open);
        ("closed", JNum closed);
        ("merged", JNum merged);
        ("total", JNum total);
        ("details", JList details)].

Definition get_pull_requests (s : session) (owner repo : string)
    (state : string) (max_prs : Z) : result json :=
  let url := pulls_url owner repo in
  let params := list_params state max_prs in
  let prs := _make_request s url (Some params) in
  if negb (truthy prs) || negb (is_list prs) then
    Ok (pr_stats 0 0 0 0 [])
  else
    items <- py_iter prs ;;
    acc <- pr_loop items (PrAcc 0 0 0 []) ;;
    n <- py_len prs ;;
    Ok (pr_stats (open_count acc) (closed_count acc) (merged_count acc) n
                 (details acc)).

(* --------------------------------------------------------------------- *)
(** *** [get_issues] *)

Definition issues_url (owner repo : string) : string :=
  base_url ++ "/repos/" ++ owner ++ "/" ++ repo ++ "/issues".

(** ["pull_request" not in i] *)
Definition not_pull_request (i : json) : result bool :=
  b <- py_in "pull_request" i ;;
  Ok (negb b).

(** [i.get("state") == st] *)
Definition state_is (st : string) (i : json) : result bool :=
  v <- py_get i "state" JNull ;;
  Ok (eq_str v st).

Definition issue_detail (i : json) : result json :=
  number <- py_get i "number" JNull ;;
  title <- py_get i "title" JNull ;;
  state <- py_get i "state" JNull ;;
  url <- py_get i "html_url" JNull ;;
  created_at <- py_get i "created_at" JNull ;;
  author <- author_of i ;;
  labels <- labels_of i ;;
  comments <- py_get i "comments" (JNum 0) ;;
  Ok (JObj [("number", number);
            ("title", title);
            ("state", state);
            ("url", url);
            ("created_at", created_at);
            ("author", author);
            ("labels", labels);
            ("comments", comments)]).

Definition issue_stats (open closed total : Z) (details : list json) : json :=
  JObj [("open", JNum open);
        ("closed", JNum closed);
        ("total", JNum total);
        ("details", JList details)].

Definition get_issues (s : session) (owner repo : string)
    (state : string) (max_issues : Z) : result json :=
  let url := issues_url owner repo in
  let params := list_params state max_issues in
  let issues := _make_request s url (Some params) in
  if negb (truthy issues) || negb (is_list issues) then
    Ok (issue_stats 0 0 0 [])
  else
    items <- py_iter issues ;;
    actual_issues <- filterM not_pull_request items ;;
    open_count <- py_count (state_is "open") actual_issues 0 ;;
    closed_count <- py_count (state_is "closed") actual_issues 0 ;;
    details <- mapM issue_detail actual_issues ;;
    Ok (issue_stats open_count closed_count
                    (Z.of_nat (List.length actual_issues)) details).

(* --------------------------------------------------------------------- *)
(** *** [get_commit_activity] *)

Definition commit_activity_url (owner repo : string) : string :=
  base_url ++ "/repos/" ++ owner ++ "/" ++ repo ++ "/stats/commit_activity".

Definition week_entry (utcoffset : Z -> Z) (week : json) : result json :=
  t <- py_get week "week" (JNum 0) ;;
  date <- fromtimestamp utcoffset t ;;
  total <- py_get week "total" (JNum 0) ;;
  days <- py_get week "days" (JList (repeat (JNum 0) 7)) ;;
  Ok (JObj [("week", JStr (strftime_ymd date));
            ("total", total);
            ("days", days)]).

(** [activity[-12:] if len(activity) > 12 else activity] *)
Definition recent_weeks (activity : list json) : list json :=
  if (12 <? List.length activity)%nat
  then skipn (List.length activity - 12) activity
  else activity.

Definition get_commit_activity (utcoffset : Z -> Z) (s : session)
    (owner repo : string) : result json :=
  let url := commit_activity_url owner repo in
  let activity := _make_request s url None in
  if truthy activity && is_list activity then
    items <- py_iter activity ;;
    let recent_activity := recent_weeks items in
    out <- mapM (week_entry utcoffset) recent_activity ;;
    Ok (JList out)
  else Ok (JList []).

(* --------------------------------------------------------------------- *)
(** *** [get_languages] and [get_releases] *)

Definition languages_url (owner repo : string) : string :=
  base_url ++ "/repos/" ++ owner ++ "/" ++ repo ++ "/languages".

Definition get_languages (s : session) (owner repo : string) : result json :=
  let url := languages_url owner repo in
  let languages := _make_request s url None in
  Ok (if truthy languages then languages else JObj []).

Definition releases_url (owner repo : string) : string :=
  base_url ++ "/repos/" ++ owner ++ "/" ++ repo ++ "/releases".

Definition release_entry (r : json) : result json :=
  tag_name <- py_get r "tag_name" JNull ;;
  name <- py_get r "name" JNull ;;
  published_at <- py_get r "published_at" JNull ;;
  url <- py_get r "html_url" JNull ;;
  prerelease <- py_get r "prerelease" (JBool false) ;;
  Ok (JObj [("tag_name", tag_name);
            ("name", name);
            ("published_at", published_at);
            ("url", url);
            ("prerelease", prerelease)]).

Definition get_releases (s : session) (owner repo : string)
    (max_releases : Z) : result json :=
  let url := releases_url owner repo in
  let params := [("per_page", JNum max_releases)] in
  let releases := _make_request s url (Some params) in
  if truthy releases && is_list releases then
    rs <- py_iter releases ;;
    out <- mapM release_entry rs ;;
    Ok (JList out)
  else Ok (JList []).

(* --------------------------------------------------------------------- *)
(** *** [get_comprehensive_stats] *)

(** What [asyncio.gather(..., return_exceptions=True)] hands back: for each
    of the seven fetches its value, or the exception it raised. *)
Record gathered : Type := Gathered {
  g_repo_info : result json;
  g_contributors : result json;
  g_pull_requests : result json;
  g_issues : result json;
  g_commit_activity : result json;
  g_languages : result json;
  g_releases : result json
}.

(** The seven fetches, called with their default arguments. *)
Definition gather (utcoffset : Z -> Z) (s : session) (owner repo : string)
    : gathered :=
  Gathered (get_repo_info s owner repo)
           (get_contributors s owner repo 30)
           (get_pull_requests s owner repo "all" 50)
           (get_issues s owner repo "all" 50)
           (get_commit_activity utcoffset s owner repo)
           (get_languages s owner repo)
           (get_releases s owner repo 10).

(** [if isinstance(x, Exception): x = default] *)
Definition or_default (x : result json) (default : json) : json :=
  match x with
  | Ok v => v
  | Err _ => default
  end.

Definition not_found_message (owner repo : string) : string :=
  "Repository " ++ owner ++ "/" ++ repo ++ " not found".

(** [repo_info.get("license", {}).get("name") if repo_info.get("license") else None] *)
Definition license_name (repo_info : json) : result json :=
  l <- py_get repo_info "license" JNull ;;
  if truthy l then
    l' <- py_get repo_info "license" (JObj []) ;;
    py_get l' "name" JNull
  else Ok JNull.

Definition repository_section (repo_info : json) : result json :=
  name <- py_get repo_info "name" JNull ;;
  full_name <- py_get repo_info "full_name" JNull ;;
  description <- py_get repo_info "description" JNull ;;
  url <- py_get repo_info "html_url" JNull ;;
  stars <- py_get repo_info "stargazers_count" (JNum 0) ;;
  forks <- py_get repo_info "forks_count" (JNum 0) ;;
  watchers <- py_get repo_info "watchers_count" (JNum 0) ;;
  open_issues_count <- py_get repo_info "open_issues_count" (JNum 0) ;;
  default_branch <- py_get repo_info "default_branch" JNull ;;
  created_at <- py_get repo_info "created_at" JNull ;;
  updated_at <- py_get repo_info "updated_at" JNull ;;
  pushed_at <- py_get repo_info "pushed_at" JNull ;;
  topics <- py_get repo_info "topics" (JList []) ;;
  license <- license_name repo_info ;;
  Ok (JObj [("name", name);
            ("full_name", full_name);
            ("description", description);
            ("url", url);
            ("stars", stars);
            ("forks", forks);
            ("watchers", watchers);
            ("open_issues_count", open_issues_count);
            ("default_branch", default_branch);
            ("created_at", created_at);
            ("updated_at", updated_at);
            ("pushed_at", pushed_at);
            ("topics", topics);
            ("license", license)]).

Definition metrics_section (repo_info contributors pull_requests issues : json)
    (total_commits : Z) : result json :=
  total_contributors <- py_len contributors ;;
  stars <- py_get repo_info "stargazers_count" (JNum 0) ;;
  forks <- py_get repo_info "forks_count" (JNum 0) ;;
  open_prs <- py_get pull_requests "open" (JNum 0) ;;
  open_issues <- py_get issues "open" (JNum 0) ;;
  Ok (JObj [("total_contributors", JNum total_contributors);
            ("total_commits_recent", JNum total_commits);
            ("stars", stars);
            ("forks", forks);
            ("open_prs", open_prs);
            ("open_issues", open_issues)]).

(** [sum(week.get("total", 0) for week in commit_activity) if commit_activity else 0] *)
Definition total_commits_of (commit_activity : json) : result Z :=
  if truthy commit_activity then
    weeks <- py_iter commit_activity ;;
    py_sum (fun week => py_get week "total" (JNum 0)) weeks 0
  else Ok 0.

(** Everything [get_comprehensive_stats] does once [gather] has returned. *)
Definition assemble (owner repo : string) (g : gathered) : result json :=
  let repo_info := or_default (g_repo_info g) JNull in
  let contributors := or_default (g_contributors g) (JList []) in
  let pull_requests := or_default (g_pull_requests g) (pr_stats 0 0 0 0 []) in
  let issues := or_default (g_issues g) (issue_stats 0 0 0 []) in
  let commit_activity := or_default (g_commit_activity g) (JList []) in
  let languages := or_default (g_languages g) (JObj []) in
  let releases := or_default (g_releases g) (JList []) in
  if negb (truthy repo_info) then
    Err (ValueError (not_found_message owner repo))
  else
    total_commits <- total_commits_of commit_activity ;;
    repository <- repository_section repo_info ;;
    metrics <- metrics_section repo_info contributors pull_requests issues
                               total_commits ;;
    Ok (JObj [("status", JStr "success");
              ("repo", JStr (owner ++ "/" ++ repo));
              ("repository", repository);
              ("contributors", contributors);
              ("pull_requests", pull_requests);
              ("issues", issues);
              ("commit_activity", commit_activity);
              ("languages", languages);
              ("releases", releases);
              ("metrics", metrics)]).

(** The [except Exception] clause at the end only logs and re-raises. *)
Definition get_comprehensive_stats (utcoffset : Z -> Z) (s : session)
    (owner repo : string) : result json :=
  assemble owner repo (gather utcoffset s owner repo).

(* ===================================================================== *)
(** ** [analyze_repository]  (api/v1/repo_stats.py) *)
(* ===================================================================== *)

(** The part of [app.core.config.settings] the service reads. *)
Record settings : Type := Settings {
  github_token : option string
}.

(** [GitHubRepoStatsService.__init__] *)
Definition service_init (cfg : settings) : result unit :=
  match github_token cfg with
  | None | Some EmptyString =>
      Err (ValueError "GitHub token not configured in environment variables")
  | Some _ => Ok tt
  end.

(** The body of the outer [try]. *)
Definition analyze_body (cfg : settings) (utcoffset : Z -> Z) (s : session)
    (repo_url : string) : result json :=
  '(owner, repo) <-
     match parse_repo_url repo_url with
     | Err (ValueError m) => Err (HTTPException 400 m)
     | r => r
     end ;;
  _ <- service_init cfg ;;
  get_comprehensive_stats utcoffset s owner repo.

(** The handler either returns the document or raises an [HTTPException]. *)
Definition analyze_repository (cfg : settings) (utcoffset : Z -> Z) (s : session)
    (repo_url : string) : result json :=
  match analyze_body cfg utcoffset s repo_url with
  | Ok r => Ok r
  | Err (HTTPException c d) => Err (HTTPException c d)
  | Err (ValueError m) => Err (HTTPException 404 m)
  | Err e => Err (HTTPException 500 ("Failed to analyze repository: " ++ exn_str e))
  end.

(* ===================================================================== *)
(** * Notions used in the statements *)
(* ===================================================================== *)

(** Whether the item carries a merge timestamp: the key [merged_at] with a
    value other than [None]. *)
Definition merge_timestamp_present (kvs : list (string * json)) : bool :=
  match lookup "merged_at" kvs with
  | Some v => negb (is_none v)
  | None => false
  end.

(** The classification in the words of the specification: [open] when the
    raw state field equals "open", otherwise [merged] when a merge timestamp
    is present, otherwise [closed]. *)
Definition claimed_display_state (kvs : list (string * json)) : string :=
  match lookup "state" kvs with
  | Some (JStr "open") => "open"
  | _ => if merge_timestamp_present kvs then "merged" else "closed"
  end.

(** The same classification, with an item that has no state field counted
    as [open]. *)
Definition display_state_of (kvs : list (string * json)) : string :=
  match lookup "state" kvs with
  | None => "open"
  | Some v =>
      if eq_str v "open" then "open"
      else if merge_timestamp_present kvs then "merged" else "closed"
  end.

(** The items of a payload: those of a list, none otherwise. *)
Definition payload_items (payload : json) : list json :=
  match payload with
  | JList l => l
  | _ => []
  end.

Definition is_object (v : json) : bool :=
  match v with JObj _ => true | _ => false end.

(** The item carries the pull-request linkage field. *)
Definition has_linkage (i : json) : bool :=
  match field "pull_request" i with Some _ => true | None => false end.

(** The items that are issues proper. *)
Definition genuine_issues (items : list json) : list json :=
  filter (fun i => negb (has_linkage i)) items.

(** How many of the items have the given state. *)
Definition count_state (st : string) (items : list json) : Z :=
  Z.of_nat (List.length
    (filter (fun i => match field "state" i with
                      | Some v => eq_str v st
                      | None => false
                      end) items)).

Definition is_digit (c : ascii) : bool :=
  ((48 <=? code c) && (code c <=? 57))%N.

Definition digit_val (c : ascii) : Z := Z.of_N (code c) - 48.

(** The text has the form YYYY-MM-DD, with a month from 01 to 12 and a day
    from 01 to 31. *)
Definition is_ymd (s : string) : bool :=
  match chars s with
  | [y1; y2; y3; y4; h1; m1; m2; h2; d1; d2] =>
      forallb is_digit [y1; y2; y3; y4; m1; m2; d1; d2]
      && Ascii.eqb h1 "-" && Ascii.eqb h2 "-"
      && (let m := 10 * digit_val m1 + digit_val m2 in (1 <=? m) && (m <=? 12))
      && (let d := 10 * digit_val d1 + digit_val d2 in (1 <=? d) && (d <=? 31))
  | _ => false
  end.

(** The integers [lo], [lo + 1], ..., [lo + k - 1]. *)
Fixpoint zrange (lo : Z) (k : nat) : list Z :=
  match k with
  | O => []
  | S k' => lo :: zrange (lo + 1) k'
  end.

(** The number of days of a month. *)
Definition days_in_month (year month : Z) : Z :=
  nth (Z.to_nat month) [0; 31; 28; 31; 30; 31; 30; 31; 31; 30; 31; 30; 31] 0
  + (if (month =? 2) && is_leap year then 1 else 0).

(** A date of the calendar. *)
Definition valid_date (date : Z * Z * Z) : bool :=
  let '(y, m, d) := date in
  (1 <=? m) && (m <=? 12) && (1 <=? d) && (d <=? days_in_month y m).

(** The days from 1970-01-01 to a date. *)
Definition days_since_epoch (date : Z * Z * Z) : Z :=
  let '(y, m, d) := date in
  ymd_to_ord y m d - ymd_to_ord 1970 1 1.

(** The timestamp a weekly bucket carries, in seconds: its [week] field, 0
    when the field is missing, with [true] and [false] counting as 1 and
    0. *)
Definition epoch_of (week : json) : option Z :=
  match py_get week "week" (JNum 0) with
  | Ok (JNum z) => Some z
  | Ok (JBool b) => Some (if b then 1 else 0)
  | _ => None
  end.

(** The pieces of a text between separators. *)
Fixpoint fields (sep : ascii) (l : list ascii) : list (list ascii) :=
  match l with
  | [] => [[]]
  | c :: l' =>
      if Ascii.eqb c sep then [] :: fields sep l'
      else match fields sep l' with
           | f :: fs => (c :: f) :: fs
           | [] => [[c]]
           end
  end.

(** The number a non-empty run of decimal digits denotes. *)
Definition read_number (l : list ascii) : option Z :=
  match l with
  | [] => None
  | _ :: _ =>
      if forallb is_digit l
      then Some (fold_left (fun n c => 10 * n + digit_val c) l 0)
      else None
  end.

(** Reading a date text back: a year, a two-digit month and a two-digit
    day, separated by hyphens. *)
Definition read_date (s : string) : option (Z * Z * Z) :=
  match fields "-" (chars s) with
  | [ys; [m1; m2]; [d1; d2]] =>
      match read_number ys, read_number [m1; m2], read_number [d1; d2] with
      | Some y, Some m, Some d => Some (y, m, d)
      | _, _, _ => None
      end
  | _ => None
  end.

(** The wall-clock reading 1000-01-01 00:00:00, in seconds from
    1970-01-01 00:00:00: the first one whose year has four digits. *)
Definition year_1000 : Z := -30610224000.

(** The seven categories of the fan-out. *)
Inductive category : Type :=
| RepoInfo | Contributors | PullRequests | Issues
| CommitActivity | Languages | Releases.

(** The same fan-out result with the outcome of one category replaced. *)
Definition set_outcome (c : category) (x : result json) (g : gathered) : gathered :=
  match c with
  | RepoInfo =>
      Gathered x (g_contributors g) (g_pull_requests g) (g_issues g)
               (g_commit_activity g) (g_languages g) (g_releases g)
  | Contributors =>
      Gathered (g_repo_info g) x (g_pull_requests g) (g_issues g)
               (g_commit_activity g) (g_languages g) (g_releases g)
  | PullRequests =>
      Gathered (g_repo_info g) (g_contributors g) x (g_issues g)
               (g_commit_activity g) (g_languages g) (g_releases g)
  | Issues =>
      Gathered (g_repo_info g) (g_contributors g) (g_pull_requests g) x
               (g_commit_activity g) (g_languages g) (g_releases g)
  | CommitActivity =>
      Gathered (g_repo_info g) (g_contributors g) (g_pull_requests g) (g_issues g)
               x (g_languages g) (g_releases g)
  | Languages =>
      Gathered (g_repo_info g) (g_contributors g) (g_pull_requests g) (g_issues g)
               (g_commit_activity g) x (g_releases g)
  | Releases =>
      Gathered (g_repo_info g) (g_contributors g) (g_pull_requests g) (g_issues g)
               (g_commit_activity g) (g_languages g) x
  end.

(** What each category falls back to. *)
Definition empty_default (c : category) : json :=
  match c with
  | RepoInfo => JNull
  | Contributors => JList []
  | PullRequests => pr_stats 0 0 0 0 []
  | Issues => issue_stats 0 0 0 []
  | CommitActivity => JList []
  | Languages => JObj []
  | Releases => JList []
  end.

(** The key under which the envelope carries each category. *)
Definition section_key (c : category) : string :=
  match c with
  | RepoInfo => "repository"
  | Contributors => "contributors"
  | PullRequests => "pull_requests"
  | Issues => "issues"
  | CommitActivity => "commit_activity"
  | Languages => "languages"
  | Releases => "releases"
  end.

(** A category fetch that failed: it raised, or it came back with its empty
    result. *)
Definition absent (c : category) (x : result json) : Prop :=
  (exists e, x = Err e) \/ x = Ok (empty_default c).

(** The [total] of a retained week as [sum] adds it up: an integer, with a
    boolean counting as 0 or 1; a week without the field adds nothing. *)
Definition total_of (week : json) : Z :=
  match field "total" week with
  | Some (JNum z) => z
  | Some (JBool true) => 1
  | _ => 0
  end.

Definition sum_totals (weeks : list json) : Z :=
  fold_right (fun week acc => total_of week + acc) 0 weeks.

(** The exceptions that operations on ill-shaped payloads raise. *)
Definition runtime_error (e : exn) : Prop :=
  exists m, e = TypeError m \/ e = AttributeError m.

(** The last character of the text, if any, satisfies [p]. *)
Definition last_char_is (p : ascii -> bool) (s : string) : bool :=
  match rev (chars s) with
  | c :: _ => p c
  | [] => false
  end.

(** The text ends neither in white space nor in a slash. *)
Definition ends_clean (s : string) : bool :=
  negb (last_char_is (fun c => isspace c || Ascii.eqb c "/") s).

(** What it means for a pattern to match between two states of the
    matcher, read off the pattern and not off the search: the text consumed,
    the position reached and the groups recorded. *)
Fixpoint matches (r : Re.regex) (st st' : Re.mstate) : Prop :=
  match r with
  | Re.Str s =>
      Re.rest st = (chars s ++ Re.rest st')%list /\
      Re.pos st' = (Re.pos st + List.length (chars s))%nat /\
      Re.groups st' = Re.groups st
  | Re.Cls cl =>
      exists c,
        Re.rest st = c :: Re.rest st' /\ Re.in_class c cl = true /\
        Re.pos st' = S (Re.pos st) /\ Re.groups st' = Re.groups st
  | Re.Cat r1 r2 => exists mid, matches r1 st mid /\ matches r2 mid st'
  | Re.Cap n r' =>
      exists inner,
        matches r' st inner /\
        st' = Re.MState (Re.pos inner) (Re.rest inner)
                ((n, str_of (firstn (Re.pos inner - Re.pos st) (Re.rest st)))
                   :: Re.groups inner)
  | Re.Opt r' => matches r' st st' \/ st' = st
  | Re.Star _ cl =>
      exists w,
        Re.rest st = (w ++ Re.rest st')%list /\
        forallb (fun c => Re.in_class c cl) w = true /\
        Re.pos st' = (Re.pos st + List.length w)%nat /\
        Re.groups st' = Re.groups st
  | Re.Bol => Re.pos st = 0%nat /\ st' = st
  | Re.Eol => (Re.rest st = [] \/ Re.rest st = ["010"%char]) /\ st' = st
  end.

(** The classes of the two patterns. *)
Definition not_slash : Re.cls := Re.Class true [one "/"].
Definition owner_head : Re.cls := Re.Class false alnum.
Definition owner_tail : Re.cls := Re.Class false (one "-" :: alnum).
Definition repo_class : Re.cls := Re.Class false (alnum ++ [one "."; one "_"; one "-"]).

(** The text made of one line feed. *)
Definition newline : string := String "010"%char EmptyString.

(** ASCII letters and digits; the characters an owner may hold; the
    characters a repository name may hold in the shorthand. *)
Definition is_alnum (c : ascii) : bool :=
  let n := code c in
  ((97 <=? n) && (n <=? 122) || (65 <=? n) && (n <=? 90)
   || (48 <=? n) && (n <=? 57))%N.

Definition owner_char (c : ascii) : bool :=
  is_alnum c || Ascii.eqb c "-".

Definition repo_char (c : ascii) : bool :=
  is_alnum c || Ascii.eqb c "." || Ascii.eqb c "_" || Ascii.eqb c "-".

(** The value stored under a key, or a default. *)
Definition lookup_or (k : string) (kvs : list (string * json)) (default : json) : json :=
  match lookup k kvs with
  | Some v => v
  | None => default
  end.

(** The display state of a pull-request item; an item that is no object has
    none. *)
Definition display_state_item (pr : json) : string :=
  match pr with
  | JObj kvs => display_state_of kvs
  | _ => ""
  end.

(** How many of the items have the given display state. *)
Definition count_display (st : string) (items : list json) : Z :=
  Z.of_nat (List.length
    (filter (fun pr => String.eqb (display_state_item pr) st) items)).

(** The [total] of a week is something [sum] can add: an integer or a
    boolean, or nothing at all. *)
Definition numeric_total (week : json) : bool :=
  match field "total" week with
  | Some (JNum _) | Some (JBool _) | None => true
  | Some _ => false
  end.

(** The license entry of a repository payload is one the aggregation can
    read: missing, falsy, or an object. *)
Definition license_ok (kvs : list (string * json)) : bool :=
  match lookup "license" kvs with
  | None => true
  | Some l => negb (truthy l) || is_object l
  end.

(** One of the characters that [rstrip('.git')] removes. *)
Definition git_letter (c : ascii) : bool := mem_ascii c (chars ".git").

(** A path segment: a text that is not empty and holds no slash. *)
Definition segment (t : string) : bool :=
  negb (String.eqb t "") && forallb (fun c => negb (Ascii.eqb c "/")) (chars t).

(** An occurrence of [pat] in [pre ++ pat] starts inside [pre]. *)
Fixpoint starts_within (pat pre : list ascii) : bool :=
  match pre with
  | [] => false
  | _ :: pre' => is_prefix pat (pre ++ pat) || starts_within pat pre'
  end.

(** An owner as the shorthand accepts it: a letter or digit followed by
    letters, digits and hyphens. *)
Definition valid_owner (t : string) : bool :=
  match chars t with
  | c :: w => is_alnum c && forallb owner_char w
  | [] => false
  end.

(** A repository name as the shorthand accepts it: not empty, made of
    letters, digits, dots, underscores and hyphens. *)
Definition valid_repo (t : string) : bool :=
  negb (String.eqb t "") && forallb repo_char (chars t).

(** The first character of the text, if any, satisfies [p]. *)
Definition first_char_is (p : ascii -> bool) (s : string) : bool :=
  match chars s with
  | c :: _ => p c
  | [] => false
  end.

(** A value the label comprehension accepts: a list of objects, or an
    empty dictionary or text, which it loops over without a step. *)
Definition labels_ok (v : json) : bool :=
  match v with
  | JList l => forallb is_object l
  | JObj [] => true
  | JStr EmptyString => true
  | _ => false
  end.

(** An item a detail entry can be built from: an object whose [user], if
    present, is an object, and whose [labels], if present, are accepted. *)
Definition detail_ready (x : json) : bool :=
  match x with
  | JObj kvs =>
      is_object (lookup_or "user" kvs (JObj []))
      && labels_ok (lookup_or "labels" kvs (JList []))
  | _ => false
  end.

(** An item of the issues payload that does no harm: one the linkage test
    sets aside, or one it keeps and a detail entry can be built from. *)
Definition issue_ready (x : json) : bool :=
  match py_in "pull_request" x with
  | Ok true => true
  | Ok false => detail_ready x
  | Err _ => false
  end.

(* ===================================================================== *)
(** * A worked request *)
(* ===================================================================== *)

(** An upstream that answers the listed URLs and has nothing else. *)
Fixpoint route (url : string) (routes : list (string * http_outcome)) : http_outcome :=
  match routes with
  | [] => Response 404 (Ok (JObj [("message", JStr "Not Found")]))
  | (u, o) :: routes' => if String.eqb u url then o else route url routes'
  end.

Definition serve (routes : list (string * http_outcome)) : session :=
  fun url _ => route url routes.

Definition utc : Z -> Z := fun _ => 0.

Definition sample_repo_info : json :=
  JObj [("name", JStr "Hello-World");
        ("full_name", JStr "octocat/Hello-World");
        ("description", JStr "My first repository on GitHub!");
        ("html_url", JStr "https://github.com/octocat/Hello-World");
        ("stargazers_count", JNum 80);
        ("forks_count", JNum 9);
        ("watchers_count", JNum 80);
        ("open_issues_count", JNum 2);
        ("default_branch", JStr "master");
        ("topics", JList [JStr "octocat"; JStr "api"]);
        ("license", JObj [("key", JStr "mit"); ("name", JStr "MIT License")])].

Definition sample_user (login : string) : json :=
  JObj [("login", JStr login);
        ("avatar_url", JStr ("https://github.com/images/" ++ login ++ ".gif"));
        ("html_url", JStr ("https://github.com/" ++ login))].

Definition sample_contributors : json :=
  JList [JObj [("login", JStr "octocat"); ("contributions", JNum 32);
               ("type", JStr "User")];
         JObj [("login", JStr "hubot"); ("contributions", JNum 5)]].

Definition sample_pulls : json :=
  JList [JObj [("number", JNum 12); ("title", JStr "Add a greeting");
               ("state", JStr "open"); ("merged_at", JNull);
               ("user", sample_user "octocat");
               ("labels", JList [JObj [("name", JStr "enhancement")]])];
         JObj [("number", JNum 11); ("title", JStr "Fix the typo");
               ("state", JStr "closed");
               ("merged_at", JStr "2024-05-01T10:00:00Z");
               ("user", sample_user "hubot")];
         JObj [("number", JNum 10); ("title", JStr "Rewrite everything");
               ("state", JStr "closed"); ("merged_at", JNull);
               ("user", sample_user "hubot"); ("draft", JBool true)]].

Definition sample_issues : json :=
  JList [JObj [("number", JNum 12); ("title", JStr "Add a greeting");
               ("state", JStr "open"); ("user", sample_user "octocat");
               ("pull_request", JObj [("url", JStr "https://api.github.com/repos/octocat/Hello-World/pulls/12")])];
         JObj [("number", JNum 7); ("title", JStr "Greeting is misspelled");
               ("state", JStr "open"); ("user", sample_user "hubot");
               ("comments", JNum 3)]].

(** Twenty weekly buckets, the first starting on 2023-11-19. *)
Definition sample_commit_activity : json :=
  JList (map (fun i => JObj [("days", JList [JNum 0; JNum i; JNum 0; JNum 0;
                                              JNum 0; JNum 0; JNum 0]);
                             ("total", JNum i);
                             ("week", JNum (1700352000 + 604800 * i))])
             (zrange 0 20)).

Definition sample_languages : json :=
  JObj [("Python", JNum 52340); ("Shell", JNum 811)].

Definition sample_releases : json :=
  JList [JObj [("tag_name", JStr "v1.0.0"); ("name", JStr "First release");
               ("published_at", JStr "2024-01-15T09:00:00Z");
               ("html_url", JStr "https://github.com/octocat/Hello-World/releases/v1.0.0")]].

Definition sample_routes (contributors : http_outcome) : list (string * http_outcome) :=
  [(repo_info_url "octocat" "Hello-World", Response 200 (Ok sample_repo_info));
   (contributors_url "octocat" "Hello-World", contributors);
   (pulls_url "octocat" "Hello-World", Response 200 (Ok sample_pulls));
   (issues_url "octocat" "Hello-World", Response 200 (Ok sample_issues));
   (commit_activity_url "octocat" "Hello-World", Response 200 (Ok sample_commit_activity));
   (languages_url "octocat" "Hello-World", Response 200 (Ok sample_languages));
   (releases_url "octocat" "Hello-World", Response 200 (Ok sample_releases))].

(** Every call answered. *)
Definition sample_session : session :=
  serve (sample_routes (Response 200 (Ok sample_contributors))).

(** The contributors call times out, every other call is answered. *)
Definition sample_session_slow_contributors : session :=
  serve (sample_routes TimeoutError).

(** Every call is refused with status 403, as under a rate limit. *)
Definition sample_session_rate_limited : session :=
  fun _ _ => Response 403 (Ok (JObj [("message", JStr "API rate limit exceeded")])).

(** The pull-requests call returns one regular item and one whose author is
    [null]; every other call is answered as in [sample_session]. *)
Definition sample_session_null_author : session :=
  serve ((pulls_url "octocat" "Hello-World",
          Response 200 (Ok (JList [JObj [("number", JNum 12); ("state", JStr "open");
                                         ("user", sample_user "octocat")];
                                   JObj [("number", JNum 11); ("state", JStr "closed");
                                         ("user", JNull)]])))
         :: sample_routes (Response 200 (Ok sample_contributors))).

(** The commit-activity call returns a bucket whose [total] is [null];
    every other call is answered as in [sample_session]. *)
Definition sample_session_null_total : session :=
  serve ((commit_activity_url "octocat" "Hello-World",
          Response 200 (Ok (JList [JObj [("week", JNum 1700352000); ("total", JNum 4)];
                                   JObj [("week", JNum 1700956800); ("total", JNull)]])))
         :: sample_routes (Response 200 (Ok sample_contributors))).

(** The issues call returns one issue whose author is [null]; every other
    call is answered as in [sample_session]. *)
Definition sample_session_null_issue_author : session :=
  serve ((issues_url "octocat" "Hello-World",
          Response 200 (Ok (JList [JObj [("number", JNum 7); ("state", JStr "open");
                                         ("user", JNull)]])))
         :: sample_routes (Response 200 (Ok sample_contributors))).

(** The issues call returns a pull request whose author is [null] and a
    regular issue; every other call is answered as in [sample_session]. *)
Definition sample_session_null_linked_author : session :=
  serve ((issues_url "octocat" "Hello-World",
          Response 200 (Ok (JList [JObj [("number", JNum 12); ("state", JStr "open");
                                         ("user", JNull); ("labels", JNull);
                                         ("pull_request", JObj [])];
                                   JObj [("number", JNum 7); ("state", JStr "open");
                                         ("user", sample_user "hubot")]])))
         :: sample_routes (Response 200 (Ok sample_contributors))).

(** The commit-activity call returns one bucket that starts on 999-12-31
    00:00:00 UTC; every other call is answered as in [sample_session]. *)
Definition sample_session_year_999 : session :=
  serve ((commit_activity_url "octocat" "Hello-World",
          Response 200 (Ok (JList [JObj [("week", JNum (-30610310400));
                                         ("total", JNum 3)]])))
         :: sample_routes (Response 200 (Ok sample_contributors))).

(** A configuration with a token. *)
Definition sample_settings : settings := Settings (Some "ghp_example").

(* ===================================================================== *)
(** * Properties *)
(* ===================================================================== *)

(** ** Strings *)

Lemma chars_app (a b : string) : chars (a ++ b) = (chars a ++ chars b)%list.
Proof.
  unfold chars. induction a as [|c a IH]; simpl; [reflexivity|].
  now rewrite IH.
Qed.

Lemma chars_str_of (l : list ascii) : chars (str_of l) = l.
Proof. apply list_ascii_of_string_of_list_ascii. Qed.

Lemma dropwhile_head {A : Type} (p : A -> bool) (l : list A) (x : A) (l' : list A) :
  dropwhile p l = x :: l' -> p x = false.
Proof.
  induction l as [|y l IH]; simpl; [discriminate|].
  destruct (p y) eqn:E; [exact IH|].
  intros [= <- _]. exact E.
Qed.

(** What [rstrip] leaves never ends in a character of the set. *)
Lemma rstrip_last (cs s : string) (c : ascii) (l : list ascii) :
  rev (chars (rstrip cs s)) = c :: l -> mem_ascii c (chars cs) = false.
Proof.
  unfold rstrip, rdropwhile. rewrite chars_str_of, rev_involutive.
  apply (dropwhile_head (fun c => mem_ascii c (chars cs))).
Qed.

Lemma is_prefix_app (p l : list ascii) : is_prefix p (p ++ l) = true.
Proof.
  induction p as [|c p IH]; simpl; [reflexivity|].
  now rewrite Ascii.eqb_refl, IH.
Qed.

Lemma is_infix_of_prefix (p l : list ascii) :
  is_prefix p l = true -> is_infix p l = true.
Proof. intros H. destruct l; simpl; rewrite H; reflexivity. Qed.

Lemma is_infix_app_r (p l1 l2 : list ascii) :
  is_infix p l2 = true -> is_infix p (l1 ++ l2) = true.
Proof.
  intros H. induction l1 as [|c l1 IH]; simpl; [exact H|].
  rewrite IH. apply orb_true_r.
Qed.

(** A text occurs at the front of what it starts, and in every text that
    ends with a text it occurs in. *)
Lemma str_contains_head (x b : string) : str_contains x (x ++ b) = true.
Proof.
  unfold str_contains. rewrite chars_app.
  apply is_infix_of_prefix, is_prefix_app.
Qed.

Lemma str_contains_tail (x a b : string) :
  str_contains x b = true -> str_contains x (a ++ b) = true.
Proof.
  unfold str_contains. rewrite chars_app. apply is_infix_app_r.
Qed.

(** ** [parse_repo_url] *)

(** The parser tries the URL pattern, then the shorthand pattern, and only
    then gives up. *)
Lemma parse_repo_url_unfold (repo_input : string) :
  parse_repo_url repo_input =
  match Re.search pattern_url (normalize repo_input) with
  | Some m => Ok (Re.group 1 m, Re.group 2 m)
  | None =>
      match Re.search pattern_short (normalize repo_input) with
      | Some m => Ok (Re.group 1 m, Re.group 2 m)
      | None => Err (ValueError (invalid_format_message (normalize repo_input)))
      end
  end.
Proof. reflexivity. Qed.

(** Inputs on which the parser does what the contract says. *)
Example parse_shorthand : parse_repo_url "octocat/Hello-World" = Ok ("octocat", "Hello-World").
Proof. vm_compute. reflexivity. Qed.

Example parse_url_forms :
  parse_repo_url "https://github.com/octocat/Hello-World" = Ok ("octocat", "Hello-World") /\
  parse_repo_url "https://github.com/octocat/Hello-World/" = Ok ("octocat", "Hello-World") /\
  parse_repo_url "https://github.com/octocat/Hello-World.git" = Ok ("octocat", "Hello-World") /\
  parse_repo_url "  git@github.com:octocat/Hello-World.git/ " = Ok ("octocat", "Hello-World").
Proof. vm_compute. repeat split. Qed.

(** [rstrip('.git')] removes a set of characters, not a suffix. *)
Example normalize_eats_name :
  normalize "octocat/widget" = "octocat/widge" /\
  normalize "octocat/Hello-World.git" = "octocat/Hello-World" /\
  normalize "octocat/git" = "octocat/".
Proof. vm_compute. repeat split. Qed.

(** No normalized input ends in [.], [g], [i] or [t]: a repository name
    that ends in one of them never reaches the patterns whole. *)
Lemma normalize_last (repo_input : string) (c : ascii) (l : list ascii) :
  rev (chars (normalize repo_input)) = c :: l ->
  c <> "."%char /\ c <> "g"%char /\ c <> "i"%char /\ c <> "t"%char.
Proof.
  unfold normalize. intros H. apply rstrip_last in H.
  repeat split; intros ->; discriminate.
Qed.

(** C1 (fails on the code).  The claim: every valid shorthand [owner/repo]
    comes back as [(owner, repo)], and every URL form of the same repository
    gives the same pair.  The shorthand [octocat/widget] matches the
    shorthand pattern as it stands, with groups [octocat] and [widget]; yet
    the parser answers [(octocat, widge)], for the shorthand and for its URL
    forms alike, because normalization strips the trailing characters
    [.], [g], [i], [t] one by one instead of the suffix [.git].  The
    shorthand [octocat/git] is refused outright. *)
Theorem parse_repo_url_widget_loses_its_last_letter :
  Re.search pattern_short "octocat/widget"
    = Some [(2%nat, "widget"); (1%nat, "octocat")] /\
  parse_repo_url "octocat/widget" = Ok ("octocat", "widge") /\
  parse_repo_url "https://github.com/octocat/widget" = Ok ("octocat", "widge") /\
  parse_repo_url "https://github.com/octocat/widget.git/" = Ok ("octocat", "widge") /\
  Re.search pattern_short "octocat/git"
    = Some [(2%nat, "git"); (1%nat, "octocat")] /\
  parse_repo_url "octocat/git"
    = Err (ValueError (invalid_format_message "octocat/")).
Proof. vm_compute. repeat split. Qed.

(** C9.  When neither the URL pattern nor the shorthand pattern matches the
    normalized input, [parse_repo_url] raises the [ValueError] whose message
    quotes the normalized input and names both accepted syntaxes. *)
Theorem parse_repo_url_invalid_format (repo_input : string) :
  Re.search pattern_url (normalize repo_input) = None ->
  Re.search pattern_short (normalize repo_input) = None ->
  let msg := invalid_format_message (normalize repo_input) in
  parse_repo_url repo_input = Err (ValueError msg) /\
  msg = "Invalid repository format: '" ++ normalize repo_input
        ++ "'. Expected: 'owner/repo' or 'https://github.com/owner/repo'" /\
  str_contains (normalize repo_input) msg = true /\
  str_contains "'owner/repo'" msg = true /\
  str_contains "'https://github.com/owner/repo'" msg = true.
Proof.
  intros Hurl Hshort msg. rewrite parse_repo_url_unfold, Hurl, Hshort.
  split; [reflexivity|]. split; [reflexivity|]. subst msg.
  unfold invalid_format_message. repeat split.
  - apply str_contains_tail, str_contains_head.
  - do 2 apply str_contains_tail. reflexivity.
  - do 2 apply str_contains_tail. reflexivity.
Qed.

Lemma parse_repo_url_invalid_format_witness :
  parse_repo_url "not a valid repo"
  = Err (ValueError ("Invalid repository format: 'not a valid repo'. "
                     ++ "Expected: 'owner/repo' or 'https://github.com/owner/repo'")).
Proof.
  exact (proj1 (parse_repo_url_invalid_format "not a valid repo" eq_refl eq_refl)).
Defined.

(** ** The error monad *)

Lemma bind_ok {A B : Type} (c : result A) (f : A -> result B) (b : B) :
  bind c f = Ok b -> exists a, c = Ok a /\ f a = Ok b.
Proof. destruct c as [a|e]; simpl; intros H; [eauto | discriminate]. Qed.

(** Splits a successful sequence of binds into its successful steps. *)
Ltac bind_inv H :=
  repeat match type of H with
  | bind _ _ = Ok _ =>
      let x := fresh "x" in
      let Hx := fresh "Hx" in
      apply bind_ok in H; destruct H as (x & Hx & H)
  end.

Lemma mapM_Forall2 {A B : Type} (f : A -> result B) (xs : list A) (ys : list B) :
  mapM f xs = Ok ys <-> Forall2 (fun x y => f x = Ok y) xs ys.
Proof.
  revert ys. induction xs as [|x xs IH]; intros ys; simpl.
  - split; intros H.
    + injection H as <-. constructor.
    + inversion H. reflexivity.
  - split; intros H.
    + bind_inv H. injection H as <-. constructor; [assumption|]. now apply IH.
    + inversion H as [|? y ? ys' Hxy Hrest]; subst.
      rewrite Hxy. simpl. apply IH in Hrest. rewrite Hrest. reflexivity.
Qed.

Lemma mapM_length {A B : Type} (f : A -> result B) (xs : list A) (ys : list B) :
  mapM f xs = Ok ys -> List.length ys = List.length xs.
Proof.
  intros H. apply mapM_Forall2 in H. symmetry. eapply Forall2_length; eassumption.
Qed.

Lemma mapM_total {A B : Type} (f : A -> result B) (xs : list A) :
  Forall (fun x => is_ok (f x) = true) xs -> exists ys, mapM f xs = Ok ys.
Proof.
  induction 1 as [|x xs Hx _ (ys & IH)]; simpl.
  - eauto.
  - destruct (f x) as [y|e]; [|discriminate]. simpl. rewrite IH. simpl. eauto.
Qed.

(** ** [get_pull_requests] *)

Lemma eq_str_open (v : json) : eq_str v "open" = true <-> v = JStr "open".
Proof.
  destruct v; simpl; try (split; discriminate).
  rewrite String.eqb_eq. split; [now intros -> | now intros [= ->]].
Qed.

(** The two classifications agree on every item that has a state field. *)
Lemma display_state_of_claimed (kvs : list (string * json)) (v : json) :
  lookup "state" kvs = Some v -> display_state_of kvs = claimed_display_state kvs.
Proof.
  intros H. unfold display_state_of, claimed_display_state. rewrite H.
  destruct (eq_str v "open") eqn:E.
  - apply eq_str_open in E. subst v. reflexivity.
  - destruct v as [| | |s| |]; try reflexivity.
    simpl in E. apply String.eqb_neq in E.
    destruct s as [|[[] [] [] [] [] [] [] []] s]; try reflexivity.
    destruct s as [|[[] [] [] [] [] [] [] []] s]; try reflexivity.
    destruct s as [|[[] [] [] [] [] [] [] []] s]; try reflexivity.
    destruct s as [|[[] [] [] [] [] [] [] []] s]; try reflexivity.
    destruct s; [congruence | reflexivity].
Qed.

(** One iteration of the loop, spelled out: the display state of the item
    selects the counter that grows and is stored in the appended detail. *)
Lemma pr_step_unfold (kvs : list (string * json)) (acc : pr_acc) :
  pr_step (JObj kvs) acc =
  let ds := display_state_of kvs in
  d <- pr_detail (JObj kvs) ds ;;
  Ok (PrAcc (open_count acc + (if String.eqb ds "open" then 1 else 0))
            (closed_count acc + (if String.eqb ds "closed" then 1 else 0))
            (merged_count acc + (if String.eqb ds "merged" then 1 else 0))
            (details acc ++ [d])).
Proof.
  unfold pr_step, display_state_of, merge_timestamp_present, classify. simpl.
  destruct (lookup "state" kvs) as [v|]; simpl.
  - destruct (eq_str v "open"); simpl.
    + rewrite !Z.add_0_r. reflexivity.
    + destruct (lookup "merged_at" kvs) as [w|]; simpl.
      * destruct (is_none w); simpl; rewrite !Z.add_0_r; reflexivity.
      * rewrite !Z.add_0_r. reflexivity.
  - rewrite !Z.add_0_r. reflexivity.
Qed.

Lemma pr_detail_state (pr : json) (ds : string) (d : json) :
  pr_detail pr ds = Ok d -> field "state" d = Some (JStr ds).
Proof.
  unfold pr_detail. intros H. bind_inv H. injection H as <-. reflexivity.
Qed.

(** C2 (as amended).  For every pull-request item on which an iteration of
    the loop completes, the display state is [open] when the state field
    equals "open" or is missing, whatever the merge timestamp; otherwise
    [merged] when a merge timestamp is present; otherwise [closed].  That
    display state is stored in the appended detail, and exactly the counter
    of that name grows by one. *)
Theorem pr_step_display_state (kvs : list (string * json)) (acc acc' : pr_acc) :
  pr_step (JObj kvs) acc = Ok acc' ->
  let ds := display_state_of kvs in
  (ds = "open" \/ ds = "merged" \/ ds = "closed") /\
  (lookup "state" kvs = Some (JStr "open") \/ lookup "state" kvs = None
     -> ds = "open") /\
  (forall v, lookup "state" kvs = Some v -> v <> JStr "open" ->
     ds = if merge_timestamp_present kvs then "merged" else "closed") /\
  exists d,
    details acc' = (details acc ++ [d])%list /\
    field "state" d = Some (JStr ds) /\
    open_count acc' = open_count acc + (if String.eqb ds "open" then 1 else 0) /\
    merged_count acc' = merged_count acc + (if String.eqb ds "merged" then 1 else 0) /\
    closed_count acc' = closed_count acc + (if String.eqb ds "closed" then 1 else 0).
Proof.
  intros H ds. rewrite pr_step_unfold in H. cbv zeta in H. fold ds in H.
  bind_inv H. injection H as <-. simpl.
  split; [|split; [|split]].
  - subst ds. unfold display_state_of.
    destruct (lookup "state" kvs) as [v|]; [|now left].
    destruct (eq_str v "open"); [now left|].
    destruct (merge_timestamp_present kvs); [right; now left | right; now right].
  - subst ds. unfold display_state_of. intros [-> | ->]; reflexivity.
  - subst ds. unfold display_state_of. intros v -> Hv.
    destruct (eq_str v "open") eqn:E; [|reflexivity].
    apply eq_str_open in E. contradiction.
  - exists x. repeat split. eapply pr_detail_state; eassumption.
Qed.

Lemma pr_step_display_state_witness :
  let kvs := [("number", JNum 7); ("state", JStr "closed");
              ("merged_at", JStr "2024-05-01T10:00:00Z")] in
  exists acc',
    pr_step (JObj kvs) (PrAcc 0 0 0 []) = Ok acc' /\
    exists d,
      details acc' = ([] ++ [d])%list /\
      field "state" d = Some (JStr "merged") /\
      open_count acc' = 0 /\ merged_count acc' = 1 /\ closed_count acc' = 0.
Proof.
  intros kvs. eexists. split; [vm_compute; reflexivity|].
  refine (proj2 (proj2 (proj2 (pr_step_display_state kvs (PrAcc 0 0 0 []) _ _)))).
  vm_compute. reflexivity.
Defined.

(** C2 (fails as stated).  An item without a state field that carries a
    merge timestamp: by the claim's rule its raw state does not equal
    "open" and a merge timestamp is present, so it is [merged]; the loop
    reads the missing state as "open", counts the item as open and stores
    the display state [open]. *)
Lemma pr_step_missing_state_is_open :
  let kvs := [("number", JNum 7); ("merged_at", JStr "2024-05-01T10:00:00Z")] in
  claimed_display_state kvs = "merged" /\
  exists d,
    pr_step (JObj kvs) (PrAcc 0 0 0 []) = Ok (PrAcc 1 0 0 [d]) /\
    field "state" d = Some (JStr "open") /\
    field "state" d <> Some (JStr (claimed_display_state kvs)).
Proof.
  split; [reflexivity|].
  eexists. split; [vm_compute; reflexivity|].
  split; [reflexivity | discriminate].
Qed.

Lemma pr_step_inv (pr : json) (acc acc' : pr_acc) :
  pr_step pr acc = Ok acc' ->
  exists ds d,
    pr_detail pr ds = Ok d /\
    details acc' = (details acc ++ [d])%list /\
    open_count acc' + closed_count acc' + merged_count acc'
      = open_count acc + closed_count acc + merged_count acc + 1.
Proof.
  destruct pr as [| | | | |kvs]; try discriminate.
  rewrite pr_step_unfold. cbv zeta. intros H. bind_inv H. injection H as <-.
  exists (display_state_of kvs), x. simpl.
  split; [assumption|]. split; [reflexivity|].
  assert (Hds : display_state_of kvs = "open" \/ display_state_of kvs = "merged"
                \/ display_state_of kvs = "closed").
  { unfold display_state_of.
    destruct (lookup "state" kvs) as [v|]; [|now left].
    destruct (eq_str v "open"); [now left|].
    destruct (merge_timestamp_present kvs); [right; now left | right; now right]. }
  destruct Hds as [-> | [-> | ->]]; simpl; lia.
Qed.

(** The loop keeps the sum of the three counters in step with the number of
    items consumed and appends one detail per item, in order. *)
Lemma pr_loop_inv (prs : list json) (acc acc' : pr_acc) :
  pr_loop prs acc = Ok acc' ->
  exists ds,
    details acc' = (details acc ++ ds)%list /\
    Forall2 (fun pr d => exists st, pr_detail pr st = Ok d) prs ds /\
    open_count acc' + closed_count acc' + merged_count acc'
      = open_count acc + closed_count acc + merged_count acc
        + Z.of_nat (List.length prs).
Proof.
  revert acc. induction prs as [|pr prs IH]; intros acc H; simpl in H.
  - injection H as <-. exists []. rewrite app_nil_r. simpl.
    repeat split; [constructor | lia].
  - bind_inv H. apply pr_step_inv in Hx. destruct Hx as (st & d & Hd & Hdet & Hsum).
    apply IH in H. destruct H as (ds & Hdet' & Hall & Hsum').
    exists (d :: ds). split; [|split].
    + rewrite Hdet', Hdet, <- app_assoc. reflexivity.
    + constructor; [eauto | assumption].
    + rewrite Hsum', Hsum. simpl List.length. lia.
Qed.

(** C10.  Whatever [get_pull_requests] returns, the empty default included,
    has [open + closed + merged = total], [total] equal to the length of
    [details], and the i-th detail built from the i-th item of the upstream
    payload. *)
Theorem get_pull_requests_counts (s : session) (owner repo state : string)
    (max_prs : Z) (r : json) :
  get_pull_requests s owner repo state max_prs = Ok r ->
  let prs := _make_request s (pulls_url owner repo) (Some (list_params state max_prs)) in
  exists (o c m : Z) (ds : list json),
    r = pr_stats o c m (o + c + m) ds /\
    o + c + m = Z.of_nat (List.length ds) /\
    Forall2 (fun pr d => exists st, pr_detail pr st = Ok d) (payload_items prs) ds.
Proof.
  intros H. cbv zeta. unfold get_pull_requests in H.
  destruct (_make_request s (pulls_url owner repo) (Some (list_params state max_prs)))
    as [| | | |l|]; simpl in H; rewrite ?orb_true_r in H;
    try (injection H as <-; exists 0, 0, 0, []; repeat split; constructor).
  destruct l as [|pr l']; simpl in H.
  - injection H as <-. exists 0, 0, 0, []. repeat split. constructor.
  - bind_inv H. injection H as <-.
    change (acc' <- pr_step pr (PrAcc 0 0 0 []) ;; pr_loop l' acc')
      with (pr_loop (pr :: l') (PrAcc 0 0 0 [])) in Hx.
    apply pr_loop_inv in Hx. destruct Hx as (ds & Hdet & Hall & Hsum).
    simpl in Hdet, Hsum.
    exists (open_count x), (closed_count x), (merged_count x), ds.
    assert (Hlen : List.length ds = List.length (pr :: l'))
      by (symmetry; eapply Forall2_length; eassumption).
    split; [|split].
    + unfold pr_stats. rewrite Hdet. repeat f_equal.
      rewrite Hsum. simpl List.length. lia.
    + rewrite Hsum, Hlen. simpl List.length. lia.
    + exact Hall.
Qed.

Example fromtimestamp_samples :
  fromtimestamp (fun _ => 0) (JNum 1700000000) = Ok (2023, 11, 14) /\
  fromtimestamp (fun _ => 0) (JNum 951782400) = Ok (2000, 2, 29) /\
  fromtimestamp (fun _ => 0) (JNum 951868800) = Ok (2000, 3, 1) /\
  fromtimestamp (fun _ => -3600) (JNum 0) = Ok (1969, 12, 31) /\
  fromtimestamp (fun _ => 0) (JBool true) = Ok (1970, 1, 1) /\
  fromtimestamp (fun _ => 0) (JNum 253402300799) = Ok (9999, 12, 31) /\
  fromtimestamp (fun _ => 0) (JNum 253402300800)
    = Err (ValueError "year 10000 is out of range") /\
  fromtimestamp (fun _ => 0) (JNum (-62135510400)) = Ok (1, 1, 2) /\
  fromtimestamp (fun _ => 0) (JNum (-62135510401))
    = Err (ValueError "year 0 is out of range") /\
  fromtimestamp (fun _ => 0) (JNum 67767976233532800)
    = Err (ValueError "year -2147483648 is out of range") /\
  fromtimestamp (fun _ => 0) (JNum 100000000000000000)
    = Err (OtherError "[Errno 75] Value too large for defined data type") /\
  fromtimestamp (fun _ => 0) (JNum 9223372036854775808)
    = Err (OtherError "timestamp out of range for platform time_t") /\
  fromtimestamp (fun _ => 0) JNull
    = Err (TypeError "'NoneType' object cannot be interpreted as an integer") /\
  strftime_ymd (2023, 11, 14) = "2023-11-14" /\
  strftime_ymd (999, 12, 31) = "999-12-31" /\
  strftime_ymd (1, 1, 2) = "1-01-02".
Proof. vm_compute. repeat split. Qed.

(** ** [get_issues] *)

Lemma filter_objects (p : json -> bool) (items : list json) :
  Forall (fun i => is_object i = true) items ->
  Forall (fun i => is_object i = true) (filter p items).
Proof.
  intros H. rewrite Forall_forall in *. intros i Hi.
  apply filter_In in Hi. now apply H.
Qed.

Lemma filterM_not_pull_request (items : list json) :
  Forall (fun i => is_object i = true) items ->
  filterM not_pull_request items = Ok (genuine_issues items).
Proof.
  induction 1 as [|i items Hi _ IH]; simpl; [reflexivity|].
  destruct i as [| | | | |kvs]; try discriminate.
  unfold has_linkage. simpl. rewrite IH. simpl.
  destruct (lookup "pull_request" kvs); reflexivity.
Qed.

Lemma py_count_state (st : string) (items : list json) (acc : Z) :
  Forall (fun i => is_object i = true) items ->
  py_count (state_is st) items acc = Ok (acc + count_state st items).
Proof.
  intros H. revert acc. unfold count_state.
  induction H as [|i items Hi _ IH]; intros acc; simpl.
  - now rewrite Z.add_0_r.
  - destruct i as [| | | | |kvs]; try discriminate. simpl.
    destruct (lookup "state" kvs) as [v|]; simpl.
    + destruct (eq_str v st); rewrite IH; simpl List.length; f_equal; lia.
    + rewrite IH. reflexivity.
Qed.

(** On a payload whose items are JSON objects, [get_issues] reshapes the
    genuine issues and counts among them only. *)
Lemma get_issues_unfold (s : session) (owner repo state : string) (max_issues : Z) :
  let issues := _make_request s (issues_url owner repo) (Some (list_params state max_issues)) in
  let genuine := genuine_issues (payload_items issues) in
  Forall (fun i => is_object i = true) (payload_items issues) ->
  get_issues s owner repo state max_issues =
  (ds <- mapM issue_detail genuine ;;
   Ok (issue_stats (count_state "open" genuine) (count_state "closed" genuine)
                   (Z.of_nat (List.length genuine)) ds)).
Proof.
  cbv zeta. unfold get_issues.
  destruct (_make_request s (issues_url owner repo) (Some (list_params state max_issues)))
    as [| | | |l|]; simpl; rewrite ?orb_true_r; try reflexivity.
  intros H. destruct l as [|i l]; [reflexivity|].
  cbn [truthy negb orb py_iter bind].
  rewrite (filterM_not_pull_request _ H). cbn [bind].
  pose proof (filter_objects (fun i => negb (has_linkage i)) _ H) as Hg.
  fold (genuine_issues (i :: l)) in Hg.
  rewrite !(py_count_state _ _ _ Hg). cbn [bind]. reflexivity.
Qed.

(** C6.  On every issues payload (a list of JSON objects, or no usable
    payload at all), what [get_issues] returns leaves out every item that
    carries the [pull_request] field: [total] is the number of items
    without it, [open] and [closed] count among those only, and [details]
    holds those items reshaped, in order.  It does return whenever each of
    those items can be reshaped.  For a payload of one item with the field
    followed by one without, [total] is 1 and [details] holds the second
    item alone. *)
Theorem get_issues_excludes_pull_requests (s : session) (owner repo state : string)
    (max_issues : Z) :
  let issues := _make_request s (issues_url owner repo) (Some (list_params state max_issues)) in
  let genuine := genuine_issues (payload_items issues) in
  Forall (fun i => is_object i = true) (payload_items issues) ->
  (forall r, get_issues s owner repo state max_issues = Ok r ->
     exists ds,
       r = issue_stats (count_state "open" genuine) (count_state "closed" genuine)
                       (Z.of_nat (List.length genuine)) ds /\
       Forall2 (fun i d => issue_detail i = Ok d) genuine ds /\
       Forall (fun i => has_linkage i = false) genuine /\
       (forall i, In i (payload_items issues) -> has_linkage i = false -> In i genuine)) /\
  (Forall (fun i => is_ok (issue_detail i) = true) genuine ->
     exists r, get_issues s owner repo state max_issues = Ok r) /\
  (forall a b r, payload_items issues = [a; b] ->
     has_linkage a = true -> has_linkage b = false ->
     get_issues s owner repo state max_issues = Ok r ->
     field "total" r = Some (JNum 1) /\
     exists d, issue_detail b = Ok d /\ field "details" r = Some (JList [d])).
Proof.
  intros issues genuine Hobj.
  pose proof (get_issues_unfold s owner repo state max_issues Hobj) as E.
  fold issues in E. fold genuine in E.
  split; [|split].
  - intros r Hr. rewrite E in Hr. bind_inv Hr. injection Hr as <-.
    exists x. split; [reflexivity|]. split; [now apply mapM_Forall2|].
    split.
    + apply Forall_forall. intros i Hi. apply filter_In in Hi.
      destruct Hi as [_ Hi]. now apply negb_true_iff in Hi.
    + intros i Hi Hl. apply filter_In. split; [assumption|]. now rewrite Hl.
  - intros Hwf. apply mapM_total in Hwf. destruct Hwf as (ds & Hds).
    rewrite E, Hds. simpl. eauto.
  - intros a b r Hab Ha Hb Hr. rewrite E in Hr.
    assert (Hg : genuine = [b]).
    { subst genuine. rewrite Hab. unfold genuine_issues. simpl.
      rewrite Ha, Hb. reflexivity. }
    rewrite Hg in Hr. simpl in Hr. bind_inv Hr. bind_inv Hx.
    injection Hx as <-. injection Hr as <-.
    split; [reflexivity|]. eexists. split; [eassumption | reflexivity].
Qed.

(** ** Calendar dates *)

Lemma zrange_In (k : nat) (lo n : Z) :
  lo <= n < lo + Z.of_nat k -> In n (zrange lo k).
Proof.
  revert lo. induction k as [|k IH]; intros lo H; [lia|].
  simpl. destruct (Z.eq_dec lo n) as [->|Hne]; [now left|].
  right. apply IH. lia.
Qed.

Lemma Z_range_forall (P : Z -> bool) (lo k : Z) :
  forallb P (zrange lo (Z.to_nat k)) = true ->
  forall n, lo <= n < lo + k -> P n = true.
Proof.
  intros H n Hn. rewrite forallb_forall in H. apply H.
  apply zrange_In. lia.
Qed.

(** ** Calendar dates *)

(** Checked on each of the 146097 days of an era: the date is one of the
    calendar and its ordinal is the day's. *)
Lemma civil_of_doe_ord (doe : Z) :
  0 <= doe < 146097 ->
  (let '(y, m, d) := civil_of_doe doe in
   valid_date (y, m, d) && (ymd_to_ord y m d =? doe - 305)) = true.
Proof.
  intros H.
  apply (Z_range_forall
           (fun n => let '(y, m, d) := civil_of_doe n in
                     valid_date (y, m, d) && (ymd_to_ord y m d =? n - 305))
           0 146097);
    [vm_compute; reflexivity | lia].
Qed.

Lemma is_leap_era (y e : Z) : is_leap (y + e * 400) = is_leap y.
Proof.
  unfold is_leap.
  replace ((y + e * 400) mod 4) with (y mod 4)
    by (replace (y + e * 400) with (y + (e * 100) * 4) by lia;
        now rewrite Z.mod_add).
  replace ((y + e * 400) mod 100) with (y mod 100)
    by (replace (y + e * 400) with (y + (e * 4) * 100) by lia;
        now rewrite Z.mod_add).
  now rewrite Z.mod_add.
Qed.

Lemma days_before_year_era (y e : Z) :
  days_before_year (y + e * 400) = days_before_year y + e * 146097.
Proof.
  unfold days_before_year. cbv zeta.
  replace (y + e * 400 - 1) with (y - 1 + e * 400) by lia.
  replace ((y - 1 + e * 400) / 4) with ((y - 1) / 4 + e * 100)
    by (replace (y - 1 + e * 400) with (y - 1 + (e * 100) * 4) by lia;
        now rewrite Z.div_add).
  replace ((y - 1 + e * 400) / 100) with ((y - 1) / 100 + e * 4)
    by (replace (y - 1 + e * 400) with (y - 1 + (e * 4) * 100) by lia;
        now rewrite Z.div_add).
  rewrite Z.div_add by lia. lia.
Qed.

Lemma ymd_to_ord_era (y m d e : Z) :
  ymd_to_ord (y + e * 400) m d = ymd_to_ord y m d + e * 146097.
Proof.
  unfold ymd_to_ord, days_before_month.
  rewrite days_before_year_era, is_leap_era. lia.
Qed.

Lemma valid_date_era (y m d e : Z) :
  valid_date (y + e * 400, m, d) = valid_date (y, m, d).
Proof. unfold valid_date, days_in_month. now rewrite is_leap_era. Qed.

(** The date of a day number is a date of the calendar, and it lies that
    many days after 1970-01-01. *)
Lemma civil_from_days_ord (days : Z) :
  valid_date (civil_from_days days) = true /\
  days_since_epoch (civil_from_days days) = days.
Proof.
  unfold civil_from_days. cbv zeta.
  pose proof (Z.mod_pos_bound (days + 719468) 146097 eq_refl) as Hb.
  pose proof (civil_of_doe_ord _ Hb) as H.
  destruct (civil_of_doe ((days + 719468) mod 146097)) as [[y m] d].
  apply andb_true_iff in H. destruct H as (Hv & Ho). apply Z.eqb_eq in Ho.
  split.
  - now rewrite valid_date_era.
  - unfold days_since_epoch. rewrite ymd_to_ord_era, Ho.
    change (ymd_to_ord 1970 1 1) with 719163.
    pose proof (Z.div_mod (days + 719468) 146097). lia.
Qed.

Lemma wrap_int_year (y : Z) :
  -2147483648 <= y - 1900 <= 2147483647 ->
  1 <= wrap_int (y - 1900 + 1900) <= 9999 ->
  wrap_int (y - 1900 + 1900) = y.
Proof.
  unfold wrap_int. intros H1 H2.
  replace (y - 1900 + 1900) with y in * by lia.
  Z.div_mod_to_equations. lia.
Qed.

Lemma localtime_inv (utcoffset : Z -> Z) (t y m d sod : Z) :
  localtime utcoffset t = Ok (y, m, d, sod) ->
  1 <= y <= 9999 ->
  civil_from_days ((t + utcoffset t) / 86400) = (y, m, d).
Proof.
  unfold localtime. cbv zeta.
  destruct (civil_from_days ((t + utcoffset t) / 86400)) as [[y0 m0] d0].
  destruct ((y0 - 1900 <? -2147483648) || (2147483647 <? y0 - 1900)) eqn:E;
    [discriminate|].
  intros [= <- <- <- _] Hy.
  apply orb_false_iff in E. destruct E as (E1 & E2).
  apply Z.ltb_ge in E1, E2.
  rewrite wrap_int_year by lia. reflexivity.
Qed.

Lemma utc_to_seconds_inv (y m d sod r : Z) :
  utc_to_seconds y m d sod = Ok r -> 1 <= y <= 9999.
Proof.
  unfold utc_to_seconds.
  destruct ((y <? 1) || (9999 <? y)) eqn:E; [discriminate|]. intros _.
  apply orb_false_iff in E. destruct E as (E1 & E2).
  apply Z.ltb_ge in E1, E2. lia.
Qed.

(** The integer a timestamp is read as. *)
Lemma fromtimestamp_inv (utcoffset : Z -> Z) (t : json) (date : Z * Z * Z) :
  fromtimestamp utcoffset t = Ok date ->
  exists secs,
    match t with
    | JNum z => Some z
    | JBool b => Some (if b then 1 else 0)
    | _ => None
    end = Some secs /\
    1 <= fst (fst date) <= 9999 /\
    civil_from_days ((secs + utcoffset secs) / 86400) = date.
Proof.
  assert (G : forall secs,
             (if (secs <? -9223372036854775808) || (9223372036854775807 <? secs) then
                Err (OtherError "timestamp out of range for platform time_t")
              else
                '(y, m, d, sod) <- localtime utcoffset secs ;;
                result_seconds <- utc_to_seconds y m d sod ;;
                probe_seconds <- local utcoffset (secs - max_fold_seconds) ;;
                let transition := result_seconds - probe_seconds - max_fold_seconds in
                _ <- (if transition <? 0 then local utcoffset (secs + transition)
                      else Ok probe_seconds) ;;
                Ok (y, m, d)) = Ok date ->
             1 <= fst (fst date) <= 9999 /\
             civil_from_days ((secs + utcoffset secs) / 86400) = date).
  { intros secs H.
    destruct ((secs <? -9223372036854775808) || (9223372036854775807 <? secs));
      [discriminate|].
    destruct (localtime utcoffset secs) as [[[[y m] d] sod]|e] eqn:El;
      [|discriminate].
    cbn [bind] in H.
    destruct (utc_to_seconds y m d sod) as [rs|e] eqn:Eu; [|discriminate].
    cbn [bind] in H.
    destruct (local utcoffset (secs - max_fold_seconds)) as [ps|e]; [|discriminate].
    cbn [bind] in H. cbv zeta in H.
    destruct (if rs - ps - max_fold_seconds <? 0
              then local utcoffset (secs + (rs - ps - max_fold_seconds))
              else Ok ps) as [x|e]; [|discriminate].
    cbn [bind] in H. injection H as <-.
    apply utc_to_seconds_inv in Eu. split; [exact Eu|].
    now apply localtime_inv in El. }
  unfold fromtimestamp.
  destruct t as [|b|z| | |]; try discriminate; intros H.
  - exists (if b then 1 else 0). split; [reflexivity|].
    apply G. destruct b; exact H.
  - exists z. split; [reflexivity|]. apply G. exact H.
Qed.

(** Before the year 1000 no date reaches the ordinal of 1000-01-01. *)
Lemma ord_before_1000 (y m d : Z) :
  1 <= y < 1000 -> valid_date (y, m, d) = true -> ymd_to_ord y m d < 364878.
Proof.
  intros Hy Hv. unfold valid_date in Hv.
  repeat (apply andb_true_iff in Hv; destruct Hv as (Hv & ?)).
  assert (Hm : 1 <= m < 1 + 12) by (apply Z.leb_le in Hv, H1; lia).
  apply Z.leb_le in H.
  pose proof (Z_range_forall
                (fun y => forallb (fun m => ymd_to_ord y m (days_in_month y m) <=? 364877)
                                  (zrange 1 12))
                1 999 ltac:(vm_compute; reflexivity) y ltac:(lia)) as Hall.
  cbv beta in Hall. rewrite forallb_forall in Hall.
  specialize (Hall m (zrange_In 12 1 m Hm)). apply Z.leb_le in Hall.
  unfold ymd_to_ord in *. lia.
Qed.

(** ** Date texts *)

Lemma code_digit (n : Z) : code (digit n) = (48 + Z.to_N (n mod 10))%N.
Proof.
  unfold code, digit. apply N_ascii_embedding.
  pose proof (Z.mod_pos_bound n 10 eq_refl). lia.
Qed.

Lemma is_digit_digit (n : Z) : is_digit (digit n) = true.
Proof.
  unfold is_digit. rewrite code_digit.
  pose proof (Z.mod_pos_bound n 10 eq_refl).
  apply andb_true_intro. split; apply N.leb_le; lia.
Qed.

Lemma digit_val_digit (n : Z) : digit_val (digit n) = n mod 10.
Proof.
  unfold digit_val. rewrite code_digit.
  pose proof (Z.mod_pos_bound n 10 eq_refl). lia.
Qed.

Lemma is_digit_not_hyphen (c : ascii) :
  is_digit c = true -> Ascii.eqb c "-" = false.
Proof.
  intros H. destruct (Ascii.eqb c "-") eqn:E; [|reflexivity].
  apply Ascii.eqb_eq in E. subst c. discriminate.
Qed.

Lemma fields_digits (l : list ascii) :
  forallb is_digit l = true -> fields "-" l = [l].
Proof.
  induction l as [|c l IH]; [reflexivity|]. simpl. intros H.
  apply andb_true_iff in H. destruct H as (Hc & Hl).
  rewrite (is_digit_not_hyphen c Hc), (IH Hl). reflexivity.
Qed.

Lemma fields_app (l r : list ascii) :
  forallb is_digit l = true ->
  fields "-" (l ++ "-"%char :: r) = l :: fields "-" r.
Proof.
  induction l as [|c l IH]; [reflexivity|]. simpl. intros H.
  apply andb_true_iff in H. destruct H as (Hc & Hl).
  rewrite (is_digit_not_hyphen c Hc), (IH Hl). reflexivity.
Qed.

(** Checked on each of the years 1 to 9999: the year is printed in at most
    four digits that read back as the year, four of them from the year
    1000 on. *)
Lemma year_text (y : Z) :
  1 <= y <= 9999 ->
  forallb is_digit (chars (str_of_Z y)) = true /\
  read_number (chars (str_of_Z y)) = Some y /\
  (List.length (chars (str_of_Z y)) <= 4)%nat /\
  (List.length (chars (str_of_Z y)) =? 4)%nat = (1000 <=? y).
Proof.
  intros Hy.
  pose proof (Z_range_forall
                (fun y => let l := chars (str_of_Z y) in
                          forallb is_digit l
                          && match read_number l with
                             | Some v => v =? y
                             | None => false
                             end
                          && (List.length l <=? 4)%nat
                          && Bool.eqb (List.length l =? 4)%nat (1000 <=? y))
                1 9999 ltac:(vm_compute; reflexivity) y ltac:(lia)) as H.
  cbv zeta in H.
  apply andb_true_iff in H. destruct H as (H & H4).
  apply andb_true_iff in H. destruct H as (H & H3).
  apply andb_true_iff in H. destruct H as (H1 & H2).
  split; [exact H1|]. split; [|split].
  - destruct (read_number (chars (str_of_Z y))) as [v|]; [|discriminate].
    apply Z.eqb_eq in H2. now subst v.
  - now apply Nat.leb_le in H3.
  - now apply Bool.eqb_prop in H4.
Qed.

Lemma two_digits (n : Z) :
  0 <= n < 100 -> 10 * ((n / 10) mod 10) + n mod 10 = n.
Proof. intros Hn. Z.div_mod_to_equations. lia. Qed.

Lemma read_number_fmt2 (n : Z) :
  0 <= n < 100 -> read_number (fmt2 n) = Some n.
Proof.
  intros Hn. unfold read_number, fmt2.
  cbn [forallb fold_left]. rewrite !is_digit_digit, !digit_val_digit.
  cbn [andb]. f_equal. rewrite <- (two_digits n Hn) at 3. lia.
Qed.

(** The text of a date reads back as the date. *)
Lemma read_date_strftime (y m d : Z) :
  1 <= y <= 9999 -> 1 <= m <= 12 -> 1 <= d <= 31 ->
  read_date (strftime_ymd (y, m, d)) = Some (y, m, d).
Proof.
  intros Hy Hm Hd. destruct (year_text y Hy) as (Hdig & Hread & _ & _).
  pose proof (read_number_fmt2 m ltac:(lia)) as Hrm.
  pose proof (read_number_fmt2 d ltac:(lia)) as Hrd.
  assert (Hdm : forallb is_digit (fmt2 m) = true)
    by (cbn [fmt2 forallb]; now rewrite !is_digit_digit).
  assert (Hdd : forallb is_digit (fmt2 d) = true)
    by (cbn [fmt2 forallb]; now rewrite !is_digit_digit).
  unfold read_date, strftime_ymd. rewrite chars_str_of.
  rewrite (fields_app _ _ Hdig), (fields_app _ _ Hdm), (fields_digits _ Hdd).
  unfold fmt2 in *. rewrite Hread, Hrm, Hrd. reflexivity.
Qed.

(** The text of a date has the form YYYY-MM-DD exactly from the year 1000
    on. *)
Lemma is_ymd_strftime (y m d : Z) :
  1 <= y <= 9999 -> 1 <= m <= 12 -> 1 <= d <= 31 ->
  is_ymd (strftime_ymd (y, m, d)) = (1000 <=? y).
Proof.
  intros Hy Hm Hd. destruct (year_text y Hy) as (Hdig & _ & Hmax & Hlen).
  unfold is_ymd, strftime_ymd. rewrite chars_str_of. rewrite <- Hlen.
  destruct (chars (str_of_Z y)) as [|a [|b [|c [|e [|f l]]]]]; try reflexivity;
    [|simpl in Hmax; lia].
  cbn [forallb] in Hdig.
  repeat (apply andb_true_iff in Hdig; destruct Hdig as (? & Hdig)).
  cbn [fmt2 app forallb List.length Nat.eqb].
  rewrite H, H0, H1, H2, !is_digit_digit, !digit_val_digit.
  cbn [andb Ascii.eqb Bool.eqb].
  rewrite !two_digits by lia.
  repeat (apply andb_true_intro; split); apply Z.leb_le; lia.
Qed.

Lemma valid_date_range (y m d : Z) :
  valid_date (y, m, d) = true -> 1 <= m <= 12 /\ 1 <= d <= 31.
Proof.
  unfold valid_date, days_in_month. intros H.
  repeat (apply andb_true_iff in H; destruct H as (H & ?)).
  apply Z.leb_le in H, H0, H1, H2. split; [lia|]. split; [lia|].
  assert (Hm : m = 1 \/ m = 2 \/ m = 3 \/ m = 4 \/ m = 5 \/ m = 6 \/ m = 7
               \/ m = 8 \/ m = 9 \/ m = 10 \/ m = 11 \/ m = 12) by lia.
  destruct (is_leap y);
    repeat (destruct Hm as [-> | Hm]; [simpl in H0; lia|]); subst m; simpl in H0; lia.
Qed.

(** ** [get_commit_activity] *)

Lemma recent_weeks_skipn (activity : list json) :
  recent_weeks activity = skipn (List.length activity - 12) activity.
Proof.
  unfold recent_weeks. destruct (12 <? List.length activity)%nat eqn:E.
  - reflexivity.
  - apply Nat.ltb_ge in E.
    replace (List.length activity - 12)%nat with 0%nat by lia. reflexivity.
Qed.

Lemma get_commit_activity_unfold (utcoffset : Z -> Z) (s : session)
    (owner repo : string) :
  get_commit_activity utcoffset s owner repo =
  (out <- mapM (week_entry utcoffset)
            (recent_weeks
               (payload_items (_make_request s (commit_activity_url owner repo) None))) ;;
   Ok (JList out)).
Proof.
  unfold get_commit_activity.
  destruct (_make_request s (commit_activity_url owner repo) None)
    as [| | | |l|]; simpl; rewrite ?andb_false_r; try reflexivity.
  destruct l; reflexivity.
Qed.

(** What one entry of the result is made of. *)
Lemma week_entry_inv (utcoffset : Z -> Z) (week e : json) :
  week_entry utcoffset week = Ok e ->
  exists kvs secs date,
    week = JObj kvs /\
    epoch_of week = Some secs /\
    civil_from_days ((secs + utcoffset secs) / 86400) = date /\
    1 <= fst (fst date) <= 9999 /\
    e = JObj [("week", JStr (strftime_ymd date));
              ("total", lookup_or "total" kvs (JNum 0));
              ("days", lookup_or "days" kvs (JList (repeat (JNum 0) 7)))].
Proof.
  unfold week_entry. intros H.
  destruct week as [| | | | |kvs]; try discriminate.
  cbn [py_get bind] in H.
  destruct (fromtimestamp utcoffset
              match lookup "week" kvs with Some x => x | None => JNum 0 end)
    as [date|err] eqn:Ef; [|discriminate].
  cbn [bind] in H. injection H as <-.
  apply fromtimestamp_inv in Ef. destruct Ef as (secs & Hs & Hy & Hd).
  exists kvs, secs, date. split; [reflexivity|]. split.
  - unfold epoch_of. cbn [py_get].
    destruct (match lookup "week" kvs with Some x => x | None => JNum 0 end);
      try discriminate; exact Hs.
  - repeat split; try assumption; lia.
Qed.



(** ** [get_comprehensive_stats] *)

(** Every outcome of a request other than status 200 with a decodable body
    is [None]. *)
Lemma _make_request_none (s : session) (url : string)
    (params : option (list (string * json))) :
  (forall body, s url params <> Response 200 (Ok body)) ->
  _make_request s url params = JNull.
Proof.
  unfold _make_request. intros H.
  destruct (s url params) as [status body| |msg]; try reflexivity.
  destruct (status =? 200) eqn:E.
  - apply Z.eqb_eq in E. subst. destruct body as [v|e]; [|reflexivity].
    now destruct (H v).
  - destruct (status =? 404), (status =? 403); reflexivity.
Qed.

(** Without a payload every fetcher returns its empty result. *)
Lemma fetchers_without_payload (utcoffset : Z -> Z) (s : session) (owner repo : string) :
  (_make_request s (repo_info_url owner repo) None = JNull ->
   get_repo_info s owner repo = Ok (empty_default RepoInfo)) /\
  (forall n, _make_request s (contributors_url owner repo)
                (Some [("per_page", JNum n); ("anon", JStr "false")]) = JNull ->
   get_contributors s owner repo n = Ok (empty_default Contributors)) /\
  (forall st n, _make_request s (pulls_url owner repo) (Some (list_params st n)) = JNull ->
   get_pull_requests s owner repo st n = Ok (empty_default PullRequests)) /\
  (forall st n, _make_request s (issues_url owner repo) (Some (list_params st n)) = JNull ->
   get_issues s owner repo st n = Ok (empty_default Issues)) /\
  (_make_request s (commit_activity_url owner repo) None = JNull ->
   get_commit_activity utcoffset s owner repo = Ok (empty_default CommitActivity)) /\
  (_make_request s (languages_url owner repo) None = JNull ->
   get_languages s owner repo = Ok (empty_default Languages)) /\
  (forall n, _make_request s (releases_url owner repo) (Some [("per_page", JNum n)]) = JNull ->
   get_releases s owner repo n = Ok (empty_default Releases)).
Proof.
  unfold get_repo_info, get_contributors, get_pull_requests, get_issues,
    get_commit_activity, get_languages, get_releases.
  repeat split; intros; rewrite H; reflexivity.
Qed.

(** The repository-info fetch itself never raises. *)
Lemma get_repo_info_returns (s : session) (owner repo : string) :
  get_repo_info s owner repo = Ok (_make_request s (repo_info_url owner repo) None).
Proof. reflexivity. Qed.

(** An exception in a category is handled like that category's empty
    result. *)
Lemma assemble_exception_is_default (owner repo : string) (c : category)
    (e : exn) (g : gathered) :
  assemble owner repo (set_outcome c (Err e) g)
  = assemble owner repo (set_outcome c (Ok (empty_default c)) g).
Proof. destruct c; reflexivity. Qed.

Lemma assemble_repo_info_absent (owner repo : string) (g : gathered) :
  absent RepoInfo (g_repo_info g) ->
  assemble owner repo g = Err (ValueError (not_found_message owner repo)).
Proof.
  unfold assemble. intros [[e ->] | ->]; reflexivity.
Qed.

(** Rewrites with the successful steps found in the context. *)
Ltac use_ok :=
  repeat match goal with
  | H : ?c = Ok _ |- context [?c] => rewrite H; cbn [bind]
  end.

(** With a category other than the repository info failed, the aggregation
    still succeeds if it did before; the failed category shows its empty
    result and every other section is what it was. *)
Lemma assemble_absent_category (owner repo : string) (c : category)
    (x : result json) (g : gathered) (r : json) :
  c <> RepoInfo -> absent c x ->
  assemble owner repo g = Ok r ->
  exists r',
    assemble owner repo (set_outcome c x g) = Ok r' /\
    field "status" r' = Some (JStr "success") /\
    field (section_key c) r' = Some (empty_default c) /\
    (forall c', c' <> c -> field (section_key c') r' = field (section_key c') r).
Proof.
  intros Hc Habs H.
  assert (E : assemble owner repo (set_outcome c x g)
              = assemble owner repo (set_outcome c (Ok (empty_default c)) g)).
  { destruct Habs as [[e ->] | ->]; [apply assemble_exception_is_default | reflexivity]. }
  rewrite E. clear E Habs x.
  destruct g as [ri co pr iss ca la re]. unfold assemble in *.
  cbn [g_repo_info g_contributors g_pull_requests g_issues g_commit_activity
       g_languages g_releases] in H.
  destruct (negb (truthy (or_default ri JNull))) eqn:T; [discriminate|].
  bind_inv H. injection H as <-. unfold metrics_section in Hx1. bind_inv Hx1.
  destruct c; try congruence;
    cbn [set_outcome empty_default g_repo_info g_contributors g_pull_requests
         g_issues g_commit_activity g_languages g_releases or_default];
    rewrite T; unfold metrics_section; cbn [total_commits_of truthy bind py_len];
    use_ok;
    cbn [pr_stats issue_stats py_get lookup String.eqb Ascii.eqb Bool.eqb bind];
    use_ok;
    (eexists; split; [reflexivity|]; split; [reflexivity|]; split; [reflexivity|];
     intros c' Hc'; destruct c'; try congruence; reflexivity).
Qed.

(** C3.  When the repository-info request brings no payload (a 404 or any
    other outcome that [_make_request] turns into [None]), or when that
    fetch raised, [get_comprehensive_stats] raises the [ValueError] that
    reads "Repository owner/repo not found", whatever the six other fetches
    produced.  No other category has that effect: if the aggregation
    succeeds, it still succeeds with any of the six others failed. *)
Theorem repo_info_absent_is_not_found (utcoffset : Z -> Z) (s : session)
    (owner repo : string) :
  (_make_request s (repo_info_url owner repo) None = JNull ->
   get_comprehensive_stats utcoffset s owner repo
   = Err (ValueError ("Repository " ++ owner ++ "/" ++ repo ++ " not found"))) /\
  (forall g, absent RepoInfo (g_repo_info g) ->
   assemble owner repo g
   = Err (ValueError ("Repository " ++ owner ++ "/" ++ repo ++ " not found"))) /\
  (forall c x g, c <> RepoInfo -> absent c x ->
   is_ok (assemble owner repo g) = true ->
   is_ok (assemble owner repo (set_outcome c x g)) = true).
Proof.
  split; [|split].
  - intros H. unfold get_comprehensive_stats.
    apply assemble_repo_info_absent. right. simpl.
    unfold get_repo_info. rewrite H. reflexivity.
  - intros g. apply assemble_repo_info_absent.
  - intros c x g Hc Habs Hok.
    destruct (assemble owner repo g) as [r|e] eqn:E; [|discriminate].
    destruct (assemble_absent_category owner repo c x g r Hc Habs E) as (r' & -> & _).
    reflexivity.
Qed.

(** C4.  A category fetch that raised is replaced by that category's empty
    result, and the aggregation goes on as if the fetch had returned it.
    For each of the six categories other than the repository info, an
    aggregation that succeeds keeps succeeding when that category fails:
    the status stays "success", the failed section is empty and all other
    sections are untouched.  With the contributors fetch failed, the
    envelope has an empty [contributors] list and
    [metrics.total_contributors] is 0. *)
Theorem category_failure_is_absorbed (owner repo : string) (g : gathered) :
  (forall c e,
     assemble owner repo (set_outcome c (Err e) g)
     = assemble owner repo (set_outcome c (Ok (empty_default c)) g)) /\
  (forall c x r, c <> RepoInfo -> absent c x ->
     assemble owner repo g = Ok r ->
     exists r',
       assemble owner repo (set_outcome c x g) = Ok r' /\
       field "status" r' = Some (JStr "success") /\
       field (section_key c) r' = Some (empty_default c) /\
       (forall c', c' <> c -> field (section_key c') r' = field (section_key c') r)) /\
  (forall x r, absent Contributors x ->
     assemble owner repo g = Ok r ->
     exists r' metrics,
       assemble owner repo (set_outcome Contributors x g) = Ok r' /\
       field "status" r' = Some (JStr "success") /\
       field "contributors" r' = Some (JList []) /\
       field "metrics" r' = Some metrics /\
       field "total_contributors" metrics = Some (JNum 0)).
Proof.
  split; [|split].
  - intros c e. apply assemble_exception_is_default.
  - intros c x r. apply assemble_absent_category.
  - intros x r Habs H.
    assert (Hc : Contributors <> RepoInfo) by discriminate.
    destruct (assemble_absent_category owner repo Contributors x g r Hc Habs H)
      as (r' & Hr' & Hst & Hco & _).
    assert (E : assemble owner repo (set_outcome Contributors x g)
                = assemble owner repo (set_outcome Contributors (Ok (JList [])) g)).
    { destruct Habs as [[e ->] | ->]; reflexivity. }
    rewrite E in Hr'. rewrite E. clear E.
    pose proof Hr' as K. unfold assemble in K.
    cbn [set_outcome g_repo_info g_contributors g_pull_requests g_issues
         g_commit_activity g_languages g_releases or_default] in K.
    destruct (negb (truthy (or_default (g_repo_info g) JNull))); [discriminate|].
    bind_inv K. unfold metrics_section in Hx1. bind_inv Hx1.
    injection Hx1 as <-. injection K as <-. injection Hx2 as <-.
    eexists. eexists. split; [exact Hr'|]. repeat split.
Qed.

(** *** Metrics *)

Lemma py_sum_totals (weeks : list json) (acc n : Z) :
  py_sum (fun week => py_get week "total" (JNum 0)) weeks acc = Ok n ->
  n = acc + sum_totals weeks.
Proof.
  revert acc. induction weeks as [|w weeks IH]; intros acc H; simpl in H.
  - injection H as <-. simpl. lia.
  - bind_inv H. apply IH in H. subst n. simpl.
    destruct w as [| | | | |kvs]; try discriminate.
    unfold total_of. simpl in *. injection Hx as <-.
    destruct (lookup "total" kvs) as [v|]; simpl in Hx0.
    + destruct v as [|b|z| | |]; try discriminate;
        injection Hx0 as <-; [destruct b|]; lia.
    + injection Hx0 as <-. lia.
Qed.

Lemma total_commits_of_list (weeks : list json) (n : Z) :
  total_commits_of (JList weeks) = Ok n -> n = sum_totals weeks.
Proof.
  unfold total_commits_of. destruct weeks as [|w weeks].
  - simpl. now intros [= <-].
  - cbn [truthy py_iter bind]. intros H. apply py_sum_totals in H. lia.
Qed.

(** What the fetchers hand to the aggregation, exceptions replaced. *)
Lemma contributors_is_list (s : session) (owner repo : string) (n : Z) :
  exists l, or_default (get_contributors s owner repo n) (JList []) = JList l.
Proof.
  unfold get_contributors.
  destruct (truthy _ && is_list _); [|simpl; eauto].
  destruct (py_iter _) as [cs|e]; [|simpl; eauto]. cbn [bind].
  destruct (mapM contributor_entry cs) as [out|e]; simpl; eauto.
Qed.

Lemma commit_activity_is_list (utcoffset : Z -> Z) (s : session) (owner repo : string) :
  exists l, or_default (get_commit_activity utcoffset s owner repo) (JList []) = JList l.
Proof.
  rewrite get_commit_activity_unfold.
  destruct (mapM _ _) as [out|e]; simpl; eauto.
Qed.

Lemma pull_requests_is_stats (s : session) (owner repo state : string) (n : Z) :
  exists o c m t ds,
    or_default (get_pull_requests s owner repo state n) (pr_stats 0 0 0 0 [])
    = pr_stats o c m t ds.
Proof.
  unfold get_pull_requests.
  destruct (negb _ || negb _); [simpl; eauto 6|].
  destruct (py_iter _) as [items|e]; [|simpl; eauto 6]. cbn [bind].
  destruct (pr_loop items _) as [acc|e]; [|simpl; eauto 6]. cbn [bind].
  destruct (py_len _) as [k|e]; simpl; eauto 6.
Qed.

Lemma issues_is_stats (s : session) (owner repo state : string) (n : Z) :
  exists o c t ds,
    or_default (get_issues s owner repo state n) (issue_stats 0 0 0 [])
    = issue_stats o c t ds.
Proof.
  unfold get_issues.
  destruct (negb _ || negb _); [simpl; eauto 6|].
  destruct (py_iter _) as [items|e]; [|simpl; eauto 6]. cbn [bind].
  destruct (filterM _ items) as [actual|e]; [|simpl; eauto 6]. cbn [bind].
  destruct (py_count (state_is "open") actual 0) as [o|e]; [|simpl; eauto 6]. cbn [bind].
  destruct (py_count (state_is "closed") actual 0) as [c|e]; [|simpl; eauto 6]. cbn [bind].
  destruct (mapM issue_detail actual) as [ds|e]; simpl; eauto 6.
Qed.

(** C8.  In every envelope [get_comprehensive_stats] returns,
    [metrics.total_commits_recent] is the sum of [total] over the weeks of
    [commit_activity], [metrics.open_prs] is [pull_requests.open],
    [metrics.open_issues] is [issues.open] and
    [metrics.total_contributors] is the length of [contributors].  The
    envelope is a function of what the seven fetches returned: a session
    that answers those fetches alike gives the same envelope. *)
Theorem metrics_from_fetched_data (utcoffset : Z -> Z) (s : session)
    (owner repo : string) (r : json) :
  get_comprehensive_stats utcoffset s owner repo = Ok r ->
  (exists metrics contributors pull_requests issues weeks,
     field "metrics" r = Some metrics /\
     field "contributors" r = Some (JList contributors) /\
     field "pull_requests" r = Some pull_requests /\
     field "issues" r = Some issues /\
     field "commit_activity" r = Some (JList weeks) /\
     field "total_commits_recent" metrics = Some (JNum (sum_totals weeks)) /\
     (exists n, field "open" pull_requests = Some n /\
                field "open_prs" metrics = Some n) /\
     (exists n, field "open" issues = Some n /\
                field "open_issues" metrics = Some n) /\
     field "total_contributors" metrics
       = Some (JNum (Z.of_nat (List.length contributors)))) /\
  (forall s', gather utcoffset s' owner repo = gather utcoffset s owner repo ->
     get_comprehensive_stats utcoffset s' owner repo = Ok r).
Proof.
  intros H. split.
  2:{ intros s' Hs'. unfold get_comprehensive_stats. rewrite Hs'. exact H. }
  unfold get_comprehensive_stats, assemble, gather in H.
  cbn [g_repo_info g_contributors g_pull_requests g_issues g_commit_activity
       g_languages g_releases] in H.
  destruct (contributors_is_list s owner repo 30) as (cs & Ecs).
  destruct (commit_activity_is_list utcoffset s owner repo) as (weeks & Ew).
  destruct (pull_requests_is_stats s owner repo "all" 50) as (o & c & m & t & ds & Ep).
  destruct (issues_is_stats s owner repo "all" 50) as (o' & c' & t' & ds' & Ei).
  rewrite Ecs, Ew, Ep, Ei in H.
  destruct (negb (truthy _)); [discriminate|].
  bind_inv H. injection H as <-.
  match goal with
  | K : total_commits_of _ = Ok _ |- _ => apply total_commits_of_list in K; subst
  end.
  match goal with
  | K : metrics_section _ _ _ _ _ = Ok _ |- _ =>
      unfold metrics_section in K; bind_inv K; injection K as <-
  end.
  repeat match goal with
  | K : py_len (JList _) = Ok _ |- _ => simpl in K; injection K as <-
  | K : py_get (pr_stats _ _ _ _ _) _ _ = Ok _ |- _ => simpl in K; injection K as <-
  | K : py_get (issue_stats _ _ _ _) _ _ = Ok _ |- _ => simpl in K; injection K as <-
  end.
  eexists. exists cs, (pr_stats o c m t ds), (issue_stats o' c' t' ds'), weeks.
  repeat split; try reflexivity; eexists; split; reflexivity.
Qed.

(** ** [analyze_repository] *)

Lemma first_match_error (ps : list Re.regex) (repo_input : string) (e : exn) :
  first_match ps repo_input = Err e ->
  e = ValueError (invalid_format_message repo_input).
Proof.
  induction ps as [|p ps IH]; simpl.
  - now intros [= <-].
  - destruct (Re.search p repo_input); [discriminate | exact IH].
Qed.

(** A parse failure becomes a 400 whose detail is the parser's message,
    which names both accepted syntaxes. *)
Lemma analyze_parse_failure (cfg : settings) (utcoffset : Z -> Z) (s : session)
    (repo_url : string) (e : exn) :
  parse_repo_url repo_url = Err e ->
  analyze_repository cfg utcoffset s repo_url
  = Err (HTTPException 400 (invalid_format_message (normalize repo_url))).
Proof.
  intros H. unfold analyze_repository, analyze_body. rewrite H.
  apply first_match_error in H. subst e. reflexivity.
Qed.

(** With a token configured, a repository the upstream does not know
    becomes a 404 whose detail names [owner/repo]. *)
Lemma analyze_not_found (cfg : settings) (utcoffset : Z -> Z) (s : session)
    (repo_url owner repo : string) :
  parse_repo_url repo_url = Ok (owner, repo) ->
  service_init cfg = Ok tt ->
  _make_request s (repo_info_url owner repo) None = JNull ->
  analyze_repository cfg utcoffset s repo_url
  = Err (HTTPException 404 ("Repository " ++ owner ++ "/" ++ repo ++ " not found")).
Proof.
  intros Hp Hc Hr. unfold analyze_repository, analyze_body.
  rewrite Hp. cbn [bind]. rewrite Hc. cbn [bind].
  unfold get_comprehensive_stats.
  rewrite assemble_repo_info_absent; [reflexivity|].
  right. simpl. unfold get_repo_info. rewrite Hr. reflexivity.
Qed.

(** An exception of another class that escapes the aggregation becomes a
    500 whose detail ends with the text of the exception. *)
Lemma analyze_unexpected (cfg : settings) (utcoffset : Z -> Z) (s : session)
    (repo_url owner repo : string) (e : exn) :
  parse_repo_url repo_url = Ok (owner, repo) ->
  service_init cfg = Ok tt ->
  get_comprehensive_stats utcoffset s owner repo = Err e ->
  (forall m, e <> ValueError m) -> (forall c d, e <> HTTPException c d) ->
  analyze_repository cfg utcoffset s repo_url
  = Err (HTTPException 500 ("Failed to analyze repository: " ++ exn_str e)).
Proof.
  intros Hp Hc Hr Hv Hh. unfold analyze_repository, analyze_body.
  rewrite Hp. cbn [bind]. rewrite Hc. cbn [bind]. rewrite Hr.
  destruct e as [m|m|m|m|c d]; try reflexivity.
  - now destruct (Hv m).
  - now destruct (Hh c d).
Qed.

(** *** Which exceptions can escape the aggregation *)

Lemma bind_err {A B : Type} (c : result A) (f : A -> result B) (e : exn) :
  bind c f = Err e -> c = Err e \/ exists a, c = Ok a /\ f a = Err e.
Proof.
  destruct c as [a|e']; simpl; intros H; [eauto|].
  left. injection H as ->. reflexivity.
Qed.

Lemma py_get_err (v : json) (k : string) (d : json) (e : exn) :
  py_get v k d = Err e -> runtime_error e.
Proof. destruct v; simpl; intros [= <-]; eexists; eauto. Qed.

Lemma py_iter_err (v : json) (e : exn) : py_iter v = Err e -> runtime_error e.
Proof. destruct v; simpl; intros [= <-]; eexists; eauto. Qed.

Lemma py_len_err (v : json) (e : exn) : py_len v = Err e -> runtime_error e.
Proof. destruct v; simpl; intros [= <-]; eexists; eauto. Qed.

Lemma py_add_err (acc : Z) (v : json) (e : exn) :
  py_add acc v = Err e -> runtime_error e.
Proof. destruct v; simpl; intros [= <-]; eexists; eauto. Qed.

Create HintDb raises.
#[local] Hint Resolve py_get_err py_iter_err py_len_err py_add_err : raises.

(** Follows a failing sequence of binds down to the step that failed. *)
Ltac bind_err_inv H :=
  repeat (apply bind_err in H;
          destruct H as [H | (? & _ & H)]; [solve [eauto with raises]|]).

Lemma py_sum_err (ws : list json) (acc : Z) (e : exn) :
  py_sum (fun week => py_get week "total" (JNum 0)) ws acc = Err e ->
  runtime_error e.
Proof.
  revert acc. induction ws as [|w ws IH]; intros acc H; simpl in H; [discriminate|].
  bind_err_inv H. eauto.
Qed.

Lemma total_commits_of_err (v : json) (e : exn) :
  total_commits_of v = Err e -> runtime_error e.
Proof.
  unfold total_commits_of. destruct (truthy v); [|discriminate].
  intros H. bind_err_inv H. eauto using py_sum_err.
Qed.

Lemma license_name_err (v : json) (e : exn) :
  license_name v = Err e -> runtime_error e.
Proof.
  unfold license_name. intros H.
  apply bind_err in H. destruct H as [H | (l & _ & H)]; [eauto with raises|].
  destruct (truthy l); [|discriminate].
  bind_err_inv H. eauto with raises.
Qed.

Lemma repository_section_err (v : json) (e : exn) :
  repository_section v = Err e -> runtime_error e.
Proof.
  unfold repository_section. intros H.
  repeat (apply bind_err in H;
          destruct H as [H | (? & _ & H)];
          [solve [eauto using license_name_err with raises]|]).
  discriminate.
Qed.

Lemma metrics_section_err (ri co pr iss : json) (n : Z) (e : exn) :
  metrics_section ri co pr iss n = Err e -> runtime_error e.
Proof.
  unfold metrics_section. intros H. bind_err_inv H. discriminate.
Qed.

(** The aggregation raises the not-found [ValueError] or lets a runtime
    error of an ill-shaped payload through, and nothing else. *)
Lemma assemble_err (owner repo : string) (g : gathered) (e : exn) :
  assemble owner repo g = Err e ->
  e = ValueError (not_found_message owner repo) \/ runtime_error e.
Proof.
  unfold assemble. destruct (negb (truthy _)).
  - intros [= <-]. now left.
  - intros H. right.
    repeat (apply bind_err in H;
            destruct H as [H | (? & _ & H)];
            [solve [eauto using total_commits_of_err, repository_section_err,
                      metrics_section_err]|]).
    discriminate.
Qed.

(** With a token configured the handler maps every outcome as the contract
    says: a parse failure to 400, the not-found failure to 404 naming
    [owner/repo], every other failure of the aggregation to 500 with the
    text of the failure, and a success to the envelope. *)
Lemma analyze_repository_with_token (cfg : settings) (utcoffset : Z -> Z)
    (s : session) (repo_url : string) :
  service_init cfg = Ok tt ->
  match parse_repo_url repo_url with
  | Err _ =>
      analyze_repository cfg utcoffset s repo_url
      = Err (HTTPException 400 (invalid_format_message (normalize repo_url)))
  | Ok (owner, repo) =>
      match get_comprehensive_stats utcoffset s owner repo with
      | Ok envelope => analyze_repository cfg utcoffset s repo_url = Ok envelope
      | Err e =>
          (e = ValueError (not_found_message owner repo) /\
           analyze_repository cfg utcoffset s repo_url
           = Err (HTTPException 404 ("Repository " ++ owner ++ "/" ++ repo ++ " not found")))
          \/
          (runtime_error e /\
           analyze_repository cfg utcoffset s repo_url
           = Err (HTTPException 500 ("Failed to analyze repository: " ++ exn_str e)))
      end
  end.
Proof.
  intros Hc. destruct (parse_repo_url repo_url) as [[owner repo]|e] eqn:Hp.
  - destruct (get_comprehensive_stats utcoffset s owner repo) as [env|e] eqn:Hg.
    + unfold analyze_repository, analyze_body.
      rewrite Hp. cbn [bind]. rewrite Hc. cbn [bind]. rewrite Hg. reflexivity.
    + pose proof Hg as He. unfold get_comprehensive_stats in He.
      apply assemble_err in He. destruct He as [-> | He].
      * left. split; [reflexivity|].
        unfold analyze_repository, analyze_body.
        rewrite Hp. cbn [bind]. rewrite Hc. cbn [bind]. rewrite Hg. reflexivity.
      * right. split; [exact He|].
        apply (analyze_unexpected cfg utcoffset s repo_url owner repo e Hp Hc Hg);
          destruct He as (m & [-> | ->]); discriminate.
  - eapply analyze_parse_failure. exact Hp.
Qed.

(** C5 (fails on the code).  The claim sends every failure other than a
    parse failure and a repository that was not found to a 500.  With no
    GitHub token configured, the constructor of the service raises a
    [ValueError]; the handler takes it for the not-found case and answers
    404 with the detail "GitHub token not configured in environment
    variables", which names no repository.  This holds for a well-formed
    request, whatever the upstream would have answered. *)
Theorem analyze_repository_missing_token (utcoffset : Z -> Z) (s : session) :
  parse_repo_url "octocat/Hello-World" = Ok ("octocat", "Hello-World") /\
  analyze_repository (Settings None) utcoffset s "octocat/Hello-World"
  = Err (HTTPException 404 "GitHub token not configured in environment variables") /\
  analyze_repository (Settings (Some "")) utcoffset s "octocat/Hello-World"
  = Err (HTTPException 404 "GitHub token not configured in environment variables").
Proof.
  assert (H : parse_repo_url "octocat/Hello-World" = Ok ("octocat", "Hello-World"))
    by (vm_compute; reflexivity).
  split; [exact H|].
  unfold analyze_repository, analyze_body. rewrite H. split; reflexivity.
Qed.

(** ** The theorems at work on the sample upstream *)

Lemma get_pull_requests_counts_witness :
  exists r,
    get_pull_requests sample_session "octocat" "Hello-World" "all" 50 = Ok r /\
    exists (o c m : Z) (ds : list json),
      r = pr_stats o c m (o + c + m) ds /\
      o + c + m = Z.of_nat (List.length ds) /\
      Forall2 (fun pr d => exists st, pr_detail pr st = Ok d)
              (payload_items
                 (_make_request sample_session (pulls_url "octocat" "Hello-World")
                                (Some (list_params "all" 50))))
              ds.
Proof.
  eexists. split; [vm_compute; reflexivity|].
  apply (get_pull_requests_counts sample_session "octocat" "Hello-World" "all" 50).
  vm_compute. reflexivity.
Defined.

Lemma get_issues_excludes_pull_requests_witness :
  exists r,
    get_issues sample_session "octocat" "Hello-World" "all" 50 = Ok r /\
    field "total" r = Some (JNum 1).
Proof.
  assert (Hobj : Forall (fun i => is_object i = true)
                   (payload_items
                      (_make_request sample_session (issues_url "octocat" "Hello-World")
                                     (Some (list_params "all" 50)))))
    by (repeat (apply Forall_cons; [reflexivity|]); apply Forall_nil).
  destruct (get_issues_excludes_pull_requests
              sample_session "octocat" "Hello-World" "all" 50 Hobj)
    as (_ & Hret & Hpair).
  destruct Hret as (r & Hr);
    [repeat (apply Forall_cons; [vm_compute; reflexivity|]); apply Forall_nil|].
  exists r. split; [exact Hr|].
  eapply Hpair; [reflexivity | reflexivity | reflexivity | exact Hr].
Defined.


Lemma repo_info_absent_is_not_found_witness :
  get_comprehensive_stats utc sample_session "octocat" "Spoon-Knife"
  = Err (ValueError "Repository octocat/Spoon-Knife not found").
Proof.
  apply (proj1 (repo_info_absent_is_not_found utc sample_session "octocat" "Spoon-Knife")).
  reflexivity.
Defined.

Lemma category_failure_is_absorbed_witness :
  exists r' metrics,
    assemble "octocat" "Hello-World"
      (set_outcome Contributors
         (get_contributors sample_session_slow_contributors "octocat" "Hello-World" 30)
         (gather utc sample_session "octocat" "Hello-World"))
      = Ok r' /\
    field "status" r' = Some (JStr "success") /\
    field "contributors" r' = Some (JList []) /\
    field "metrics" r' = Some metrics /\
    field "total_contributors" metrics = Some (JNum 0).
Proof.
  eapply (proj2 (proj2 (category_failure_is_absorbed
                          "octocat" "Hello-World"
                          (gather utc sample_session "octocat" "Hello-World")))).
  - right. reflexivity.
  - vm_compute. reflexivity.
Defined.

Lemma metrics_from_fetched_data_witness :
  exists r metrics,
    get_comprehensive_stats utc sample_session "octocat" "Hello-World" = Ok r /\
    field "metrics" r = Some metrics /\
    field "total_commits_recent" metrics = Some (JNum 162) /\
    field "total_contributors" metrics = Some (JNum 2).
Proof.
  eassert (E : get_comprehensive_stats utc sample_session "octocat" "Hello-World" = Ok _)
    by (vm_compute; reflexivity).
  destruct (proj1 (metrics_from_fetched_data utc sample_session "octocat" "Hello-World" _ E))
    as (metrics & cs & prs & iss & weeks & Hm & Hc & _ & _ & Hw & Htot & _ & _ & Hn).
  vm_compute in Hw. injection Hw as <-.
  vm_compute in Hc. injection Hc as <-.
  eexists. exists metrics.
  split; [exact E|]. split; [exact Hm|]. split; [exact Htot | exact Hn].
Defined.

(* ===================================================================== *)
(** * Further properties of the code *)
(* ===================================================================== *)

(** ** Normalization in [parse_repo_url] *)

Lemma dropwhile_app_stop {A : Type} (p : A -> bool) (l m : list A) (x : A) :
  p x = false -> dropwhile p (l ++ x :: m) = (dropwhile p l ++ x :: m)%list.
Proof.
  intros Hx. induction l as [|y l IH]; simpl.
  - now rewrite Hx.
  - destruct (p y); [exact IH | reflexivity].
Qed.

Lemma dropwhile_all {A : Type} (p : A -> bool) (l m : list A) :
  forallb p l = true -> dropwhile p (l ++ m) = dropwhile p m.
Proof.
  induction l as [|y l IH]; simpl; [reflexivity|].
  intros H. apply andb_true_iff in H. destruct H as [Hy Hl].
  rewrite Hy. now apply IH.
Qed.

Lemma rdropwhile_app_all {A : Type} (p : A -> bool) (l m : list A) :
  forallb p m = true -> rdropwhile p (l ++ m) = rdropwhile p l.
Proof.
  intros H. unfold rdropwhile. rewrite rev_app_distr.
  rewrite dropwhile_all; [reflexivity|].
  rewrite forallb_forall in *. intros x Hx. apply H. now apply in_rev.
Qed.

Lemma rdropwhile_app_stop {A : Type} (p : A -> bool) (l m : list A) (x : A) :
  p x = false -> rdropwhile p (l ++ m ++ [x]) = (l ++ m ++ [x])%list.
Proof.
  intros Hx. unfold rdropwhile.
  rewrite app_assoc, rev_app_distr. simpl. rewrite Hx. simpl.
  rewrite rev_involutive. reflexivity.
Qed.

(** [rdropwhile] leaves alone a list whose last element fails the test. *)
Lemma rdropwhile_clean {A : Type} (p : A -> bool) (l : list A) :
  match rev l with x :: _ => p x = false | [] => True end ->
  rdropwhile p l = l.
Proof.
  unfold rdropwhile. destruct (rev l) as [|x l'] eqn:E.
  - intros _. apply (f_equal (@rev A)) in E. rewrite rev_involutive in E.
    now rewrite E.
  - intros Hx. simpl. rewrite Hx. rewrite <- E. apply rev_involutive.
Qed.

Lemma dropwhile_is_suffix {A : Type} (p : A -> bool) (l : list A) :
  exists pre, l = (pre ++ dropwhile p l)%list.
Proof.
  induction l as [|y l (pre & IH)]; simpl.
  - now exists [].
  - destruct (p y).
    + exists (y :: pre). simpl. now rewrite <- IH.
    + now exists [].
Qed.

(** The last element of what [dropwhile] keeps is the last element of the
    list. *)
Lemma rev_dropwhile_head {A : Type} (p : A -> bool) (l : list A) (x : A) (l' : list A) :
  rev (dropwhile p l) = x :: l' -> exists l'', rev l = x :: l''.
Proof.
  intros H. destruct (dropwhile_is_suffix p l) as (pre & E).
  apply (f_equal (@rev A)) in E. rewrite rev_app_distr, H in E. simpl in E. eauto.
Qed.

Lemma chars_strip_clean (s : string) :
  last_char_is isspace s = false ->
  chars (strip s) = dropwhile isspace (chars s).
Proof.
  unfold last_char_is, strip. intros H. rewrite chars_str_of.
  apply rdropwhile_clean.
  destruct (rev (dropwhile isspace (chars s))) as [|x l'] eqn:E; [exact I|].
  apply rev_dropwhile_head in E. destruct E as (l'' & E).
  rewrite E in H. exact H.
Qed.

Lemma append_empty (s : string) : s ++ "" = s.
Proof. induction s as [|c s IH]; simpl; [reflexivity | now rewrite IH]. Qed.

Lemma last_char_is_app (p : ascii -> bool) (s : string) (l : list ascii) (x : ascii) :
  last_char_is p (s ++ str_of (l ++ [x])) = p x.
Proof.
  unfold last_char_is. rewrite chars_app, chars_str_of.
  rewrite app_assoc, rev_app_distr. reflexivity.
Qed.

Lemma strip_outer_space (p : ascii -> bool) (l b : list ascii) :
  forallb p b = true ->
  rdropwhile p (dropwhile p (l ++ b)) = rdropwhile p (dropwhile p l).
Proof.
  intros Hb. induction l as [|y l IH]; simpl.
  - rewrite <- (app_nil_r b) at 1. rewrite dropwhile_all by exact Hb. reflexivity.
  - destruct (p y); [exact IH|].
    change (y :: (l ++ b)%list) with ((y :: l) ++ b)%list.
    now apply rdropwhile_app_all.
Qed.

(** White space around the input never matters: [parse_repo_url] gives the
    same answer, pair or error, with any white space added before and after
    the text. *)
Theorem parse_repo_url_ignores_outer_space (before after : list ascii) (s : string) :
  forallb isspace before = true -> forallb isspace after = true ->
  parse_repo_url (str_of before ++ s ++ str_of after) = parse_repo_url s.
Proof.
  intros Ha Hb. unfold parse_repo_url, normalize. do 3 f_equal.
  unfold strip. f_equal. rewrite !chars_app, !chars_str_of.
  rewrite dropwhile_all by exact Ha. now apply strip_outer_space.
Qed.

(** Trailing slashes never matter: on a text that does not end in white
    space, [parse_repo_url] gives the same answer with any number of
    slashes appended. *)
Theorem parse_repo_url_ignores_trailing_slashes (s : string) (slashes : list ascii) :
  last_char_is isspace s = false ->
  forallb (fun c => Ascii.eqb c "/") slashes = true ->
  parse_repo_url (s ++ str_of slashes) = parse_repo_url s.
Proof.
  intros Hs Hsl. unfold parse_repo_url, normalize. do 2 f_equal.
  destruct (rev slashes) as [|x l] eqn:E.
  - apply (f_equal (@rev ascii)) in E. rewrite rev_involutive in E. subst slashes.
    simpl. unfold str_of. simpl. now rewrite append_empty.
  - apply (f_equal (@rev ascii)) in E. rewrite rev_involutive in E. simpl in E.
    assert (Hx : Ascii.eqb x "/" = true).
    { rewrite forallb_forall in Hsl. apply Hsl. rewrite E. apply in_or_app. right.
      now left. }
    apply Ascii.eqb_eq in Hx. subst x.
    unfold rstrip. f_equal.
    rewrite chars_strip_clean by (rewrite E; apply last_char_is_app).
    rewrite chars_strip_clean by exact Hs.
    rewrite chars_app, chars_str_of.
    destruct slashes as [|c slashes']; [destruct (rev l); discriminate|].
    assert (Hc : Ascii.eqb c "/" = true) by (simpl in Hsl; now apply andb_true_iff in Hsl).
    apply Ascii.eqb_eq in Hc. subst c.
    rewrite dropwhile_app_stop by reflexivity.
    apply rdropwhile_app_all.
    rewrite forallb_forall in *. intros y Hy. simpl.
    specialize (Hsl y Hy). rewrite Hsl. reflexivity.
Qed.

(** A trailing [.git] never matters: on a text that ends neither in white
    space nor in a slash, [parse_repo_url] gives the same answer with
    [.git] appended. *)
Theorem parse_repo_url_ignores_git_suffix (s : string) :
  ends_clean s = true ->
  parse_repo_url (s ++ ".git") = parse_repo_url s.
Proof.
  intros Hs. unfold parse_repo_url, normalize. f_equal.
  unfold ends_clean, last_char_is in Hs. apply negb_true_iff in Hs.
  assert (Hsp : last_char_is isspace s = false).
  { unfold last_char_is. destruct (rev (chars s)); [reflexivity|].
    now apply orb_false_iff in Hs. }
  unfold rstrip at 1 3. f_equal.
  assert (E1 : chars (rstrip "/" (strip (s ++ ".git")))
               = (dropwhile isspace (chars s) ++ chars ".git")%list).
  { unfold rstrip. rewrite chars_str_of.
    rewrite chars_strip_clean
      by (apply (last_char_is_app isspace s ["."; "g"; "i"]%char "t"%char)).
    rewrite chars_app. change (chars ".git") with ["."; "g"; "i"; "t"]%char.
    rewrite dropwhile_app_stop by reflexivity.
    apply (rdropwhile_app_stop _ _ ["."; "g"; "i"]%char "t"%char). reflexivity. }
  assert (E2 : chars (rstrip "/" (strip s)) = dropwhile isspace (chars s)).
  { unfold rstrip. rewrite chars_str_of. rewrite chars_strip_clean by exact Hsp.
    apply rdropwhile_clean.
    destruct (rev (dropwhile isspace (chars s))) as [|x l'] eqn:E; [exact I|].
    apply rev_dropwhile_head in E. destruct E as (l'' & E). rewrite E in Hs.
    apply orb_false_iff in Hs. destruct Hs as [_ Hx].
    simpl. rewrite Hx. reflexivity. }
  rewrite E1, E2. apply rdropwhile_app_all. reflexivity.
Qed.

(** ** The patterns of [parse_repo_url] *)

Lemma strip_prefix_some (p l l' : list ascii) :
  Re.strip_prefix p l = Some l' -> l = (p ++ l')%list.
Proof.
  revert l. induction p as [|a p IH]; intros l; simpl.
  - now intros [= ->].
  - destruct l as [|b l]; [discriminate|].
    destruct (Ascii.eqb a b) eqn:E; [|discriminate].
    apply Ascii.eqb_eq in E. subst b. intros H. now rewrite (IH _ H).
Qed.

(** Whatever the search accepts is a match of the pattern: when [run]
    succeeds, it has handed to its continuation a state that the pattern
    matches from the start state. *)
Lemma run_sound (r : Re.regex) :
  forall k st g,
    Re.run r k st = Some g ->
    exists st', matches r st st' /\ k st' = Some g.
Proof.
  induction r as [s|cl|r1 IH1 r2 IH2|n r IH|r IH|greedy cl| |]; intros k st g H;
    simpl in H.
  - destruct (Re.strip_prefix (chars s) (Re.rest st)) as [l|] eqn:E; [|discriminate].
    apply strip_prefix_some in E. eexists. split; [|exact H]. simpl. auto.
  - destruct (Re.rest st) as [|c l] eqn:E; [discriminate|].
    destruct (Re.in_class c cl) eqn:C; [|discriminate].
    eexists. split; [|exact H]. simpl. exists c. auto.
  - apply IH1 in H. destruct H as (mid & H1 & H).
    apply IH2 in H. destruct H as (st' & H2 & H).
    exists st'. split; [|exact H]. simpl. eauto.
  - apply IH in H. destruct H as (inner & H1 & H).
    eexists. split; [|exact H]. simpl. eauto.
  - destruct (Re.run r k st) as [g'|] eqn:E.
    + injection H as ->. apply IH in E. destruct E as (st' & H1 & H).
      exists st'. split; [|exact H]. simpl. now left.
    + exists st. split; [|exact H]. simpl. now right.
  - assert (G : forall l p,
               (fix loop (l : list ascii) (p : nat) {struct l} :=
                  let here := Re.MState p l (Re.groups st) in
                  match l with
                  | c :: l' =>
                      if Re.in_class c cl then
                        if greedy then
                          match loop l' (S p) with
                          | Some g => Some g
                          | None => k here
                          end
                        else
                          match k here with
                          | Some g => Some g
                          | None => loop l' (S p)
                          end
                      else k here
                  | [] => k here
                  end) l p = Some g ->
               exists w l',
                 l = (w ++ l')%list /\
                 forallb (fun c => Re.in_class c cl) w = true /\
                 k (Re.MState (p + List.length w) l' (Re.groups st)) = Some g).
    { clear H. induction l as [|c l IHl]; intros p H.
      - exists [], []. simpl. rewrite Nat.add_0_r. auto.
      - assert (Hstop : k (Re.MState p (c :: l) (Re.groups st)) = Some g ->
                        exists w l', c :: l = (w ++ l')%list /\
                          forallb (fun c => Re.in_class c cl) w = true /\
                          k (Re.MState (p + List.length w) l' (Re.groups st)) = Some g).
        { intros Hk. exists [], (c :: l). simpl. rewrite Nat.add_0_r. auto. }
        assert (Hmore : forall q, q = S p ->
                  (exists w l', l = (w ++ l')%list /\
                     forallb (fun c => Re.in_class c cl) w = true /\
                     k (Re.MState (q + List.length w) l' (Re.groups st)) = Some g) ->
                  Re.in_class c cl = true ->
                  exists w l', c :: l = (w ++ l')%list /\
                    forallb (fun c => Re.in_class c cl) w = true /\
                    k (Re.MState (p + List.length w) l' (Re.groups st)) = Some g).
        { intros q -> (w & l' & -> & Hw & Hk) Hc. exists (c :: w), l'. simpl.
          rewrite Hc, Hw. rewrite Nat.add_succ_r. auto. }
        cbv zeta in H. destruct (Re.in_class c cl) eqn:C; [|now apply Hstop].
        destruct greedy.
        + match type of H with
          | match ?x with _ => _ end = _ => destruct x as [g'|] eqn:E
          end.
          * injection H as ->. apply (Hmore (S p) eq_refl); [|reflexivity].
            now apply IHl.
          * now apply Hstop.
        + destruct (k (Re.MState p (c :: l) (Re.groups st))) as [g'|] eqn:E.
          * injection H as ->. now apply Hstop.
          * apply (Hmore (S p) eq_refl); [|reflexivity]. now apply IHl. }
    apply G in H. destruct H as (w & l' & Hl & Hw & Hk).
    eexists. split; [|exact Hk]. simpl. exists w. auto.
  - destruct (Re.pos st =? 0)%nat eqn:E; [|discriminate].
    apply Nat.eqb_eq in E. exists st. simpl. auto.
  - exists st. simpl. destruct (Re.rest st) as [|c [|c' l]]; try discriminate.
    + auto.
    + destruct (Ascii.eqb c "010") eqn:E; [|discriminate].
      apply Ascii.eqb_eq in E. subst c. auto.
Qed.

(** A successful search has run the matcher from some position of the
    text. *)
Lemma search_from_sound (r : Re.regex) (l : list ascii) :
  forall p g,
    Re.search_from r p l = Some g ->
    exists pre l',
      l = (pre ++ l')%list /\
      Re.run r (fun st => Some (Re.groups st))
             (Re.MState (p + List.length pre) l' []) = Some g.
Proof.
  induction l as [|c l IH]; intros p g H; simpl in H.
  - destruct (Re.run r _ (Re.MState p [] [])) as [g'|] eqn:E; [|discriminate].
    injection H as ->. exists [], []. simpl. rewrite Nat.add_0_r. auto.
  - destruct (Re.run r _ (Re.MState p (c :: l) [])) as [g'|] eqn:E.
    + injection H as ->. exists [], (c :: l). simpl. rewrite Nat.add_0_r. auto.
    + apply IH in H. destruct H as (pre & l' & -> & H).
      exists (c :: pre), l'. simpl. rewrite Nat.add_succ_r. auto.
Qed.

Lemma firstn_exact {A : Type} (a b : list A) : firstn (List.length a) (a ++ b) = a.
Proof. induction a as [|x a IH]; simpl; [reflexivity | now rewrite IH]. Qed.

Lemma str_of_app (a b : list ascii) : str_of (a ++ b) = str_of a ++ str_of b.
Proof. induction a as [|c a IH]; simpl; [reflexivity | now rewrite IH]. Qed.

Lemma str_of_chars (s : string) : str_of (chars s) = s.
Proof. apply string_of_list_ascii_of_string. Qed.

Lemma code_eq (c : ascii) (n : N) : code c = n -> c = ascii_of_N n.
Proof. intros <-. symmetry. apply ascii_N_embedding. Qed.

(** A group made of one character of a class followed by a run of
    characters of a class records exactly the text it consumed. *)
Lemma matches_cap_cls_star (n : nat) (a b : Re.cls) (greedy : bool)
    (st st' : Re.mstate) :
  matches (Re.Cap n (Re.Cat (Re.Cls a) (Re.Star greedy b))) st st' ->
  exists c w,
    Re.rest st = (c :: w ++ Re.rest st')%list /\
    Re.pos st' = S (Re.pos st + List.length w) /\
    Re.groups st' = (n, str_of (c :: w)) :: Re.groups st /\
    Re.in_class c a = true /\
    forallb (fun x => Re.in_class x b) w = true.
Proof.
  simpl. intros (inner & (mid & (c & Hr & Hc & Hp & Hg) & (w & Hr' & Hw & Hp' & Hg')) & ->).
  exists c, w. simpl. rewrite Hr, Hr', Hp', Hp, Hg', Hg.
  repeat split; try assumption; try reflexivity.
  replace (S (Re.pos st) + List.length w - Re.pos st)%nat
    with (S (List.length w)) by lia.
  change (S (List.length w)) with (List.length (c :: w)).
  change (c :: (w ++ Re.rest inner)%list) with ((c :: w) ++ Re.rest inner)%list.
  now rewrite firstn_exact.
Qed.

(** What a match of the URL pattern looks like. *)
Lemma pattern_url_shape (st st' : Re.mstate) :
  matches pattern_url st st' ->
  exists sep c1 w1 c2 w2 suf,
    Re.rest st = (chars "github.com" ++ sep :: (c1 :: w1) ++ "/"%char :: (c2 :: w2) ++ suf)%list /\
    Re.groups st' = (2%nat, str_of (c2 :: w2)) :: (1%nat, str_of (c1 :: w1)) :: Re.groups st /\
    (sep = ":"%char \/ sep = "/"%char) /\
    forallb (fun x => Re.in_class x not_slash) (c1 :: w1) = true /\
    forallb (fun x => Re.in_class x not_slash) (c2 :: w2) = true /\
    (suf = [] \/ suf = chars ".git" \/ suf = ["010"%char]
     \/ suf = (chars ".git" ++ ["010"%char])%list).
Proof.
  unfold pattern_url, Re.Plus.
  intros (m1 & (Hr1 & _ & Hg1) & m2 & (sep & Hr2 & Hsep & _ & Hg2)
          & m3 & H3 & m4 & (Hr4 & _ & Hg4) & m5 & H5 & m6 & H6 & Hend & ->).
  apply matches_cap_cls_star in H3. destruct H3 as (c1 & w1 & Hr3 & _ & Hg3 & Hc1 & Hw1).
  apply matches_cap_cls_star in H5. destruct H5 as (c2 & w2 & Hr5 & _ & Hg5 & Hc2 & Hw2).
  assert (Hopt : (Re.rest m5 = Re.rest m6 \/ Re.rest m5 = (chars ".git" ++ Re.rest m6)%list)
                 /\ Re.groups m6 = Re.groups m5).
  { destruct H6 as [(Hr6 & _ & Hg6) | ->]; auto. }
  destruct Hopt as (Hr6 & Hg6).
  exists sep, c1, w1, c2, w2, (Re.rest m5).
  rewrite Hr1, Hr2, Hr3, Hr4, Hr5, Hg6, Hg5, Hg4, Hg3, Hg2, Hg1.
  split; [reflexivity|].
  split; [reflexivity|]. split.
  { unfold Re.in_class in Hsep. simpl in Hsep.
    rewrite orb_false_r in Hsep. apply orb_true_iff in Hsep.
    destruct Hsep as [H | H]; apply andb_true_iff in H; destruct H as [Ha Hb];
      apply N.leb_le in Ha, Hb; [left | right];
      exact (code_eq sep _ (N.le_antisymm _ _ Hb Ha)). }
  split; [cbn [forallb]; unfold not_slash; now rewrite Hc1, Hw1|].
  split; [cbn [forallb]; unfold not_slash; now rewrite Hc2, Hw2|].
  destruct Hr6 as [-> | ->]; destruct Hend as [-> | ->]; auto.
Qed.

(** What a match of the shorthand pattern looks like. *)
Lemma pattern_short_shape (st st' : Re.mstate) :
  matches pattern_short st st' ->
  Re.pos st = 0%nat /\
  exists c1 w1 c2 w2 suf,
    Re.rest st = ((c1 :: w1) ++ "/"%char :: (c2 :: w2) ++ suf)%list /\
    Re.groups st' = (2%nat, str_of (c2 :: w2)) :: (1%nat, str_of (c1 :: w1)) :: Re.groups st /\
    Re.in_class c1 owner_head = true /\
    forallb (fun x => Re.in_class x owner_tail) w1 = true /\
    forallb (fun x => Re.in_class x repo_class) (c2 :: w2) = true /\
    (suf = [] \/ suf = ["010"%char]).
Proof.
  unfold pattern_short, Re.Plus.
  intros (m0 & (Hp0 & ->) & m1 & H1 & m2 & (Hr2 & _ & Hg2) & m3 & H3 & Hend & ->).
  apply matches_cap_cls_star in H1. destruct H1 as (c1 & w1 & Hr1 & _ & Hg1 & Hc1 & Hw1).
  apply matches_cap_cls_star in H3. destruct H3 as (c2 & w2 & Hr3 & _ & Hg3 & Hc2 & Hw2).
  split; [exact Hp0|].
  exists c1, w1, c2, w2, (Re.rest m3).
  rewrite Hr1, Hr2, Hr3, Hg3, Hg2, Hg1.
  split; [reflexivity|]. split; [reflexivity|].
  split; [exact Hc1|]. split; [exact Hw1|].
  split; [cbn [forallb]; unfold repo_class; now rewrite Hc2, Hw2|].
  exact Hend.
Qed.

(** A successful search of the URL pattern, in terms of the text. *)
Lemma search_url_shape (text : string) (m : list (nat * string)) :
  Re.search pattern_url text = Some m ->
  exists pre sep o r suf,
    chars text = (pre ++ chars "github.com" ++ sep :: o ++ "/"%char :: r ++ suf)%list /\
    Re.group 1 m = str_of o /\ Re.group 2 m = str_of r /\
    (sep = ":"%char \/ sep = "/"%char) /\
    o <> [] /\ r <> [] /\
    forallb (fun x => Re.in_class x not_slash) o = true /\
    forallb (fun x => Re.in_class x not_slash) r = true /\
    (suf = [] \/ suf = chars ".git" \/ suf = ["010"%char]
     \/ suf = (chars ".git" ++ ["010"%char])%list).
Proof.
  unfold Re.search. intros H.
  apply search_from_sound in H. destruct H as (pre & l' & Hl & H).
  apply run_sound in H. destruct H as (st' & Hm & Hg). injection Hg as <-.
  apply pattern_url_shape in Hm.
  destruct Hm as (sep & c1 & w1 & c2 & w2 & suf & Hr & Hg & Hsep & Ho & Hrp & Hsuf).
  simpl in Hr, Hg.
  exists pre, sep, (c1 :: w1), (c2 :: w2), suf.
  rewrite Hl, Hr, Hg.
  repeat split; try assumption; try reflexivity; discriminate.
Qed.

(** A successful search of the shorthand pattern, in terms of the text. *)
Lemma search_short_shape (text : string) (m : list (nat * string)) :
  Re.search pattern_short text = Some m ->
  exists c1 w1 r suf,
    chars text = ((c1 :: w1) ++ "/"%char :: r ++ suf)%list /\
    Re.group 1 m = str_of (c1 :: w1) /\ Re.group 2 m = str_of r /\
    Re.in_class c1 owner_head = true /\
    forallb (fun x => Re.in_class x owner_tail) w1 = true /\
    r <> [] /\
    forallb (fun x => Re.in_class x repo_class) r = true /\
    (suf = [] \/ suf = ["010"%char]).
Proof.
  unfold Re.search. intros H.
  apply search_from_sound in H. destruct H as (pre & l' & Hl & H).
  apply run_sound in H. destruct H as (st' & Hm & Hg). injection Hg as <-.
  apply pattern_short_shape in Hm.
  destruct Hm as (Hp & c1 & w1 & c2 & w2 & suf & Hr & Hg & Hc1 & Hw1 & Hrp & Hsuf).
  simpl in Hp, Hr, Hg.
  destruct pre as [|x pre]; [|discriminate]. simpl in Hl.
  exists c1, w1, (c2 :: w2), suf.
  rewrite Hl, Hr, Hg.
  repeat split; try assumption; try reflexivity; discriminate.
Qed.

Lemma parse_repo_url_ok_cases (s owner repo : string) :
  parse_repo_url s = Ok (owner, repo) ->
  (exists m, Re.search pattern_url (normalize s) = Some m /\
             owner = Re.group 1 m /\ repo = Re.group 2 m) \/
  (Re.search pattern_url (normalize s) = None /\
   exists m, Re.search pattern_short (normalize s) = Some m /\
             owner = Re.group 1 m /\ repo = Re.group 2 m).
Proof.
  rewrite parse_repo_url_unfold.
  destruct (Re.search pattern_url (normalize s)) as [m|].
  - intros [= <- <-]. left. eauto.
  - destruct (Re.search pattern_short (normalize s)) as [m|]; [|discriminate].
    intros [= <- <-]. right. eauto.
Qed.

Lemma class_excludes_slash (cl : Re.cls) (l : list ascii) :
  Re.in_class "/" cl = false ->
  forallb (fun x => Re.in_class x cl) l = true -> ~ In "/"%char l.
Proof.
  intros Hcl Hl Hin. rewrite forallb_forall in Hl.
  apply Hl in Hin. congruence.
Qed.

Lemma forallb_weaken {A : Type} (p q : A -> bool) (l : list A) :
  (forall x, p x = true -> q x = true) ->
  forallb p l = true -> forallb q l = true.
Proof.
  intros Hpq. rewrite !forallb_forall. auto.
Qed.

Lemma owner_head_in_tail (c : ascii) :
  Re.in_class c owner_head = true -> Re.in_class c owner_tail = true.
Proof.
  unfold Re.in_class, owner_head, owner_tail. simpl.
  intros ->. apply orb_true_r.
Qed.

(** Whatever [parse_repo_url] returns, owner and repository name are not
    empty and hold no slash. *)
Theorem parse_repo_url_names_hold_no_slash (s owner repo : string) :
  parse_repo_url s = Ok (owner, repo) ->
  owner <> "" /\ repo <> "" /\
  ~ In "/"%char (chars owner) /\ ~ In "/"%char (chars repo).
Proof.
  intros H. apply parse_repo_url_ok_cases in H.
  assert (G : forall o r : list ascii,
             o <> [] -> r <> [] -> ~ In "/"%char o -> ~ In "/"%char r ->
             str_of o <> "" /\ str_of r <> "" /\
             ~ In "/"%char (chars (str_of o)) /\ ~ In "/"%char (chars (str_of r))).
  { intros o r Ho Hr Hso Hsr. rewrite !chars_str_of.
    repeat split; try assumption.
    - destruct o; [congruence | discriminate].
    - destruct r; [congruence | discriminate]. }
  destruct H as [(m & Hs & -> & ->) | (_ & m & Hs & -> & ->)].
  - apply search_url_shape in Hs.
    destruct Hs as (pre & sep & o & r & suf & _ & -> & -> & _ & Ho & Hr & Hfo & Hfr & _).
    apply G; try assumption;
      eapply class_excludes_slash; try eassumption; reflexivity.
  - apply search_short_shape in Hs.
    destruct Hs as (c1 & w1 & r & suf & _ & -> & -> & Hc1 & Hw1 & Hr & Hfr & _).
    apply G; try assumption; try discriminate.
    + apply (class_excludes_slash owner_tail); [reflexivity|].
      cbn [forallb]. rewrite Hw1, andb_true_r.
      now apply owner_head_in_tail.
    + eapply class_excludes_slash; try eassumption; reflexivity.
Qed.

Lemma range_of_one (c x : ascii) :
  ((code x <=? code c) && (code c <=? code x))%N = Ascii.eqb c x.
Proof.
  destruct (Ascii.eqb_spec c x) as [->|Hne].
  - now rewrite N.leb_refl.
  - destruct (code x <=? code c)%N eqn:A, (code c <=? code x)%N eqn:B;
      try reflexivity.
    apply N.leb_le in A, B. exfalso. apply Hne.
    rewrite (code_eq c _ (N.le_antisymm _ _ B A)). apply ascii_N_embedding.
Qed.

(** Decides an equation between boolean combinations of comparisons. *)
Ltac bool_cases :=
  repeat match goal with
  | |- context [(?a <=? ?b)%N] => destruct (a <=? b)%N
  | |- context [Ascii.eqb ?a ?b] => destruct (Ascii.eqb a b)
  end; reflexivity.

Lemma owner_head_is_alnum (c : ascii) : Re.in_class c owner_head = is_alnum c.
Proof.
  unfold Re.in_class, owner_head, is_alnum. cbn [Re.negated Re.ranges xorb].
  unfold Re.in_ranges, alnum. cbn [existsb rng fst snd].
  change (code (match chars "a" with c0 :: _ => c0 | [] => zero end)) with 97%N.
  change (code (match chars "z" with c0 :: _ => c0 | [] => zero end)) with 122%N.
  change (code (match chars "A" with c0 :: _ => c0 | [] => zero end)) with 65%N.
  change (code (match chars "Z" with c0 :: _ => c0 | [] => zero end)) with 90%N.
  change (code (match chars "0" with c0 :: _ => c0 | [] => zero end)) with 48%N.
  change (code (match chars "9" with c0 :: _ => c0 | [] => zero end)) with 57%N.
  cbv zeta. bool_cases.
Qed.

Lemma in_ranges_cons (c : ascii) (x : string) (rs : list (ascii * ascii)) (a : ascii) :
  chars x = [a] ->
  Re.in_ranges c (one x :: rs) = Ascii.eqb c a || Re.in_ranges c rs.
Proof.
  intros Hx. unfold Re.in_ranges, one, rng. cbn [existsb fst snd]. rewrite Hx.
  now rewrite range_of_one.
Qed.

Lemma in_ranges_app (c : ascii) (rs rs' : list (ascii * ascii)) :
  Re.in_ranges c (rs ++ rs') = Re.in_ranges c rs || Re.in_ranges c rs'.
Proof. unfold Re.in_ranges. apply existsb_app. Qed.

Lemma owner_tail_is_owner_char (c : ascii) : Re.in_class c owner_tail = owner_char c.
Proof.
  pose proof (owner_head_is_alnum c) as H.
  unfold Re.in_class, owner_head, owner_tail, owner_char in *.
  cbn [Re.negated Re.ranges xorb] in *.
  rewrite (in_ranges_cons c "-" alnum "-"%char eq_refl), H. apply orb_comm.
Qed.

Lemma repo_class_is_repo_char (c : ascii) : Re.in_class c repo_class = repo_char c.
Proof.
  pose proof (owner_head_is_alnum c) as H.
  unfold Re.in_class, owner_head, repo_class, repo_char in *.
  cbn [Re.negated Re.ranges xorb] in *.
  rewrite in_ranges_app, H.
  rewrite (in_ranges_cons c "." _ "."%char eq_refl).
  rewrite (in_ranges_cons c "_" _ "_"%char eq_refl).
  rewrite (in_ranges_cons c "-" _ "-"%char eq_refl).
  unfold Re.in_ranges. cbn [existsb]. rewrite orb_false_r, !orb_assoc. reflexivity.
Qed.

(** Every answer of [parse_repo_url] is read off the normalized input.
    Either the input holds [github.com], a colon or slash, the owner, a
    slash and the repository name, with nothing after it but an optional
    [.git] and an optional final line feed; or the URL pattern matches
    nowhere and the normalized input is [owner/repo] itself (up to a final
    line feed), the owner made of letters, digits and hyphens and starting
    with a letter or digit, the name made of letters, digits, dots,
    underscores and hyphens. *)
Theorem parse_repo_url_reads_the_input (s owner repo : string) :
  parse_repo_url s = Ok (owner, repo) ->
  (exists before sep after,
     normalize s = before ++ "github.com" ++ sep ++ owner ++ "/" ++ repo ++ after /\
     (sep = ":" \/ sep = "/") /\
     (after = "" \/ after = ".git" \/ after = newline \/ after = ".git" ++ newline))
  \/
  (Re.search pattern_url (normalize s) = None /\
   (normalize s = owner ++ "/" ++ repo \/ normalize s = owner ++ "/" ++ repo ++ newline) /\
   (exists c w, chars owner = c :: w /\ is_alnum c = true) /\
   forallb owner_char (chars owner) = true /\
   forallb repo_char (chars repo) = true).
Proof.
  intros H. apply parse_repo_url_ok_cases in H.
  destruct H as [(m & Hs & -> & ->) | (Hnone & m & Hs & -> & ->)].
  - left. apply search_url_shape in Hs.
    destruct Hs as (pre & sep & o & r & suf & Hc & -> & -> & Hsep & _ & _ & _ & _ & Hsuf).
    exists (str_of pre), (String sep ""), (str_of suf).
    split; [|split].
    + rewrite <- (str_of_chars (normalize s)), Hc.
      change (sep :: (o ++ "/"%char :: r ++ suf)%list)
        with ([sep] ++ o ++ ["/"%char] ++ r ++ suf)%list.
      rewrite !str_of_app, str_of_chars. reflexivity.
    + destruct Hsep as [-> | ->]; auto.
    + destruct Hsuf as [-> | [-> | [-> | ->]]]; auto.
  - right. apply search_short_shape in Hs.
    destruct Hs as (c1 & w1 & r & suf & Hc & -> & -> & Hc1 & Hw1 & _ & Hfr & Hsuf).
    split; [exact Hnone|]. rewrite !chars_str_of.
    split; [|split; [|split]].
    + rewrite <- (str_of_chars (normalize s)), Hc.
      change ("/"%char :: (r ++ suf)%list) with (["/"%char] ++ r ++ suf)%list.
      rewrite !str_of_app.
      destruct Hsuf as [-> | ->]; [left | right]; simpl str_of at 3;
        rewrite ?append_empty; reflexivity.
    + exists c1, w1. split; [reflexivity|]. now rewrite <- owner_head_is_alnum.
    + cbn [forallb]. rewrite <- owner_tail_is_owner_char.
      rewrite (owner_head_in_tail _ Hc1). simpl.
      eapply forallb_weaken; [|exact Hw1].
      intros x Hx. now rewrite <- owner_tail_is_owner_char.
    + eapply forallb_weaken; [|exact Hfr].
      intros x Hx. now rewrite <- repo_class_is_repo_char.
Qed.

Lemma parse_repo_url_ignores_outer_space_witness :
  parse_repo_url ("  " ++ "octocat/Hello-World" ++ newline)
  = parse_repo_url "octocat/Hello-World".
Proof.
  apply (parse_repo_url_ignores_outer_space [" "; " "]%char ["010"]%char
           "octocat/Hello-World"); reflexivity.
Defined.

Lemma parse_repo_url_ignores_trailing_slashes_witness :
  parse_repo_url ("https://github.com/octocat/Hello-World" ++ "//")
  = parse_repo_url "https://github.com/octocat/Hello-World".
Proof.
  apply (parse_repo_url_ignores_trailing_slashes
           "https://github.com/octocat/Hello-World" ["/"; "/"]%char); reflexivity.
Defined.

Lemma parse_repo_url_ignores_git_suffix_witness :
  parse_repo_url ("git@github.com:octocat/Hello-World" ++ ".git")
  = parse_repo_url "git@github.com:octocat/Hello-World".
Proof.
  apply (parse_repo_url_ignores_git_suffix "git@github.com:octocat/Hello-World").
  reflexivity.
Defined.

Lemma parse_repo_url_names_hold_no_slash_witness :
  "octocat" <> "" /\ "Hello-World" <> "" /\
  ~ In "/"%char (chars "octocat") /\ ~ In "/"%char (chars "Hello-World").
Proof.
  apply (parse_repo_url_names_hold_no_slash
           "https://github.com/octocat/Hello-World.git" "octocat" "Hello-World").
  vm_compute. reflexivity.
Defined.

Lemma parse_repo_url_reads_the_input_witness :
  (exists before sep after,
     normalize "https://github.com/octocat/Hello-World/"
       = before ++ "github.com" ++ sep ++ "octocat" ++ "/" ++ "Hello-World" ++ after /\
     (sep = ":" \/ sep = "/") /\
     (after = "" \/ after = ".git" \/ after = newline \/ after = ".git" ++ newline))
  \/
  (Re.search pattern_url (normalize "https://github.com/octocat/Hello-World/") = None /\
   (normalize "https://github.com/octocat/Hello-World/" = "octocat" ++ "/" ++ "Hello-World"
    \/ normalize "https://github.com/octocat/Hello-World/"
        = "octocat" ++ "/" ++ "Hello-World" ++ newline) /\
   (exists c w, chars "octocat" = c :: w /\ is_alnum c = true) /\
   forallb owner_char (chars "octocat") = true /\
   forallb repo_char (chars "Hello-World") = true).
Proof.
  apply (parse_repo_url_reads_the_input
           "https://github.com/octocat/Hello-World/" "octocat" "Hello-World").
  vm_compute. reflexivity.
Defined.

(** ** Fetchers without a payload *)

(** When no request comes back with status 200 and a decodable body (a rate
    limit, a server error, a timeout, a broken body), none of the seven
    fetchers raises: each returns its empty result. *)
Theorem gather_without_upstream (utcoffset : Z -> Z) (s : session) (owner repo : string) :
  (forall url params body, s url params <> Response 200 (Ok body)) ->
  gather utcoffset s owner repo
  = Gathered (Ok JNull) (Ok (JList [])) (Ok (pr_stats 0 0 0 0 []))
             (Ok (issue_stats 0 0 0 [])) (Ok (JList [])) (Ok (JObj [])) (Ok (JList [])).
Proof.
  intros H.
  assert (N : forall url params, _make_request s url params = JNull)
    by (intros url params; apply _make_request_none; apply H).
  unfold gather, get_repo_info, get_contributors, get_pull_requests, get_issues,
    get_commit_activity, get_languages, get_releases.
  rewrite !N. reflexivity.
Qed.

Lemma gather_without_upstream_witness :
  gather utc sample_session_rate_limited "octocat" "Hello-World"
  = Gathered (Ok JNull) (Ok (JList [])) (Ok (pr_stats 0 0 0 0 []))
             (Ok (issue_stats 0 0 0 [])) (Ok (JList [])) (Ok (JObj [])) (Ok (JList [])).
Proof.
  apply (gather_without_upstream utc sample_session_rate_limited "octocat" "Hello-World").
  intros url params body. discriminate.
Defined.

(** A repository-info request that fails for any reason is reported as a
    missing repository: with a token configured and a parsable input, a
    rate limit, a server error or a timeout on that request makes the
    handler answer 404 "Repository owner/repo not found". *)
Theorem analyze_repository_upstream_failure (cfg : settings) (utcoffset : Z -> Z)
    (s : session) (repo_url owner repo : string) :
  parse_repo_url repo_url = Ok (owner, repo) ->
  service_init cfg = Ok tt ->
  (forall body, s (repo_info_url owner repo) None <> Response 200 (Ok body)) ->
  analyze_repository cfg utcoffset s repo_url
  = Err (HTTPException 404 ("Repository " ++ owner ++ "/" ++ repo ++ " not found")).
Proof.
  intros Hp Hc Hs. apply analyze_not_found; try assumption.
  now apply _make_request_none.
Qed.

Lemma analyze_repository_upstream_failure_witness :
  analyze_repository sample_settings utc sample_session_rate_limited "octocat/Hello-World"
  = Err (HTTPException 404 "Repository octocat/Hello-World not found").
Proof.
  apply (analyze_repository_upstream_failure
           sample_settings utc sample_session_rate_limited
           "octocat/Hello-World" "octocat" "Hello-World").
  - vm_compute. reflexivity.
  - reflexivity.
  - intros body. discriminate.
Defined.

(** ** [get_contributors] and [get_releases] *)

(** A comprehension that reshapes objects: it returns when every item is
    an object, one entry per item in order, and raises [AttributeError]
    otherwise. *)
Lemma mapM_objects (f : json -> result json) (pure : list (string * json) -> json) :
  (forall kvs, f (JObj kvs) = Ok (pure kvs)) ->
  (forall v, is_object v = false -> exists m, f v = Err (AttributeError m)) ->
  forall items,
    (forallb is_object items = true ->
     exists out,
       mapM f items = Ok out /\
       Forall2 (fun item e => exists kvs, item = JObj kvs /\ e = pure kvs) items out) /\
    (forallb is_object items = false ->
     exists m, mapM f items = Err (AttributeError m)).
Proof.
  intros Hobj Hnon. induction items as [|i items [IHt IHf]]; simpl.
  - split; [|discriminate]. intros _. exists []. split; [reflexivity | constructor].
  - destruct (is_object i) eqn:E; simpl.
    + destruct i as [| | | | |kvs]; try discriminate. rewrite Hobj. simpl.
      split.
      * intros H. destruct (IHt H) as (out & -> & Hall). simpl.
        exists (pure kvs :: out). split; [reflexivity|].
        constructor; [eauto | assumption].
      * intros H. destruct (IHf H) as (m & ->). simpl. eauto.
    + split; [discriminate|]. intros _.
      destruct (Hnon i E) as (m & ->). simpl. eauto.
Qed.

Lemma py_get_non_object (v : json) (k : string) (d : json) :
  is_object v = false -> exists m, py_get v k d = Err (AttributeError m).
Proof. destruct v; try discriminate; intros _; eexists; reflexivity. Qed.

Lemma contributor_entry_non_object (v : json) :
  is_object v = false -> exists m, contributor_entry v = Err (AttributeError m).
Proof. destruct v; try discriminate; intros _; eexists; reflexivity. Qed.

Lemma release_entry_non_object (v : json) :
  is_object v = false -> exists m, release_entry v = Err (AttributeError m).
Proof. destruct v; try discriminate; intros _; eexists; reflexivity. Qed.

(** [get_contributors] returns exactly when every item of the payload is an
    object (a payload that is no list, or an empty one, has no items).  It
    then gives one entry per item, in the order of the payload, with
    [profile_url] read from [html_url], a missing [contributions] read as 0
    and a missing [type] read as "User".  When some item is no object it
    raises [AttributeError]. *)
Theorem get_contributors_reshapes (s : session) (owner repo : string) (n : Z) :
  let items := payload_items
                 (_make_request s (contributors_url owner repo)
                    (Some [("per_page", JNum n); ("anon", JStr "false")])) in
  (forallb is_object items = true ->
   exists out,
     get_contributors s owner repo n = Ok (JList out) /\
     Forall2 (fun item e =>
                exists kvs,
                  item = JObj kvs /\
                  e = JObj [("login", lookup_or "login" kvs JNull);
                            ("avatar_url", lookup_or "avatar_url" kvs JNull);
                            ("profile_url", lookup_or "html_url" kvs JNull);
                            ("contributions", lookup_or "contributions" kvs (JNum 0));
                            ("type", lookup_or "type" kvs (JStr "User"))])
             items out) /\
  (forallb is_object items = false ->
   exists m, get_contributors s owner repo n = Err (AttributeError m)).
Proof.
  cbv zeta. unfold get_contributors.
  pose proof (mapM_objects contributor_entry _ (fun kvs => eq_refl)
                contributor_entry_non_object) as M.
  destruct (_make_request s (contributors_url owner repo)
              (Some [("per_page", JNum n); ("anon", JStr "false")]))
    as [| | | |l|]; simpl; rewrite ?andb_false_r;
    try (split; [intros _; exists []; split; [reflexivity | constructor] | discriminate]).
  destruct l as [|i l];
    [split; [intros _; exists []; split; [reflexivity | constructor] | discriminate]|].
  cbn [truthy andb py_iter bind payload_items].
  destruct (M (i :: l)) as [Mt Mf]. split.
  - intros H. destruct (Mt H) as (out & -> & Hall). simpl. eauto.
  - intros H. destruct (Mf H) as (m & ->). simpl. eauto.
Qed.

(** [get_releases] returns exactly when every item of the payload is an
    object, giving one entry per item in the order of the payload, with
    [url] read from [html_url] and a missing [prerelease] read as false;
    when some item is no object it raises [AttributeError]. *)
Theorem get_releases_reshapes (s : session) (owner repo : string) (n : Z) :
  let items := payload_items
                 (_make_request s (releases_url owner repo)
                    (Some [("per_page", JNum n)])) in
  (forallb is_object items = true ->
   exists out,
     get_releases s owner repo n = Ok (JList out) /\
     Forall2 (fun item e =>
                exists kvs,
                  item = JObj kvs /\
                  e = JObj [("tag_name", lookup_or "tag_name" kvs JNull);
                            ("name", lookup_or "name" kvs JNull);
                            ("published_at", lookup_or "published_at" kvs JNull);
                            ("url", lookup_or "html_url" kvs JNull);
                            ("prerelease", lookup_or "prerelease" kvs (JBool false))])
             items out) /\
  (forallb is_object items = false ->
   exists m, get_releases s owner repo n = Err (AttributeError m)).
Proof.
  cbv zeta. unfold get_releases.
  pose proof (mapM_objects release_entry _ (fun kvs => eq_refl)
                release_entry_non_object) as M.
  destruct (_make_request s (releases_url owner repo) (Some [("per_page", JNum n)]))
    as [| | | |l|]; simpl; rewrite ?andb_false_r;
    try (split; [intros _; exists []; split; [reflexivity | constructor] | discriminate]).
  destruct l as [|i l];
    [split; [intros _; exists []; split; [reflexivity | constructor] | discriminate]|].
  cbn [truthy andb py_iter bind payload_items].
  destruct (M (i :: l)) as [Mt Mf]. split.
  - intros H. destruct (Mt H) as (out & -> & Hall). simpl. eauto.
  - intros H. destruct (Mf H) as (m & ->). simpl. eauto.
Qed.

Lemma get_contributors_reshapes_witness :
  exists out,
    get_contributors sample_session "octocat" "Hello-World" 30 = Ok (JList out) /\
    List.length out = 2%nat.
Proof.
  destruct (proj1 (get_contributors_reshapes sample_session "octocat" "Hello-World" 30)
              eq_refl) as (out & Hout & Hall).
  exists out. split; [exact Hout|].
  symmetry. exact (Forall2_length Hall).
Defined.

Lemma get_releases_reshapes_witness :
  exists out,
    get_releases sample_session "octocat" "Hello-World" 10 = Ok (JList out) /\
    List.length out = 1%nat.
Proof.
  destruct (proj1 (get_releases_reshapes sample_session "octocat" "Hello-World" 10)
              eq_refl) as (out & Hout & Hall).
  exists out. split; [exact Hout|].
  symmetry. exact (Forall2_length Hall).
Defined.

(** ** Counters of [get_issues] *)

Lemma py_count_bounds (p : json -> result bool) (l : list json) (acc n : Z) :
  py_count p l acc = Ok n -> acc <= n <= acc + Z.of_nat (List.length l).
Proof.
  revert acc. induction l as [|i l IH]; intros acc H; simpl in H.
  - injection H as <-. simpl. lia.
  - bind_inv H. apply IH in H. simpl List.length. destruct x; lia.
Qed.

(** No issue is counted both as open and as closed. *)
Lemma py_count_open_closed (l : list json) (a b o c : Z) :
  py_count (state_is "open") l a = Ok o ->
  py_count (state_is "closed") l b = Ok c ->
  (o - a) + (c - b) <= Z.of_nat (List.length l).
Proof.
  revert a b. induction l as [|i l IH]; intros a b Ho Hc.
  - simpl in Ho, Hc. injection Ho as <-. injection Hc as <-. simpl. lia.
  - destruct i as [| | | | |kvs]; try discriminate.
    simpl in Ho, Hc. specialize (IH _ _ Ho Hc). simpl List.length.
    clear Ho Hc. revert IH.
    generalize (match lookup "state" kvs with Some x => x | None => JNull end).
    intros v IH. destruct v as [| | |t| |]; simpl in IH; try lia.
    destruct (String.eqb t "open") eqn:E1, (String.eqb t "closed") eqn:E2; try lia.
    apply String.eqb_eq in E1, E2. rewrite E1 in E2. discriminate.
Qed.

(** In whatever [get_issues] returns, on any payload, [total] is the length
    of [details], the counters are not negative and [open + closed] does
    not exceed [total]: an issue whose state is neither "open" nor "closed"
    is in the total and in neither counter. *)
Theorem get_issues_counters (s : session) (owner repo state : string)
    (max_issues : Z) (r : json) :
  get_issues s owner repo state max_issues = Ok r ->
  exists (o c : Z) (ds : list json),
    r = issue_stats o c (Z.of_nat (List.length ds)) ds /\
    0 <= o /\ 0 <= c /\ o + c <= Z.of_nat (List.length ds).
Proof.
  unfold get_issues. intros H.
  destruct (negb _ || negb _).
  - injection H as <-. exists 0, 0, []. simpl. repeat split; lia.
  - bind_inv H. injection H as <-.
    match goal with
    | Ho : py_count (state_is "open") ?l 0 = Ok ?o,
      Hc : py_count (state_is "closed") ?l 0 = Ok ?c,
      Hd : mapM issue_detail ?l = Ok ?ds |- _ =>
        pose proof (py_count_bounds _ _ _ _ Ho);
        pose proof (py_count_bounds _ _ _ _ Hc);
        pose proof (py_count_open_closed _ _ _ _ _ Ho Hc);
        pose proof (mapM_length _ _ _ Hd) as Hlen;
        exists o, c, ds
    end.
    rewrite <- Hlen in *. repeat split; lia.
Qed.

Lemma get_issues_counters_witness :
  exists (o c : Z) (ds : list json),
    get_issues sample_session "octocat" "Hello-World" "all" 50
      = Ok (issue_stats o c (Z.of_nat (List.length ds)) ds) /\
    0 <= o /\ 0 <= c /\ o + c <= Z.of_nat (List.length ds).
Proof.
  eassert (E : get_issues sample_session "octocat" "Hello-World" "all" 50 = Ok _)
    by (vm_compute; reflexivity).
  destruct (get_issues_counters sample_session "octocat" "Hello-World" "all" 50 _ E)
    as (o & c & ds & Hr & Hb).
  exists o, c, ds. split; [|exact Hb]. rewrite <- Hr. exact E.
Defined.

(** ** Counters of [get_pull_requests] *)

Lemma count_display_cons (st : string) (pr : json) (items : list json) :
  count_display st (pr :: items)
  = (if String.eqb (display_state_item pr) st then 1 else 0) + count_display st items.
Proof.
  unfold count_display. simpl.
  destruct (String.eqb (display_state_item pr) st); simpl List.length; lia.
Qed.

(** Over the whole payload each counter grows by the number of items with
    its display state, and the appended details carry the display states of
    the items in order. *)
Lemma pr_loop_counts (items : list json) (acc acc' : pr_acc) :
  pr_loop items acc = Ok acc' ->
  exists ds,
    details acc' = (details acc ++ ds)%list /\
    map (field "state") ds
      = map (fun pr => Some (JStr (display_state_item pr))) items /\
    open_count acc' = open_count acc + count_display "open" items /\
    closed_count acc' = closed_count acc + count_display "closed" items /\
    merged_count acc' = merged_count acc + count_display "merged" items.
Proof.
  revert acc. induction items as [|pr items IH]; intros acc H; simpl in H.
  - injection H as <-. exists []. rewrite app_nil_r.
    unfold count_display. simpl. repeat split; lia.
  - bind_inv H. destruct pr as [| | | | |kvs]; try discriminate.
    rewrite pr_step_unfold in Hx. cbv zeta in Hx. bind_inv Hx. injection Hx as <-.
    apply IH in H. destruct H as (ds & Hd & Hs & Ho & Hc & Hm). simpl in Hd, Ho, Hc, Hm.
    exists (x0 :: ds). rewrite !count_display_cons.
    split; [rewrite Hd, <- app_assoc; reflexivity|].
    split; [simpl; rewrite Hs; f_equal; eapply pr_detail_state; eassumption|].
    simpl display_state_item. repeat split; lia.
Qed.

(** In whatever [get_pull_requests] returns, [open], [closed] and [merged]
    are the numbers of payload items with that display state, [total] is
    the number of payload items, and the details carry the display states
    of the items in the order of the payload. *)
Theorem get_pull_requests_classifies (s : session) (owner repo state : string)
    (max_prs : Z) (r : json) :
  get_pull_requests s owner repo state max_prs = Ok r ->
  let items := payload_items
                 (_make_request s (pulls_url owner repo)
                    (Some (list_params state max_prs))) in
  exists ds,
    r = pr_stats (count_display "open" items) (count_display "closed" items)
                 (count_display "merged" items) (Z.of_nat (List.length items)) ds /\
    map (field "state") ds
      = map (fun pr => Some (JStr (display_state_item pr))) items.
Proof.
  intros H. cbv zeta. unfold get_pull_requests in H.
  destruct (_make_request s (pulls_url owner repo) (Some (list_params state max_prs)))
    as [| | | |l|]; simpl in H; rewrite ?orb_true_r in H;
    try (injection H as <-; exists []; split; reflexivity).
  destruct l as [|pr l']; simpl in H.
  - injection H as <-. exists []. split; reflexivity.
  - bind_inv H. injection H as <-.
    change (acc' <- pr_step pr (PrAcc 0 0 0 []) ;; pr_loop l' acc')
      with (pr_loop (pr :: l') (PrAcc 0 0 0 [])) in Hx.
    apply pr_loop_counts in Hx. destruct Hx as (ds & Hd & Hs & Ho & Hc & Hm).
    simpl in Hd, Ho, Hc, Hm. exists ds.
    rewrite Hd, Ho, Hc, Hm. split; [reflexivity | exact Hs].
Qed.

Lemma get_pull_requests_classifies_witness :
  exists ds,
    get_pull_requests sample_session "octocat" "Hello-World" "all" 50
      = Ok (pr_stats 1 1 1 3 ds) /\
    map (field "state") ds
      = [Some (JStr "open"); Some (JStr "merged"); Some (JStr "closed")].
Proof.
  eassert (E : get_pull_requests sample_session "octocat" "Hello-World" "all" 50 = Ok _)
    by (vm_compute; reflexivity).
  destruct (get_pull_requests_classifies
              sample_session "octocat" "Hello-World" "all" 50 _ E) as (ds & Hr & Hs).
  exists ds. split; [|exact Hs]. rewrite E. f_equal. exact Hr.
Defined.

(** ** Items without an author *)

Lemma author_of_null_user (kvs : list (string * json)) :
  lookup "user" kvs = Some JNull ->
  author_of (JObj kvs)
  = Err (AttributeError "'NoneType' object has no attribute 'get'").
Proof. intros H. unfold author_of. simpl. rewrite H. reflexivity. Qed.

Lemma pr_step_null_user (kvs : list (string * json)) (acc : pr_acc) :
  lookup "user" kvs = Some JNull ->
  pr_step (JObj kvs) acc
  = Err (AttributeError "'NoneType' object has no attribute 'get'").
Proof.
  intros H. rewrite pr_step_unfold. cbv zeta. unfold pr_detail.
  cbn [py_get bind]. rewrite (author_of_null_user kvs H). reflexivity.
Qed.

Lemma issue_detail_null_user (kvs : list (string * json)) :
  lookup "user" kvs = Some JNull ->
  issue_detail (JObj kvs)
  = Err (AttributeError "'NoneType' object has no attribute 'get'").
Proof.
  intros H. unfold issue_detail.
  cbn [py_get bind]. rewrite (author_of_null_user kvs H). reflexivity.
Qed.

Lemma pr_loop_fails (pr : json) (items : list json) :
  In pr items ->
  (forall acc, is_ok (pr_step pr acc) = false) ->
  forall acc, is_ok (pr_loop items acc) = false.
Proof.
  intros Hin Hpr. induction items as [|x items IH]; intros acc; [destruct Hin|].
  simpl. destruct Hin as [-> | Hin].
  - specialize (Hpr acc). destruct (pr_step pr acc); [discriminate | reflexivity].
  - destruct (pr_step x acc) as [acc'|e]; simpl; [now apply IH | reflexivity].
Qed.

Lemma mapM_fails {A B : Type} (f : A -> result B) (x : A) (l : list A) :
  In x l -> is_ok (f x) = false -> is_ok (mapM f l) = false.
Proof.
  intros Hin Hx. induction l as [|y l IH]; [destruct Hin|].
  simpl. destruct Hin as [-> | Hin].
  - destruct (f x); [discriminate | reflexivity].
  - destruct (f y); simpl; [|reflexivity].
    specialize (IH Hin). destruct (mapM f l); [discriminate | reflexivity].
Qed.

Lemma filterM_keeps {A : Type} (p : A -> result bool) (x : A) (l out : list A) :
  filterM p l = Ok out -> In x l -> p x = Ok true -> In x out.
Proof.
  revert out. induction l as [|y l IH]; intros out H Hin Hx; [destruct Hin|].
  simpl in H. destruct (p y) as [b|e] eqn:Ey; [|discriminate]. cbn [bind] in H.
  destruct (filterM p l) as [ys|e]; [|discriminate]. cbn [bind] in H.
  injection H as <-.
  destruct Hin as [-> | Hin].
  - rewrite Hx in Ey. injection Ey as <-. now left.
  - specialize (IH _ eq_refl Hin Hx). destruct b; [now right | assumption].
Qed.

(** One pull request whose [user] is [null] hides them all: whenever the
    payload holds such an item, [get_pull_requests] raises, and every
    envelope [get_comprehensive_stats] returns shows the empty
    pull-request section, all counters 0 and no details. *)
Theorem null_author_empties_pull_requests (utcoffset : Z -> Z) (s : session)
    (owner repo : string) (items : list json) (kvs : list (string * json)) :
  _make_request s (pulls_url owner repo) (Some (list_params "all" 50)) = JList items ->
  In (JObj kvs) items ->
  lookup "user" kvs = Some JNull ->
  is_ok (get_pull_requests s owner repo "all" 50) = false /\
  (forall r, get_comprehensive_stats utcoffset s owner repo = Ok r ->
             field "pull_requests" r = Some (pr_stats 0 0 0 0 [])).
Proof.
  intros Hp Hin Hu.
  assert (F : is_ok (get_pull_requests s owner repo "all" 50) = false).
  { unfold get_pull_requests. rewrite Hp.
    destruct items as [|i items']; [destruct Hin|].
    cbn [truthy is_list negb orb py_iter bind].
    pose proof (pr_loop_fails (JObj kvs) (i :: items') Hin
                  (fun acc => f_equal is_ok (pr_step_null_user kvs acc Hu))
                  (PrAcc 0 0 0 [])) as L.
    destruct (pr_loop (i :: items') (PrAcc 0 0 0 [])); [discriminate | reflexivity]. }
  split; [exact F|].
  intros r H. unfold get_comprehensive_stats, assemble, gather in H.
  cbn [g_repo_info g_contributors g_pull_requests g_issues g_commit_activity
       g_languages g_releases] in H.
  destruct (get_pull_requests s owner repo "all" 50) as [v|e]; [discriminate|].
  cbn [or_default] in H.
  destruct (negb (truthy _)); [discriminate|].
  bind_inv H. injection H as <-. reflexivity.
Qed.

Lemma null_author_empties_pull_requests_witness :
  is_ok (get_pull_requests sample_session_null_author "octocat" "Hello-World" "all" 50)
    = false /\
  (forall r, get_comprehensive_stats utc sample_session_null_author "octocat" "Hello-World"
             = Ok r ->
             field "pull_requests" r = Some (pr_stats 0 0 0 0 [])).
Proof.
  apply (null_author_empties_pull_requests
           utc sample_session_null_author "octocat" "Hello-World"
           [JObj [("number", JNum 12); ("state", JStr "open");
                  ("user", sample_user "octocat")];
            JObj [("number", JNum 11); ("state", JStr "closed"); ("user", JNull)]]
           [("number", JNum 11); ("state", JStr "closed"); ("user", JNull)]).
  - reflexivity.
  - right. left. reflexivity.
  - reflexivity.
Defined.

(** One issue whose [user] is [null] hides them all: whenever the payload
    is a list of objects that holds such an issue (an item without the
    [pull_request] field), [get_issues] raises, and every envelope
    [get_comprehensive_stats] returns shows the empty issue section. *)
Theorem null_author_empties_issues (utcoffset : Z -> Z) (s : session)
    (owner repo : string) (items : list json) (kvs : list (string * json)) :
  _make_request s (issues_url owner repo) (Some (list_params "all" 50)) = JList items ->
  In (JObj kvs) items ->
  lookup "pull_request" kvs = None ->
  lookup "user" kvs = Some JNull ->
  is_ok (get_issues s owner repo "all" 50) = false /\
  (forall r, get_comprehensive_stats utcoffset s owner repo = Ok r ->
             field "issues" r = Some (issue_stats 0 0 0 [])).
Proof.
  intros Hp Hin Hpr Hu.
  assert (F : is_ok (get_issues s owner repo "all" 50) = false).
  { unfold get_issues. rewrite Hp.
    destruct items as [|i items']; [destruct Hin|].
    cbn [truthy is_list negb orb py_iter bind].
    destruct (filterM not_pull_request (i :: items')) as [actual|e] eqn:E;
      [|reflexivity].
    cbn [bind].
    assert (Ha : In (JObj kvs) actual).
    { eapply filterM_keeps; [exact E | exact Hin|].
      unfold not_pull_request. simpl. rewrite Hpr. reflexivity. }
    destruct (py_count (state_is "open") actual 0); [|reflexivity]. cbn [bind].
    destruct (py_count (state_is "closed") actual 0); [|reflexivity]. cbn [bind].
    pose proof (mapM_fails issue_detail (JObj kvs) actual Ha
                  (f_equal is_ok (issue_detail_null_user kvs Hu))) as M.
    destruct (mapM issue_detail actual); [discriminate | reflexivity]. }
  split; [exact F|].
  intros r H. unfold get_comprehensive_stats, assemble, gather in H.
  cbn [g_repo_info g_contributors g_pull_requests g_issues g_commit_activity
       g_languages g_releases] in H.
  destruct (get_issues s owner repo "all" 50) as [v|e]; [discriminate|].
  cbn [or_default] in H.
  destruct (negb (truthy _)); [discriminate|].
  bind_inv H. injection H as <-. reflexivity.
Qed.

Lemma null_author_empties_issues_witness :
  is_ok (get_issues sample_session_null_issue_author "octocat" "Hello-World" "all" 50)
    = false /\
  (forall r, get_comprehensive_stats utc sample_session_null_issue_author
               "octocat" "Hello-World" = Ok r ->
             field "issues" r = Some (issue_stats 0 0 0 [])).
Proof.
  apply (null_author_empties_issues
           utc sample_session_null_issue_author "octocat" "Hello-World"
           [JObj [("number", JNum 7); ("state", JStr "open"); ("user", JNull)]]
           [("number", JNum 7); ("state", JStr "open"); ("user", JNull)]).
  - reflexivity.
  - left. reflexivity.
  - reflexivity.
  - reflexivity.
Defined.

(** ** When the aggregation succeeds *)

Lemma week_entry_numeric (utcoffset : Z -> Z) (week e : json) :
  week_entry utcoffset week = Ok e ->
  is_object e = true /\ numeric_total e = numeric_total week.
Proof.
  unfold week_entry. intros H. bind_inv H. injection H as <-.
  split; [reflexivity|].
  destruct week as [| | | | |kvs]; try discriminate.
  simpl in Hx1. injection Hx1 as <-.
  unfold numeric_total. simpl.
  destruct (lookup "total" kvs) as [v|]; reflexivity.
Qed.

Lemma mapM_week_entry (utcoffset : Z -> Z) (weeks out : list json) :
  mapM (week_entry utcoffset) weeks = Ok out ->
  forallb is_object out = true /\
  forallb numeric_total out = forallb numeric_total weeks.
Proof.
  revert out. induction weeks as [|w weeks IH]; intros out H; simpl in H.
  - injection H as <-. auto.
  - bind_inv H. injection H as <-.
    apply week_entry_numeric in Hx. destruct Hx as (Ho & Hn).
    destruct (IH _ Hx0) as (IHo & IHn). simpl. rewrite Ho, Hn, IHo, IHn. auto.
Qed.

(** [sum] over the weeks returns exactly when every [total] is numeric, and
    raises [TypeError] otherwise. *)
Lemma py_sum_numeric (weeks : list json) :
  forallb is_object weeks = true ->
  forall acc,
    (forallb numeric_total weeks = true ->
     exists n, py_sum (fun week => py_get week "total" (JNum 0)) weeks acc = Ok n) /\
    (forallb numeric_total weeks = false ->
     exists m, py_sum (fun week => py_get week "total" (JNum 0)) weeks acc
               = Err (TypeError m)).
Proof.
  induction weeks as [|w weeks IH]; intros Hobj acc; simpl.
  - split; [eauto | discriminate].
  - simpl in Hobj. apply andb_true_iff in Hobj. destruct Hobj as (Hw & Hobj).
    destruct w as [| | | | |kvs]; try discriminate.
    unfold numeric_total at 1 3. simpl.
    destruct (lookup "total" kvs) as [[|b|z|t|l|o]|]; simpl;
      try (split; [discriminate | intros _; eexists; reflexivity]);
      apply (IH Hobj).
Qed.

Lemma py_sum_ok_numeric (weeks : list json) (acc n : Z) :
  py_sum (fun week => py_get week "total" (JNum 0)) weeks acc = Ok n ->
  forallb numeric_total weeks = true.
Proof.
  revert acc. induction weeks as [|w weeks IH]; intros acc H; [reflexivity|].
  simpl in H. bind_inv H. apply IH in H. simpl. rewrite H, andb_true_r.
  destruct w as [| | | | |kvs]; try discriminate.
  simpl in Hx. injection Hx as <-. unfold numeric_total. simpl.
  destruct (lookup "total" kvs) as [[| | | | |]|]; try reflexivity; discriminate.
Qed.

(** What [get_commit_activity] returns is a list of objects whose totals
    are those of the retained buckets. *)
Lemma get_commit_activity_entries (utcoffset : Z -> Z) (s : session)
    (owner repo : string) (v : json) :
  get_commit_activity utcoffset s owner repo = Ok v ->
  exists out,
    v = JList out /\ forallb is_object out = true /\
    forallb numeric_total out
    = forallb numeric_total
        (recent_weeks (payload_items
                         (_make_request s (commit_activity_url owner repo) None))).
Proof.
  rewrite get_commit_activity_unfold. intros H. bind_inv H. injection H as <-.
  apply mapM_week_entry in Hx. destruct Hx as (Ho & Hn). eauto.
Qed.

Lemma license_name_ok (kvs : list (string * json)) :
  is_ok (license_name (JObj kvs)) = license_ok kvs.
Proof.
  unfold license_name, license_ok. simpl.
  destruct (lookup "license" kvs) as [l|]; simpl; [|reflexivity].
  destruct (truthy l); simpl; [|reflexivity].
  destruct l; reflexivity.
Qed.

Lemma repository_section_ok (kvs : list (string * json)) :
  is_ok (repository_section (JObj kvs)) = license_ok kvs.
Proof.
  unfold repository_section. cbn [py_get bind].
  rewrite <- license_name_ok. destruct (license_name (JObj kvs)); reflexivity.
Qed.

Lemma repository_section_object (v x : json) :
  repository_section v = Ok x -> exists kvs, v = JObj kvs.
Proof. destruct v; try discriminate. eauto. Qed.

(** The aggregation succeeds exactly when the repository payload is a
    non-empty object whose license entry is missing, falsy or an object,
    and every retained week of the commit activity, if that fetch returned,
    has a numeric total.  No other payload can make it fail. *)
Theorem get_comprehensive_stats_succeeds_iff (utcoffset : Z -> Z) (s : session)
    (owner repo : string) :
  is_ok (get_comprehensive_stats utcoffset s owner repo) = true <->
  (exists kvs,
     _make_request s (repo_info_url owner repo) None = JObj kvs /\
     kvs <> [] /\ license_ok kvs = true) /\
  (is_ok (get_commit_activity utcoffset s owner repo) = true ->
   forallb numeric_total
     (recent_weeks (payload_items
                      (_make_request s (commit_activity_url owner repo) None)))
   = true).
Proof.
  unfold get_comprehensive_stats, assemble, gather.
  cbn [g_repo_info g_contributors g_pull_requests g_issues g_commit_activity
       g_languages g_releases].
  destruct (contributors_is_list s owner repo 30) as (cs & Ecs).
  destruct (pull_requests_is_stats s owner repo "all" 50) as (o & c & m & t & ds & Ep).
  destruct (issues_is_stats s owner repo "all" 50) as (o' & c' & t' & ds' & Ei).
  rewrite Ecs, Ep, Ei. unfold get_repo_info. cbn [or_default].
  set (ri := _make_request s (repo_info_url owner repo) None).
  assert (Hca : exists out,
             or_default (get_commit_activity utcoffset s owner repo) (JList []) = JList out /\
             forallb is_object out = true /\
             (is_ok (get_commit_activity utcoffset s owner repo) = true ->
              forallb numeric_total out
              = forallb numeric_total
                  (recent_weeks (payload_items
                     (_make_request s (commit_activity_url owner repo) None)))) /\
             (is_ok (get_commit_activity utcoffset s owner repo) = false -> out = [])).
  { destruct (get_commit_activity utcoffset s owner repo) as [v|e] eqn:E.
    - apply get_commit_activity_entries in E. destruct E as (out & -> & Ho & Hn).
      exists out. simpl. repeat split; auto. discriminate.
    - exists []. simpl. repeat split; auto. discriminate. }
  destruct Hca as (out & Eca & Hobj & Hnum & Hnil). rewrite Eca.
  assert (Hsum : is_ok (total_commits_of (JList out)) = forallb numeric_total out).
  { unfold total_commits_of. destruct out as [|w out']; [reflexivity|].
    cbn [truthy py_iter bind].
    destruct (py_sum_numeric (w :: out') Hobj 0) as [St Sf].
    destruct (forallb numeric_total (w :: out')).
    - destruct (St eq_refl) as (n & ->). reflexivity.
    - destruct (Sf eq_refl) as (msg & ->). reflexivity. }
  split.
  - intros H. destruct (negb (truthy ri)) eqn:T; [discriminate|].
    destruct (total_commits_of (JList out)) as [n|e] eqn:En; [|discriminate].
    cbn [bind] in H.
    destruct (repository_section ri) as [x|e] eqn:Er; [|discriminate].
    destruct (repository_section_object _ _ Er) as (kvs & Ekvs).
    split.
    + exists kvs. split; [exact Ekvs|]. split.
      * intros ->. rewrite Ekvs in T. discriminate.
      * rewrite <- repository_section_ok, <- Ekvs, Er. reflexivity.
    + intros Hok. rewrite <- (Hnum Hok), <- Hsum. reflexivity.
  - intros ((kvs & Ekvs & Hne & Hlic) & Hw). rewrite Ekvs.
    destruct kvs as [|kv kvs']; [congruence|]. cbn [truthy negb].
    assert (Hs : forallb numeric_total out = true).
    { destruct (is_ok (get_commit_activity utcoffset s owner repo)) eqn:Hok.
      - rewrite (Hnum eq_refl). now apply Hw.
      - now rewrite (Hnil eq_refl). }
    rewrite Hs in Hsum.
    destruct (total_commits_of (JList out)) as [n|e]; [|discriminate]. cbn [bind].
    pose proof (repository_section_ok (kv :: kvs')) as R. rewrite Hlic in R.
    destruct (repository_section (JObj (kv :: kvs'))) as [x|e]; [|discriminate].
    cbn [bind]. reflexivity.
Qed.

Lemma get_comprehensive_stats_succeeds_iff_witness :
  is_ok (get_comprehensive_stats utc sample_session "octocat" "Hello-World") = true.
Proof.
  apply (proj2 (get_comprehensive_stats_succeeds_iff
                  utc sample_session "octocat" "Hello-World")).
  split.
  - eexists. split; [reflexivity|]. split; [discriminate | reflexivity].
  - intros _. vm_compute. reflexivity.
Defined.

(** A total that is no number in a retained week is not absorbed like a
    failed category: when the commit-activity fetch returns and some
    retained bucket carries such a total (a [null], a text), the
    aggregation raises [TypeError], and the handler answers 500 with the
    text of that error, whatever the other payloads hold. *)
Theorem non_numeric_total_is_internal_error (cfg : settings) (utcoffset : Z -> Z)
    (s : session) (repo_url owner repo : string) :
  parse_repo_url repo_url = Ok (owner, repo) ->
  service_init cfg = Ok tt ->
  truthy (_make_request s (repo_info_url owner repo) None) = true ->
  is_ok (get_commit_activity utcoffset s owner repo) = true ->
  forallb numeric_total
    (recent_weeks (payload_items
                     (_make_request s (commit_activity_url owner repo) None)))
  = false ->
  exists m,
    get_comprehensive_stats utcoffset s owner repo = Err (TypeError m) /\
    analyze_repository cfg utcoffset s repo_url
    = Err (HTTPException 500 ("Failed to analyze repository: " ++ m)).
Proof.
  intros Hp Hc Hri Hok Hbad.
  assert (E : exists m, get_comprehensive_stats utcoffset s owner repo = Err (TypeError m)).
  { unfold get_comprehensive_stats, assemble, gather.
    cbn [g_repo_info g_contributors g_pull_requests g_issues g_commit_activity
         g_languages g_releases].
    unfold get_repo_info. cbn [or_default]. rewrite Hri. cbn [negb].
    destruct (get_commit_activity utcoffset s owner repo) as [v|e] eqn:Eca;
      [|discriminate].
    apply get_commit_activity_entries in Eca. destruct Eca as (out & -> & Ho & Hn).
    rewrite Hbad in Hn. cbn [or_default]. unfold total_commits_of.
    destruct out as [|w out']; [discriminate|]. cbn [truthy py_iter bind].
    destruct (proj2 (py_sum_numeric (w :: out') Ho 0) Hn) as (m & ->).
    exists m. reflexivity. }
  destruct E as (m & E). exists m. split; [exact E|].
  apply (analyze_unexpected cfg utcoffset s repo_url owner repo (TypeError m) Hp Hc E);
    discriminate.
Qed.

Lemma non_numeric_total_is_internal_error_witness :
  exists m,
    get_comprehensive_stats utc sample_session_null_total "octocat" "Hello-World"
      = Err (TypeError m) /\
    analyze_repository sample_settings utc sample_session_null_total "octocat/Hello-World"
      = Err (HTTPException 500 ("Failed to analyze repository: " ++ m)).
Proof.
  apply (non_numeric_total_is_internal_error
           sample_settings utc sample_session_null_total
           "octocat/Hello-World" "octocat" "Hello-World").
  - vm_compute. reflexivity.
  - reflexivity.
  - reflexivity.
  - vm_compute. reflexivity.
  - vm_compute. reflexivity.
Defined.

(** ** What the handler can answer *)

Lemma service_init_err (cfg : settings) (e : exn) :
  service_init cfg = Err e ->
  e = ValueError "GitHub token not configured in environment variables" /\
  (github_token cfg = None \/ github_token cfg = Some "").
Proof.
  unfold service_init. destruct (github_token cfg) as [[|c t]|].
  - intros [= <-]. auto.
  - discriminate.
  - intros [= <-]. auto.
Qed.

(** The handler raises nothing but an [HTTPException] with status 400, 404
    or 500; the status is 400 exactly when the input cannot be parsed. *)
Theorem analyze_repository_failures (cfg : settings) (utcoffset : Z -> Z)
    (s : session) (repo_url : string) (e : exn) :
  analyze_repository cfg utcoffset s repo_url = Err e ->
  exists detail,
    (e = HTTPException 400 detail /\ is_ok (parse_repo_url repo_url) = false) \/
    ((e = HTTPException 404 detail \/ e = HTTPException 500 detail) /\
     is_ok (parse_repo_url repo_url) = true).
Proof.
  unfold analyze_repository, analyze_body.
  destruct (parse_repo_url repo_url) as [[owner repo]|e0] eqn:Hp.
  - cbn [bind]. destruct (service_init cfg) as [[]|e1] eqn:Hc.
    + cbn [bind]. destruct (get_comprehensive_stats utcoffset s owner repo) as [r|e2] eqn:Hg;
        [discriminate|].
      unfold get_comprehensive_stats in Hg. apply assemble_err in Hg.
      destruct Hg as [-> | (m & [-> | ->])]; intros [= <-]; eexists; right; auto.
    + apply service_init_err in Hc. destruct Hc as (-> & _). cbn [bind].
      intros [= <-]. eexists. right. auto.
  - apply first_match_error in Hp. subst e0. cbn [bind].
    intros [= <-]. eexists. left. auto.
Qed.

Lemma analyze_repository_failures_witness :
  exists detail,
    (HTTPException 404 "Repository octocat/Spoon-Knife not found"
       = HTTPException 400 detail /\
     is_ok (parse_repo_url "octocat/Spoon-Knife") = false) \/
    ((HTTPException 404 "Repository octocat/Spoon-Knife not found"
        = HTTPException 404 detail \/
      HTTPException 404 "Repository octocat/Spoon-Knife not found"
        = HTTPException 500 detail) /\
     is_ok (parse_repo_url "octocat/Spoon-Knife") = true).
Proof.
  apply (analyze_repository_failures sample_settings utc sample_session
           "octocat/Spoon-Knife").
  vm_compute. reflexivity.
Defined.

(** Whenever the handler returns, the input was parsed, a token is
    configured, the repository-info request brought a payload, and what is
    returned is the envelope of the aggregation: its status is "success"
    and its [repo] is the parsed [owner/repo]. *)
Theorem analyze_repository_success (cfg : settings) (utcoffset : Z -> Z)
    (s : session) (repo_url : string) (r : json) :
  analyze_repository cfg utcoffset s repo_url = Ok r ->
  exists owner repo,
    parse_repo_url repo_url = Ok (owner, repo) /\
    service_init cfg = Ok tt /\
    truthy (_make_request s (repo_info_url owner repo) None) = true /\
    get_comprehensive_stats utcoffset s owner repo = Ok r /\
    field "status" r = Some (JStr "success") /\
    field "repo" r = Some (JStr (owner ++ "/" ++ repo)).
Proof.
  unfold analyze_repository, analyze_body.
  destruct (parse_repo_url repo_url) as [[owner repo]|e0] eqn:Hp.
  - cbn [bind]. destruct (service_init cfg) as [[]|e1] eqn:Hc.
    + cbn [bind]. destruct (get_comprehensive_stats utcoffset s owner repo) as [r'|e2] eqn:Hg.
      * intros [= <-]. exists owner, repo.
        pose proof Hg as Ha. unfold get_comprehensive_stats, assemble, gather in Ha.
        cbn [g_repo_info or_default] in Ha. unfold get_repo_info in Ha.
        cbn [or_default] in Ha.
        destruct (truthy (_make_request s (repo_info_url owner repo) None)) eqn:T;
          [|discriminate].
        cbn [negb] in Ha. bind_inv Ha. injection Ha as <-.
        repeat split; try reflexivity; exact Hg.
      * destruct e2; discriminate.
    + cbn [bind]. destruct e1; discriminate.
  - destruct e0; cbn [bind]; discriminate.
Qed.

Lemma analyze_repository_success_witness :
  exists r owner repo,
    analyze_repository sample_settings utc sample_session
      "https://github.com/octocat/Hello-World.git" = Ok r /\
    parse_repo_url "https://github.com/octocat/Hello-World.git" = Ok (owner, repo) /\
    field "repo" r = Some (JStr (owner ++ "/" ++ repo)).
Proof.
  eassert (E : analyze_repository sample_settings utc sample_session
                 "https://github.com/octocat/Hello-World.git" = Ok _)
    by (vm_compute; reflexivity).
  destruct (analyze_repository_success _ _ _ _ _ E)
    as (owner & repo & Hp & _ & _ & _ & _ & Hr).
  eexists. exists owner, repo. split; [exact E|]. split; [exact Hp | exact Hr].
Defined.

(** Without a token nothing of the upstream reaches the caller: an input
    that cannot be parsed is answered 400, and every other request 404 with
    the configuration message, whatever the upstream holds. *)
Theorem analyze_repository_without_token (cfg : settings) (utcoffset : Z -> Z)
    (s : session) (repo_url : string) :
  github_token cfg = None \/ github_token cfg = Some "" ->
  analyze_repository cfg utcoffset s repo_url =
  match parse_repo_url repo_url with
  | Ok _ =>
      Err (HTTPException 404 "GitHub token not configured in environment variables")
  | Err _ =>
      Err (HTTPException 400 (invalid_format_message (normalize repo_url)))
  end.
Proof.
  intros Ht.
  assert (Hc : service_init cfg
               = Err (ValueError "GitHub token not configured in environment variables")).
  { unfold service_init. destruct Ht as [-> | ->]; reflexivity. }
  destruct (parse_repo_url repo_url) as [[owner repo]|e] eqn:Hp.
  - unfold analyze_repository, analyze_body. rewrite Hp. cbn [bind].
    rewrite Hc. reflexivity.
  - eapply analyze_parse_failure. exact Hp.
Qed.

Lemma analyze_repository_without_token_witness :
  analyze_repository (Settings (Some "")) utc sample_session "not a valid repo"
  = Err (HTTPException 400 (invalid_format_message "not a valid repo")).
Proof.
  apply (analyze_repository_without_token (Settings (Some "")) utc sample_session
           "not a valid repo").
  right. reflexivity.
Defined.

(** In every envelope the star and fork counters of [metrics] are those of
    the [repository] section: the upstream counters, or 0 where the
    repository payload has none. *)
Theorem metrics_repeat_repository_counters (utcoffset : Z -> Z) (s : session)
    (owner repo : string) (r : json) :
  get_comprehensive_stats utcoffset s owner repo = Ok r ->
  exists kvs repository metrics,
    _make_request s (repo_info_url owner repo) None = JObj kvs /\
    field "repository" r = Some repository /\
    field "metrics" r = Some metrics /\
    field "stars" repository = Some (lookup_or "stargazers_count" kvs (JNum 0)) /\
    field "stars" metrics = Some (lookup_or "stargazers_count" kvs (JNum 0)) /\
    field "forks" repository = Some (lookup_or "forks_count" kvs (JNum 0)) /\
    field "forks" metrics = Some (lookup_or "forks_count" kvs (JNum 0)).
Proof.
  unfold get_comprehensive_stats, assemble, gather.
  cbn [g_repo_info g_contributors g_pull_requests g_issues g_commit_activity
       g_languages g_releases].
  unfold get_repo_info. cbn [or_default]. intros H.
  destruct (negb (truthy _)); [discriminate|].
  bind_inv H. injection H as <-.
  match goal with
  | K : repository_section _ = Ok _ |- _ =>
      destruct (repository_section_object _ _ K) as (kvs & Ekvs);
      rewrite Ekvs in *; unfold repository_section in K; cbn [py_get bind] in K;
      bind_inv K; injection K as <-
  end.
  match goal with
  | K : metrics_section _ _ _ _ _ = Ok _ |- _ =>
      unfold metrics_section in K; cbn [py_get bind] in K; bind_inv K;
      injection K as <-
  end.
  exists kvs. eexists. eexists. split; [reflexivity|]. repeat split.
Qed.

Lemma metrics_repeat_repository_counters_witness :
  exists r repository metrics,
    get_comprehensive_stats utc sample_session "octocat" "Hello-World" = Ok r /\
    field "repository" r = Some repository /\
    field "metrics" r = Some metrics /\
    field "stars" repository = Some (JNum 80) /\
    field "stars" metrics = Some (JNum 80).
Proof.
  eassert (E : get_comprehensive_stats utc sample_session "octocat" "Hello-World" = Ok _)
    by (vm_compute; reflexivity).
  destruct (metrics_repeat_repository_counters utc sample_session "octocat" "Hello-World" _ E)
    as (kvs & repository & metrics & Hk & Hr & Hm & Hsr & Hsm & _).
  vm_compute in Hk. injection Hk as <-.
  eexists. exists repository, metrics.
  split; [exact E|]. split; [exact Hr|]. split; [exact Hm|]. split; [exact Hsr | exact Hsm].
Defined.

(** ** When [parse_repo_url] is right *)

(** A greedy run of a class takes every character of the class ahead, up
    to the first character outside the class, when the rest of the pattern
    accepts what follows. *)
Lemma run_star_greedy (cl : Re.cls) (k : Re.mstate -> option (list (nat * string)))
    (w rest' : list ascii) (g : list (nat * string)) :
  forall st,
    Re.rest st = (w ++ rest')%list ->
    forallb (fun c => Re.in_class c cl) w = true ->
    match rest' with [] => true | x :: _ => negb (Re.in_class x cl) end = true ->
    k (Re.MState (Re.pos st + List.length w) rest' (Re.groups st)) = Some g ->
    Re.run (Re.Star true cl) k st = Some g.
Proof.
  intros st Hr Hw Hstop Hk. cbn [Re.run]. rewrite Hr. clear Hr.
  revert Hk. generalize (Re.pos st) as p. revert Hw.
  induction w as [|c w IH]; intros Hw p Hk.
  - simpl in Hk. rewrite Nat.add_0_r in Hk. simpl.
    destruct rest' as [|x l]; [exact Hk|].
    apply negb_true_iff in Hstop. rewrite Hstop. exact Hk.
  - simpl in Hw. apply andb_true_iff in Hw. destruct Hw as (Hc & Hw).
    simpl. rewrite Hc.
    rewrite (IH Hw (S p)); [reflexivity|].
    simpl in Hk. now rewrite Nat.add_succ_r in Hk.
Qed.

(** A lazy run of a class goes on as long as the rest of the pattern
    refuses what follows. *)
Lemma run_star_lazy (cl : Re.cls) (k : Re.mstate -> option (list (nat * string)))
    (w rest' : list ascii) (g : list (nat * string)) :
  forall st,
    Re.rest st = (w ++ rest')%list ->
    forallb (fun c => Re.in_class c cl) w = true ->
    (forall w1 w2, w = (w1 ++ w2)%list -> w2 <> [] ->
       k (Re.MState (Re.pos st + List.length w1) (w2 ++ rest') (Re.groups st)) = None) ->
    k (Re.MState (Re.pos st + List.length w) rest' (Re.groups st)) = Some g ->
    Re.run (Re.Star false cl) k st = Some g.
Proof.
  intros st Hr Hw Hfail Hk. cbn [Re.run]. rewrite Hr. clear Hr.
  revert Hfail Hk. generalize (Re.pos st) as p. revert Hw.
  induction w as [|c w IH]; intros Hw p Hfail Hk.
  - simpl in Hk. rewrite Nat.add_0_r in Hk. simpl.
    destruct rest' as [|x l]; [exact Hk|].
    rewrite Hk. destruct (Re.in_class x cl); reflexivity.
  - simpl in Hw. apply andb_true_iff in Hw. destruct Hw as (Hc & Hw).
    simpl. rewrite Hc.
    pose proof (Hfail [] (c :: w) eq_refl ltac:(discriminate)) as H0.
    simpl in H0. rewrite Nat.add_0_r in H0. rewrite H0.
    apply (IH Hw (S p)).
    + intros w1 w2 E Hne.
      specialize (Hfail (c :: w1) w2 (f_equal (cons c) E) Hne).
      simpl in Hfail. now rewrite Nat.add_succ_r in Hfail.
    + simpl in Hk. now rewrite Nat.add_succ_r in Hk.
Qed.

Lemma run_cls (cl : Re.cls) (k : Re.mstate -> option (list (nat * string)))
    (st : Re.mstate) (c : ascii) (l : list ascii) :
  Re.rest st = c :: l -> Re.in_class c cl = true ->
  Re.run (Re.Cls cl) k st = k (Re.MState (S (Re.pos st)) l (Re.groups st)).
Proof. intros Hr Hc. simpl. now rewrite Hr, Hc. Qed.

(** The group made of one character of a class and a run of a class, with
    the text it then records. *)
Lemma run_cap_cls_star (n : nat) (a b : Re.cls) (greedy : bool)
    (k : Re.mstate -> option (list (nat * string)))
    (st : Re.mstate) (c : ascii) (w rest' : list ascii) (g : list (nat * string)) :
  Re.rest st = (c :: w ++ rest')%list ->
  Re.in_class c a = true ->
  forallb (fun x => Re.in_class x b) w = true ->
  (if greedy
   then match rest' with [] => true | x :: _ => negb (Re.in_class x b) end = true
   else forall w1 w2, w = (w1 ++ w2)%list -> w2 <> [] ->
          k (Re.MState (S (Re.pos st) + List.length w1) (w2 ++ rest')
               ((n, str_of (c :: w1)) :: Re.groups st)) = None) ->
  k (Re.MState (S (Re.pos st) + List.length w) rest'
       ((n, str_of (c :: w)) :: Re.groups st)) = Some g ->
  Re.run (Re.Cap n (Re.Cat (Re.Cls a) (Re.Star greedy b))) k st = Some g.
Proof.
  intros Hr Hc Hw Hside Hk.
  assert (T : forall v u : list ascii,
             firstn (S (Re.pos st) + List.length v - Re.pos st) (c :: v ++ u) = c :: v).
  { intros v u.
    replace (S (Re.pos st) + List.length v - Re.pos st)%nat
      with (S (List.length v)) by lia.
    change (S (List.length v)) with (List.length (c :: v)).
    change (c :: (v ++ u)%list) with ((c :: v) ++ u)%list. apply firstn_exact. }
  change (Re.run (Re.Cap n (Re.Cat (Re.Cls a) (Re.Star greedy b))) k st)
    with (Re.run (Re.Cls a)
            (Re.run (Re.Star greedy b)
               (fun st' =>
                  let text := str_of (firstn (Re.pos st' - Re.pos st) (Re.rest st)) in
                  k (Re.MState (Re.pos st') (Re.rest st') ((n, text) :: Re.groups st'))))
            st).
  rewrite (run_cls a _ st c (w ++ rest') Hr Hc).
  destruct greedy.
  - apply (run_star_greedy b _ w rest'); try assumption; try reflexivity.
    cbn [Re.pos Re.rest Re.groups]. rewrite Hr, T. exact Hk.
  - apply (run_star_lazy b _ w rest'); try assumption; try reflexivity.
    + intros w1 w2 E Hne. cbn [Re.pos Re.rest Re.groups].
      rewrite Hr, E, <- app_assoc, T. now apply Hside.
    + cbn [Re.pos Re.rest Re.groups]. rewrite Hr, T. exact Hk.
Qed.

Lemma strip_prefix_app (p l : list ascii) : Re.strip_prefix p (p ++ l) = Some l.
Proof.
  induction p as [|a p IH]; simpl; [reflexivity|].
  now rewrite Ascii.eqb_refl.
Qed.

Lemma run_str (t : string) (k : Re.mstate -> option (list (nat * string)))
    (st : Re.mstate) (l : list ascii) :
  Re.rest st = (chars t ++ l)%list ->
  Re.run (Re.Str t) k st
  = k (Re.MState (Re.pos st + List.length (chars t)) l (Re.groups st)).
Proof. intros Hr. simpl. now rewrite Hr, strip_prefix_app. Qed.

Lemma search_from_here (r : Re.regex) (p : nat) (l : list ascii)
    (g : list (nat * string)) :
  Re.run r (fun st => Some (Re.groups st)) (Re.MState p l []) = Some g ->
  Re.search_from r p l = Some g.
Proof. intros H. destruct l; simpl; now rewrite H. Qed.

Lemma last_char_is_orb (p q : ascii -> bool) (t : string) :
  last_char_is (fun c => p c || q c) t = last_char_is p t || last_char_is q t.
Proof. unfold last_char_is. destruct (rev (chars t)); reflexivity. Qed.

Lemma last_char_is_append (p : ascii -> bool) (a b : string) :
  b <> "" -> last_char_is p (a ++ b) = last_char_is p b.
Proof.
  intros Hb. unfold last_char_is. rewrite chars_app, rev_app_distr.
  destruct (rev (chars b)) as [|x l] eqn:E; [|reflexivity].
  exfalso. apply Hb. rewrite <- (str_of_chars b).
  apply (f_equal (@rev ascii)) in E. rewrite rev_involutive in E. now rewrite E.
Qed.

Lemma last_char_is_false (p : ascii -> bool) (t : string) :
  last_char_is p t = false ->
  match rev (chars t) with x :: _ => p x = false | [] => True end.
Proof. unfold last_char_is. destruct (rev (chars t)); auto. Qed.

(** A text that starts with no white space and ends neither in white
    space, nor in a slash, nor in one of the characters of [.git] is its
    own normal form. *)
Lemma normalize_fixed (t : string) :
  match chars t with c :: _ => isspace c = false | [] => True end ->
  last_char_is isspace t = false ->
  last_char_is (fun c => Ascii.eqb c "/") t = false ->
  last_char_is git_letter t = false ->
  normalize t = t.
Proof.
  intros Hfirst Hsp Hsl Hgit.
  assert (S1 : strip t = t).
  { rewrite <- (str_of_chars (strip t)), (chars_strip_clean _ Hsp).
    destruct (chars t) as [|c l] eqn:E.
    - simpl. rewrite <- (str_of_chars t), E. reflexivity.
    - simpl. rewrite Hfirst. rewrite <- E. apply str_of_chars. }
  assert (S2 : forall cs, last_char_is (fun c => mem_ascii c (chars cs)) t = false ->
                          rstrip cs t = t).
  { intros cs H. unfold rstrip.
    rewrite rdropwhile_clean; [apply str_of_chars|].
    now apply (last_char_is_false (fun c => mem_ascii c (chars cs))). }
  unfold normalize. rewrite S1.
  rewrite (S2 "/").
  - apply (S2 ".git"). exact Hgit.
  - unfold last_char_is in *. destruct (rev (chars t)); [reflexivity|].
    simpl. now rewrite Hsl.
Qed.

(** Letters, digits and the punctuation of names are no white space, no
    slash and no colon. *)
Lemma repo_char_plain (c : ascii) :
  repo_char c = true ->
  isspace c = false /\ Ascii.eqb c "/" = false /\ Ascii.eqb c ":" = false.
Proof.
  unfold repo_char, is_alnum, isspace. cbv zeta. intros H.
  destruct (Ascii.eqb c ".") eqn:E1;
    [apply Ascii.eqb_eq in E1; subst c; repeat split|].
  destruct (Ascii.eqb c "_") eqn:E2;
    [apply Ascii.eqb_eq in E2; subst c; repeat split|].
  destruct (Ascii.eqb c "-") eqn:E3;
    [apply Ascii.eqb_eq in E3; subst c; repeat split|].
  rewrite !orb_false_r in H.
  assert (Hn : (97 <= code c <= 122 \/ 65 <= code c <= 90 \/ 48 <= code c <= 57)%N).
  { repeat (apply orb_true_iff in H; destruct H as [H | H]);
      apply andb_true_iff in H; destruct H as (A & B);
      apply N.leb_le in A, B; lia. }
  split; [|split].
  - destruct ((9 <=? code c) && (code c <=? 13))%N eqn:A;
      [apply andb_true_iff in A; destruct A as (A1 & A2);
       apply N.leb_le in A1, A2; lia|].
    destruct ((28 <=? code c) && (code c <=? 32))%N eqn:B;
      [apply andb_true_iff in B; destruct B as (B1 & B2);
       apply N.leb_le in B1, B2; lia|].
    destruct (code c =? 133)%N eqn:C; [apply N.eqb_eq in C; lia|].
    destruct (code c =? 160)%N eqn:D; [apply N.eqb_eq in D; lia|].
    reflexivity.
  - apply Ascii.eqb_neq. intros ->. change (code "/") with 47%N in Hn. lia.
  - apply Ascii.eqb_neq. intros ->. change (code ":") with 58%N in Hn. lia.
Qed.

Lemma owner_char_is_repo_char (c : ascii) : owner_char c = true -> repo_char c = true.
Proof.
  unfold owner_char, repo_char. intros H. apply orb_true_iff in H.
  destruct H as [-> | ->]; [reflexivity | apply orb_true_r].
Qed.

Lemma count_slash_none (l : list ascii) :
  forallb (fun c => negb (Ascii.eqb c "/")) l = true ->
  count_occ ascii_dec l "/"%char = 0%nat.
Proof.
  intros H. apply count_occ_not_In. intros Hin.
  rewrite forallb_forall in H. apply H in Hin. discriminate.
Qed.

Lemma forallb_no_slash (p : ascii -> bool) (l : list ascii) :
  (forall c, p c = true -> Ascii.eqb c "/" = false) ->
  forallb p l = true ->
  forallb (fun c => negb (Ascii.eqb c "/")) l = true.
Proof.
  intros Hp. apply forallb_weaken. intros c Hc. now rewrite (Hp c Hc).
Qed.

(** The URL pattern matches no text that holds a single slash and no
    colon. *)
Lemma search_url_needs_more (text : string) :
  count_occ ascii_dec (chars text) "/"%char = 1%nat ->
  ~ In ":"%char (chars text) ->
  Re.search pattern_url text = None.
Proof.
  intros Hone Hcolon.
  destruct (Re.search pattern_url text) as [m|] eqn:E; [|reflexivity].
  exfalso. apply search_url_shape in E.
  destruct E as (pre & sep & o & r & suf & Hc & _ & _ & Hsep & _).
  destruct Hsep as [-> | ->].
  - apply Hcolon. rewrite Hc. apply in_or_app. right. apply in_or_app. right. now left.
  - rewrite Hc in Hone. rewrite !count_occ_app in Hone.
    rewrite count_occ_cons_eq in Hone by reflexivity.
    rewrite count_occ_app in Hone.
    rewrite count_occ_cons_eq in Hone by reflexivity. lia.
Qed.

Lemma run_cat (r1 r2 : Re.regex) (k : Re.mstate -> option (list (nat * string)))
    (st : Re.mstate) :
  Re.run (Re.Cat r1 r2) k st = Re.run r1 (Re.run r2 k) st.
Proof. reflexivity. Qed.

Lemma last_char_is_forall (p q : ascii -> bool) (t : string) :
  forallb q (chars t) = true ->
  (forall c, q c = true -> p c = false) ->
  last_char_is p t = false.
Proof.
  intros Hq Hpq. unfold last_char_is.
  destruct (rev (chars t)) as [|x l] eqn:E; [reflexivity|].
  apply Hpq. rewrite forallb_forall in Hq. apply Hq.
  apply in_rev. rewrite E. now left.
Qed.

Lemma valid_repo_inv (repo : string) :
  valid_repo repo = true ->
  repo <> "" /\ forallb repo_char (chars repo) = true /\
  exists c w, chars repo = c :: w.
Proof.
  unfold valid_repo. intros H. apply andb_true_iff in H. destruct H as (Hne & Hall).
  apply negb_true_iff in Hne. apply String.eqb_neq in Hne.
  repeat split; try assumption.
  destruct (chars repo) as [|c w] eqn:E; [|eauto].
  exfalso. apply Hne. rewrite <- (str_of_chars repo), E. reflexivity.
Qed.

(** A valid shorthand is returned as it stands, unless the repository name
    ends in [.], [g], [i] or [t]: for an owner made of a letter or digit
    followed by letters, digits and hyphens, and a non-empty name made of
    letters, digits, dots, underscores and hyphens that ends in none of
    those four characters, [parse_repo_url] answers [(owner, repo)]. *)
Theorem parse_repo_url_shorthand_complete (owner repo : string) :
  valid_owner owner = true ->
  valid_repo repo = true ->
  last_char_is git_letter repo = false ->
  parse_repo_url (owner ++ "/" ++ repo) = Ok (owner, repo).
Proof.
  intros Ho Hr Hgit.
  apply valid_repo_inv in Hr. destruct Hr as (Hne & Hrc & c2 & w2 & Er).
  unfold valid_owner in Ho. destruct (chars owner) as [|c w] eqn:Eo; [discriminate|].
  apply andb_true_iff in Ho. destruct Ho as (Hc & Hw).
  assert (Hcr : repo_char c = true) by (unfold repo_char; now rewrite Hc).
  assert (Hplain : forall x, repo_char x = true -> Ascii.eqb x "/" = false)
    by (intros x Hx; now apply repo_char_plain).
  assert (Hchars : chars (owner ++ "/" ++ repo) = (c :: w ++ "/"%char :: chars repo)%list)
    by (rewrite !chars_app, Eo; reflexivity).
  assert (Hsub : "/" ++ repo <> "") by discriminate.
  (* the text is its own normal form *)
  assert (Hnorm : normalize (owner ++ "/" ++ repo) = owner ++ "/" ++ repo).
  { apply normalize_fixed.
    - rewrite Hchars. now apply repo_char_plain.
    - rewrite (last_char_is_append _ owner _ Hsub), (last_char_is_append _ "/" _ Hne).
      apply (last_char_is_forall _ repo_char); [exact Hrc|].
      intros x Hx. now apply repo_char_plain.
    - rewrite (last_char_is_append _ owner _ Hsub), (last_char_is_append _ "/" _ Hne).
      apply (last_char_is_forall _ repo_char); [exact Hrc | exact Hplain].
    - rewrite (last_char_is_append _ owner _ Hsub), (last_char_is_append _ "/" _ Hne).
      exact Hgit. }
  (* the URL pattern cannot match *)
  assert (Hw' : forallb (fun x => negb (Ascii.eqb x "/")) w = true).
  { apply (forallb_no_slash owner_char); [|exact Hw].
    intros x Hx. apply Hplain. now apply owner_char_is_repo_char. }
  assert (Hr' : forallb (fun x => negb (Ascii.eqb x "/")) (chars repo) = true)
    by (apply (forallb_no_slash repo_char); assumption).
  assert (Hurl : Re.search pattern_url (owner ++ "/" ++ repo) = None).
  { apply search_url_needs_more; rewrite Hchars.
    - change (c :: (w ++ "/"%char :: chars repo)%list)
        with ((c :: w) ++ "/"%char :: chars repo)%list.
      rewrite count_occ_app.
      rewrite (count_occ_cons_eq ascii_dec (chars repo) (eq_refl "/"%char)).
      rewrite (count_slash_none (chars repo) Hr').
      rewrite (count_slash_none (c :: w)); [reflexivity|].
      simpl. now rewrite (Hplain c Hcr), Hw'.
    - assert (Hno : forall x, repo_char x = true -> x <> ":"%char).
      { intros x Hx ->. apply repo_char_plain in Hx.
        destruct Hx as (_ & _ & Hx). discriminate. }
      intros Hin. destruct Hin as [E | Hin]; [now apply (Hno c Hcr)|].
      apply in_app_or in Hin. destruct Hin as [Hin | [Hin | Hin]]; try discriminate.
      + rewrite forallb_forall in Hw. apply Hw in Hin.
        now apply (Hno _ (owner_char_is_repo_char _ Hin)).
      + rewrite forallb_forall in Hrc. apply Hrc in Hin. now apply (Hno _ Hin). }
  (* the shorthand pattern matches at once *)
  assert (Hshort : Re.search pattern_short (owner ++ "/" ++ repo)
                   = Some [(2%nat, repo); (1%nat, owner)]).
  { unfold Re.search. apply search_from_here. rewrite Hchars, Er.
    unfold pattern_short, Re.Plus. rewrite run_cat.
    change (Re.run Re.Bol ?k ?st) with (k st).
    rewrite run_cat.
    apply (run_cap_cls_star 1 _ _ true _ _ c w ("/"%char :: c2 :: w2)).
    - reflexivity.
    - rewrite <- Hc. apply owner_head_is_alnum.
    - eapply forallb_weaken; [|exact Hw].
      intros x Hx. exact (eq_trans (owner_tail_is_owner_char x) Hx).
    - reflexivity.
    - rewrite run_cat.
      rewrite (run_str "/" _ _ (c2 :: w2)) by reflexivity.
      rewrite run_cat.
      rewrite Er in Hrc. simpl in Hrc. apply andb_true_iff in Hrc.
      destruct Hrc as (Hc2 & Hw2).
      apply (run_cap_cls_star 2 _ _ true _ _ c2 w2 []).
      + cbn [Re.rest]. now rewrite app_nil_r.
      + exact (eq_trans (repo_class_is_repo_char c2) Hc2).
      + eapply forallb_weaken; [|exact Hw2].
        intros x Hx. exact (eq_trans (repo_class_is_repo_char x) Hx).
      + reflexivity.
      + cbn [Re.run Re.rest Re.pos Re.groups].
        rewrite <- Er, <- Eo, !str_of_chars. reflexivity. }
  rewrite parse_repo_url_unfold, Hnorm, Hurl, Hshort. reflexivity.
Qed.

Lemma parse_repo_url_shorthand_complete_witness :
  parse_repo_url ("octocat" ++ "/" ++ "Hello-World") = Ok ("octocat", "Hello-World").
Proof.
  apply (parse_repo_url_shorthand_complete "octocat" "Hello-World"); reflexivity.
Defined.

Lemma strip_prefix_is_prefix (p l : list ascii) :
  is_prefix p l = false -> Re.strip_prefix p l = None.
Proof.
  revert l. induction p as [|a p IH]; intros l; simpl; [discriminate|].
  destruct l as [|b l]; [reflexivity|].
  destruct (Ascii.eqb a b); simpl; [apply IH | reflexivity].
Qed.

Lemma is_prefix_app_long (p a b : list ascii) :
  (List.length p <= List.length a)%nat ->
  is_prefix p (a ++ b) = is_prefix p a.
Proof.
  revert a. induction p as [|x p IH]; intros a H; simpl; [reflexivity|].
  destruct a as [|y a]; simpl in *; [lia|].
  rewrite IH by lia. reflexivity.
Qed.

Lemma run_str_fail (t : string) (k : Re.mstate -> option (list (nat * string)))
    (st : Re.mstate) :
  Re.strip_prefix (chars t) (Re.rest st) = None -> Re.run (Re.Str t) k st = None.
Proof. intros H. simpl. now rewrite H. Qed.

(** The search passes over a prefix in which the host name does not
    start. *)
Lemma search_url_skips (pre tail : list ascii) :
  starts_within (chars "github.com") pre = false ->
  forall p,
    Re.search_from pattern_url p (pre ++ chars "github.com" ++ tail)
    = Re.search_from pattern_url (p + List.length pre) (chars "github.com" ++ tail).
Proof.
  induction pre as [|x pre IH]; intros H p.
  - simpl List.length. now rewrite Nat.add_0_r.
  - cbn [starts_within] in H. apply orb_false_iff in H. destruct H as (Hx & Hpre).
    change ((x :: pre) ++ chars "github.com" ++ tail)%list
      with (x :: (pre ++ chars "github.com" ++ tail))%list.
    cbn [Re.search_from].
    assert (F : Re.run pattern_url (fun st => Some (Re.groups st))
                  (Re.MState p (x :: pre ++ chars "github.com" ++ tail) []) = None).
    { unfold pattern_url. rewrite run_cat. apply run_str_fail. cbn [Re.rest].
      apply strip_prefix_is_prefix.
      change (x :: (pre ++ chars "github.com" ++ tail))%list
        with ((x :: pre) ++ chars "github.com" ++ tail)%list.
      rewrite app_assoc, is_prefix_app_long; [exact Hx|].
      rewrite length_app. lia. }
    rewrite F, (IH Hpre). simpl List.length. f_equal. lia.
Qed.

Lemma in_not_slash (x : ascii) : Re.in_class x not_slash = negb (Ascii.eqb x "/").
Proof.
  unfold Re.in_class, not_slash. cbn [Re.negated Re.ranges xorb].
  rewrite (in_ranges_cons x "/" [] "/"%char eq_refl).
  unfold Re.in_ranges. simpl. now rewrite orb_false_r.
Qed.

Lemma segment_inv (t : string) :
  segment t = true ->
  exists c w, chars t = c :: w /\
              forallb (fun x => Re.in_class x not_slash) (c :: w) = true.
Proof.
  unfold segment. intros H. apply andb_true_iff in H. destruct H as (Hne & Hall).
  apply negb_true_iff in Hne. apply String.eqb_neq in Hne.
  destruct (chars t) as [|c w] eqn:E.
  - exfalso. apply Hne. rewrite <- (str_of_chars t), E. reflexivity.
  - exists c, w. split; [reflexivity|].
    eapply forallb_weaken; [|exact Hall]. intros x Hx. now rewrite in_not_slash.
Qed.

(** After the repository name the URL pattern accepts nothing but the end
    of the text, [.git] and a final line feed: it refuses every non-empty
    rest that ends neither in white space nor in a character of [.git]. *)
Lemma tail_refused (k : Re.mstate -> option (list (nat * string))) (st : Re.mstate)
    (x : ascii) (l : list ascii) :
  rev (Re.rest st) = x :: l ->
  isspace x = false -> git_letter x = false ->
  Re.run (Re.Cat (Re.Opt (Re.Str ".git")) Re.Eol) k st = None.
Proof.
  intros Hrev Hsp Hgit.
  destruct (Re.run (Re.Cat (Re.Opt (Re.Str ".git")) Re.Eol) k st) as [g|] eqn:E;
    [|reflexivity].
  exfalso. apply run_sound in E.
  destruct E as (st' & (mid & Hopt & Hend & _) & _).
  assert (Hmid : Re.rest st = Re.rest mid \/ Re.rest st = (chars ".git" ++ Re.rest mid)%list).
  { destruct Hopt as [(Hr & _) | ->]; auto. }
  destruct Hmid as [Hm | Hm], Hend as [He | He]; rewrite Hm, He in Hrev;
    simpl in Hrev; try discriminate; injection Hrev as <- _; discriminate.
Qed.

(** A URL form is read as it stands, unless the repository name ends in
    [.], [g], [i] or [t]: when the host name [github.com] first occurs after
    [before], is followed by a colon or a slash, an owner and a repository
    name that are non-empty and hold no slash, and the name ends neither in
    white space nor in one of those four characters, [parse_repo_url]
    answers [(owner, repo)]. *)
Theorem parse_repo_url_url_complete (before sep owner repo : string) :
  first_char_is isspace before = false ->
  starts_within (chars "github.com") (chars before) = false ->
  sep = ":" \/ sep = "/" ->
  segment owner = true ->
  segment repo = true ->
  last_char_is isspace repo = false ->
  last_char_is git_letter repo = false ->
  parse_repo_url (before ++ "github.com" ++ sep ++ owner ++ "/" ++ repo)
  = Ok (owner, repo).
Proof.
  intros Hfirst Hbefore Hsep Ho Hr Hsp Hgit.
  pose proof Hr as Hseg.
  apply segment_inv in Ho. destruct Ho as (c1 & w1 & Eo & Ho).
  apply segment_inv in Hr. destruct Hr as (c2 & w2 & Er & Hr).
  assert (Hne : repo <> "").
  { intros ->. discriminate. }
  set (text := before ++ "github.com" ++ sep ++ owner ++ "/" ++ repo).
  assert (Hrest : forall a : ascii -> bool, last_char_is a text = last_char_is a repo).
  { intros a. unfold text.
    rewrite (last_char_is_append a before) by (destruct Hsep as [-> | ->]; discriminate).
    rewrite (last_char_is_append a "github.com")
      by (destruct Hsep as [-> | ->]; discriminate).
    rewrite (last_char_is_append a sep).
    2:{ intros E. apply (f_equal chars) in E. rewrite chars_app, Eo in E. discriminate. }
    rewrite (last_char_is_append a owner) by discriminate.
    apply (last_char_is_append a "/" repo Hne). }
  assert (Hnorm : normalize text = text).
  { apply normalize_fixed; rewrite ?Hrest; try assumption.
    - unfold text. rewrite chars_app. unfold first_char_is in Hfirst.
      destruct (chars before) as [|x l]; [reflexivity | exact Hfirst].
    - unfold segment in Hseg. apply andb_true_iff in Hseg. destruct Hseg as (_ & Hall).
      unfold last_char_is. destruct (rev (chars repo)) as [|x l] eqn:E; [reflexivity|].
      rewrite forallb_forall in Hall.
      apply negb_true_iff. apply Hall. apply in_rev. rewrite E. now left. }
  assert (Hchars : exists sepc,
             (sepc = ":"%char \/ sepc = "/"%char) /\
             chars text = (chars before ++ chars "github.com"
                             ++ sepc :: c1 :: w1 ++ "/"%char :: c2 :: w2)%list).
  { unfold text. rewrite !chars_app, Eo, Er.
    destruct Hsep as [-> | ->]; eexists; (split; [|reflexivity]); auto. }
  destruct Hchars as (sepc & Hsepc & Hchars).
  assert (Hurl : Re.search pattern_url text = Some [(2%nat, repo); (1%nat, owner)]).
  { unfold Re.search. rewrite Hchars, (search_url_skips _ _ Hbefore).
    apply search_from_here.
    unfold pattern_url, Re.Plus. rewrite run_cat.
    rewrite (run_str "github.com" _ _ (sepc :: c1 :: w1 ++ "/"%char :: c2 :: w2))
      by reflexivity.
    rewrite run_cat.
    rewrite (run_cls _ _ _ sepc (c1 :: w1 ++ "/"%char :: c2 :: w2));
      [|reflexivity | destruct Hsepc as [-> | ->]; reflexivity].
    rewrite run_cat.
    simpl in Ho, Hr. apply andb_true_iff in Ho, Hr.
    destruct Ho as (Hc1 & Hw1). destruct Hr as (Hc2 & Hw2).
    apply (run_cap_cls_star 1 _ _ true _ _ c1 w1 ("/"%char :: c2 :: w2));
      try assumption; try reflexivity.
    rewrite run_cat.
    rewrite (run_str "/" _ _ (c2 :: w2)) by reflexivity.
    rewrite run_cat.
    apply (run_cap_cls_star 2 _ _ false _ _ c2 w2 []); try assumption.
    - cbn [Re.rest]. now rewrite app_nil_r.
    - intros u v E Hv.
      destruct (rev v) as [|x l] eqn:Ev.
      { apply (f_equal (@rev ascii)) in Ev. rewrite rev_involutive in Ev.
        now destruct Hv. }
      assert (Hlast : exists l', rev (chars repo) = x :: l').
      { rewrite Er, E. change (c2 :: (u ++ v)%list) with ((c2 :: u) ++ v)%list.
        rewrite rev_app_distr, Ev. simpl. eauto. }
      destruct Hlast as (l' & Hlast).
      apply (tail_refused _ _ x l).
      + cbn [Re.rest]. now rewrite app_nil_r.
      + unfold last_char_is in Hsp. now rewrite Hlast in Hsp.
      + unfold last_char_is in Hgit. now rewrite Hlast in Hgit.
    - cbn [Re.run Re.rest Re.pos Re.groups Re.strip_prefix chars list_ascii_of_string].
      rewrite <- Er, <- Eo, !str_of_chars. reflexivity. }
  rewrite parse_repo_url_unfold. fold text. rewrite Hnorm, Hurl. reflexivity.
Qed.

Lemma parse_repo_url_url_complete_witness :
  parse_repo_url ("git@" ++ "github.com" ++ ":" ++ "octocat" ++ "/" ++ "Hello-World")
  = Ok ("octocat", "Hello-World").
Proof.
  apply (parse_repo_url_url_complete "git@" ":" "octocat" "Hello-World");
    try reflexivity.
  left. reflexivity.
Defined.

(** ** When the two list fetchers return *)

Lemma mapM_is_ok {A B : Type} (f : A -> result B) (l : list A) :
  is_ok (mapM f l) = forallb (fun x => is_ok (f x)) l.
Proof.
  induction l as [|x l IH]; [reflexivity|]. simpl.
  destruct (f x) as [y|e]; simpl; [|reflexivity].
  rewrite <- IH. destruct (mapM f l); reflexivity.
Qed.

Lemma forallb_pointwise {A : Type} (f g : A -> bool) (l : list A) :
  (forall x, f x = g x) -> forallb f l = forallb g l.
Proof.
  intros H. induction l as [|x l IH]; [reflexivity|]. simpl. now rewrite H, IH.
Qed.

Lemma author_of_is_ok (kvs : list (string * json)) :
  is_ok (author_of (JObj kvs)) = is_object (lookup_or "user" kvs (JObj [])).
Proof.
  unfold author_of, lookup_or. cbn [py_get bind].
  destruct (lookup "user" kvs) as [[| | | | |u]|]; reflexivity.
Qed.

Lemma labels_of_is_ok (kvs : list (string * json)) :
  is_ok (labels_of (JObj kvs)) = labels_ok (lookup_or "labels" kvs (JList [])).
Proof.
  unfold labels_of, lookup_or. cbn [py_get bind].
  assert (Hlist : forall l,
             is_ok (names <- mapM (fun label => py_get label "name" JNull) l ;;
                    Ok (JList names))
             = forallb is_object l).
  { intros l.
    rewrite <- (forallb_pointwise (fun x => is_ok (py_get x "name" JNull)) is_object).
    - rewrite <- mapM_is_ok.
      destruct (mapM (fun label => py_get label "name" JNull) l); reflexivity.
    - intros [| | | | |o]; reflexivity. }
  destruct (lookup "labels" kvs) as [[| | |t|l|o]|]; try reflexivity.
  - destruct t as [|c t]; reflexivity.
  - cbn [py_iter bind labels_ok]. apply Hlist.
  - destruct o as [|[k v] o]; reflexivity.
Qed.

Lemma pr_detail_is_ok (kvs : list (string * json)) (ds : string) :
  is_ok (pr_detail (JObj kvs) ds) = detail_ready (JObj kvs).
Proof.
  unfold pr_detail, detail_ready. cbn [py_get bind].
  rewrite <- author_of_is_ok, <- labels_of_is_ok.
  destruct (author_of (JObj kvs)); [|reflexivity]. cbn [bind is_ok andb].
  destruct (labels_of (JObj kvs)); reflexivity.
Qed.

Lemma pr_step_is_ok (pr : json) (acc : pr_acc) :
  is_ok (pr_step pr acc) = detail_ready pr.
Proof.
  destruct pr as [| | | | |kvs]; try reflexivity.
  rewrite pr_step_unfold. cbv zeta.
  rewrite <- (pr_detail_is_ok kvs (display_state_of kvs)).
  destruct (pr_detail (JObj kvs) (display_state_of kvs)); reflexivity.
Qed.

Lemma pr_loop_is_ok (items : list json) (acc : pr_acc) :
  is_ok (pr_loop items acc) = forallb detail_ready items.
Proof.
  revert acc. induction items as [|x items IH]; intros acc; [reflexivity|].
  simpl. rewrite <- (pr_step_is_ok x acc).
  destruct (pr_step x acc) as [acc'|e]; simpl; [apply IH | reflexivity].
Qed.

Lemma issue_detail_is_ok (x : json) :
  is_ok (issue_detail x) = detail_ready x.
Proof.
  destruct x as [| | | | |kvs]; try reflexivity.
  unfold issue_detail, detail_ready. cbn [py_get bind].
  rewrite <- author_of_is_ok, <- labels_of_is_ok.
  destruct (author_of (JObj kvs)); [|reflexivity]. cbn [bind is_ok andb].
  destruct (labels_of (JObj kvs)); reflexivity.
Qed.

Lemma detail_ready_is_object (l : list json) :
  forallb is_object l = false -> forallb detail_ready l = false.
Proof.
  induction l as [|x l IH]; [discriminate|]. simpl.
  destruct x; simpl; try reflexivity.
  intros H. rewrite (IH H). apply andb_false_r.
Qed.

Lemma py_count_state_is_ok (st : string) (l : list json) (acc : Z) :
  is_ok (py_count (state_is st) l acc) = forallb is_object l.
Proof.
  revert acc. induction l as [|x l IH]; intros acc; [reflexivity|].
  simpl. destruct x; try reflexivity. cbn [state_is py_get bind is_object andb].
  apply IH.
Qed.

(** What the issue comprehensions do to the items the linkage test keeps. *)
Lemma issues_after_filter_is_ok (kept : list json) :
  is_ok (open_count <- py_count (state_is "open") kept 0 ;;
         closed_count <- py_count (state_is "closed") kept 0 ;;
         details <- mapM issue_detail kept ;;
         Ok (issue_stats open_count closed_count (Z.of_nat (List.length kept)) details))
  = forallb detail_ready kept.
Proof.
  pose proof (py_count_state_is_ok "open" kept 0) as Ho.
  pose proof (py_count_state_is_ok "closed" kept 0) as Hc.
  destruct (forallb is_object kept) eqn:E.
  - destruct (py_count (state_is "open") kept 0); [|discriminate].
    destruct (py_count (state_is "closed") kept 0); [|discriminate].
    cbn [bind].
    rewrite <- (forallb_pointwise (fun x => is_ok (issue_detail x)) detail_ready).
    + rewrite <- mapM_is_ok. destruct (mapM issue_detail kept); reflexivity.
    + intros x. apply issue_detail_is_ok.
  - rewrite (detail_ready_is_object _ E).
    destruct (py_count (state_is "open") kept 0); [discriminate | reflexivity].
Qed.

Lemma filterM_issue_ready (items : list json) :
  match filterM not_pull_request items with
  | Ok kept => forallb issue_ready items = forallb detail_ready kept
  | Err _ => forallb issue_ready items = false
  end.
Proof.
  induction items as [|x items IH]; [reflexivity|].
  cbn [filterM forallb]. unfold not_pull_request at 1.
  assert (Hx : issue_ready x
               = match py_in "pull_request" x with
                 | Ok true => true
                 | Ok false => detail_ready x
                 | Err _ => false
                 end) by reflexivity.
  rewrite Hx. clear Hx.
  destruct (py_in "pull_request" x) as [b|e]; cbn [bind]; [|reflexivity].
  destruct (filterM not_pull_request items) as [kept|e]; cbn [bind].
  - destruct b; cbn [negb forallb andb]; [exact IH | now rewrite IH].
  - rewrite IH. destruct b; [reflexivity | apply andb_false_r].
Qed.

(** [get_pull_requests] returns exactly when every item of the payload is
    an object whose [user], if present, is an object and whose [labels], if
    present, are a list of objects (or an empty dictionary or text); any
    other item makes the whole fetch raise.  A payload that is no list, or
    an empty one, has no items. *)
Theorem get_pull_requests_returns_iff (s : session) (owner repo state : string)
    (max_prs : Z) :
  is_ok (get_pull_requests s owner repo state max_prs) = true <->
  forallb detail_ready
    (payload_items (_make_request s (pulls_url owner repo)
                      (Some (list_params state max_prs)))) = true.
Proof.
  unfold get_pull_requests.
  destruct (_make_request s (pulls_url owner repo) (Some (list_params state max_prs)))
    as [| | | |l|]; simpl; rewrite ?orb_true_r; try (split; reflexivity).
  destruct l as [|x l]; [split; reflexivity|].
  cbn [truthy negb orb py_iter bind py_len].
  rewrite <- (pr_loop_is_ok (x :: l) (PrAcc 0 0 0 [])).
  destruct (pr_loop (x :: l) (PrAcc 0 0 0 [])); split; auto.
Qed.

(** [get_issues] returns exactly when every item of the payload either is
    set aside by the linkage test, or is kept by it and is an object whose
    [user], if present, is an object and whose [labels], if present, are a
    list of objects (or an empty dictionary or text): what is malformed in
    an item that carries [pull_request] does no harm, anything else makes
    the whole fetch raise. *)
Theorem get_issues_returns_iff (s : session) (owner repo state : string)
    (max_issues : Z) :
  is_ok (get_issues s owner repo state max_issues) = true <->
  forallb issue_ready
    (payload_items (_make_request s (issues_url owner repo)
                      (Some (list_params state max_issues)))) = true.
Proof.
  unfold get_issues.
  destruct (_make_request s (issues_url owner repo) (Some (list_params state max_issues)))
    as [| | | |l|]; simpl; rewrite ?orb_true_r; try (split; reflexivity).
  destruct l as [|x l]; [split; reflexivity|].
  cbn [truthy negb orb py_iter bind].
  pose proof (filterM_issue_ready (x :: l)) as H.
  destruct (filterM not_pull_request (x :: l)) as [kept|e]; cbn [bind].
  - rewrite H, issues_after_filter_is_ok. split; auto.
  - rewrite H. split; discriminate.
Qed.

Lemma get_pull_requests_returns_iff_witness :
  is_ok (get_pull_requests sample_session "octocat" "Hello-World" "all" 50) = true.
Proof.
  apply (proj2 (get_pull_requests_returns_iff
                  sample_session "octocat" "Hello-World" "all" 50)).
  reflexivity.
Defined.

Lemma get_issues_returns_iff_witness :
  is_ok (get_issues sample_session_null_linked_author "octocat" "Hello-World" "all" 50)
  = true.
Proof.
  apply (proj2 (get_issues_returns_iff
                  sample_session_null_linked_author "octocat" "Hello-World" "all" 50)).
  reflexivity.
Defined.
